(** * A shallow embedding of the XTDB C driver examples

    Sources: [c/xtdb_test.c] (the conformance test harness) and [c/trades.c]
    (the trade insertion utility).  C strings are modelled as [string]
    (lists of [ascii]); C [int]/[long] values as [Z]; libpq is an oracle that
    answers every request the code issues. *)

From Stdlib Require Import ZArith Lia List Bool Ascii String.
From Stdlib Require Import DecimalString DecimalZ.
From Stdlib Require DecimalFacts DecimalPos.
Import ListNotations.
Open Scope string_scope.
Open Scope Z_scope.

(* ------------------------------------------------------------------ *)
(** ** printf-style rendering *)

(** [%ld] / [%d] of a C integer: optional minus sign, then the decimal digits
    without padding. *)
Definition string_of_long (z : Z) : string :=
  NilEmpty.string_of_int (Z.to_int z).

(** [RAND_MAX] of glibc. *)
Definition RAND_MAX : Z := 2147483647.

(* ------------------------------------------------------------------ *)
(** ** Fresh-Table Namer: [get_clean_table] (xtdb_test.c, lines 45-50)

<<
static char* get_clean_table(void) {
    static char table[100];
    snprintf(table, sizeof(table), "test_table_%ld_%d",
             time(NULL), rand() % 10000);
    return table;
}
>>
    [now] is the value returned by [time(NULL)], [rnd] the value returned by
    [rand()] (in [0, RAND_MAX]).  C's [%] truncates, i.e. [Z.rem].  The
    rendered text is at most 11 + 20 + 1 + 4 bytes, so [snprintf] into the
    100-byte buffer never truncates.  The function returns the same static
    buffer on every call; the model returns the text it holds right after
    the call. *)
Definition get_clean_table (now rnd : Z) : string :=
  "test_table_" ++ string_of_long now ++ "_" ++ string_of_long (Z.rem rnd 10000).

(* ------------------------------------------------------------------ *)
(** ** JSON Object Splitter (xtdb_test.c, lines 260-315, [test_json_with_oid])

    The loop scans [file_content[0 .. fsize)] byte by byte with the state
    [brace_count], [obj_start], [in_string] and [escape_next]; a closing brace
    that brings [brace_count] to zero with [obj_start >= 0] hands the span
    [(obj_start, i - obj_start + 1)] to the insert code.  The scan itself has
    no effect, so it is modelled as a pure function producing the spans in
    order; the insertions are a loop over them (see [insert_json_objects]).
    Positions are [Z]; the source stores [obj_start] in an [int], which is
    exact for files below 2 GiB. *)

Record split_state := mkSplit {
  brace_count : Z;
  obj_start : Z;
  in_string : bool;
  escape_next : bool
}.

Definition split_init : split_state := mkSplit 0 (-1) false false.

Definition quote_char : ascii := ascii_of_nat 34.
Definition backslash_char : ascii := ascii_of_nat 92.
Definition lbrace : ascii := "{".
Definition rbrace : ascii := "}".

(** One iteration of the [for] loop at index [i] reading byte [c]. *)
Definition split_step (i : Z) (c : ascii) (s : split_state)
  : split_state * option (Z * Z) :=
  if escape_next s then
    (mkSplit (brace_count s) (obj_start s) (in_string s) false, None)
  else if Ascii.eqb c backslash_char && in_string s then
    (mkSplit (brace_count s) (obj_start s) (in_string s) true, None)
  else if Ascii.eqb c quote_char then
    (mkSplit (brace_count s) (obj_start s) (negb (in_string s)) (escape_next s), None)
  else if in_string s then (s, None)
  else if Ascii.eqb c lbrace then
    (mkSplit (brace_count s + 1)
             (if brace_count s =? 0 then i else obj_start s)
             (in_string s) (escape_next s), None)
  else if Ascii.eqb c rbrace then
    let b := brace_count s - 1 in
    if (b =? 0) && (0 <=? obj_start s) then
      (mkSplit b (-1) (in_string s) (escape_next s),
       Some (obj_start s, i - obj_start s + 1))
    else (mkSplit b (obj_start s) (in_string s) (escape_next s), None)
  else (s, None).

Definition option_list {A} (o : option A) : list A :=
  match o with Some a => [a] | None => [] end.

(** The loop from index [i] over the remaining bytes: final state and the
    spans found, in order. *)
Fixpoint split_scan (i : Z) (s : split_state) (bs : list ascii)
  : split_state * list (Z * Z) :=
  match bs with
  | [] => (s, [])
  | c :: rest =>
      let '(s1, o) := split_step i c s in
      let '(s2, sps) := split_scan (i + 1) s1 rest in
      (s2, option_list o ++ sps)%list
  end.

(** The spans of a whole file. *)
Definition json_object_spans (file_content : list ascii) : list (Z * Z) :=
  snd (split_scan 0 split_init file_content).

(** The bytes a span designates ([file_content + obj_start], [obj_len]). *)
Definition span_bytes (file_content : list ascii) (sp : Z * Z) : list ascii :=
  firstn (Z.to_nat (snd sp)) (skipn (Z.to_nat (fst sp)) file_content).

(** *** The inputs the splitter is meant for

    A lexical description of JSON object text, as far as the scanner can
    see it: a string literal is a run of bytes other than quote and
    backslash, or backslash escapes (backslash and any byte); the inside of
    an object is a run of other bytes, string literals and nested objects.
    Every JSON object text has this shape (JSON arrays, numbers, literals,
    colons and commas are among the "other bytes"). *)
Inductive str_body : list ascii -> Prop :=
| str_nil : str_body []
| str_char c t : c <> quote_char -> c <> backslash_char -> str_body t -> str_body (c :: t)
| str_escape c t : str_body t -> str_body (backslash_char :: c :: t).

Inductive obj_body : list ascii -> Prop :=
| body_nil : obj_body []
| body_char c t : c <> lbrace -> c <> rbrace -> c <> quote_char ->
    obj_body t -> obj_body (c :: t)
| body_string s t : str_body s -> obj_body t ->
    obj_body (quote_char :: s ++ quote_char :: t)%list
| body_object b t : obj_body b -> obj_body t ->
    obj_body (lbrace :: b ++ rbrace :: t)%list.

(** A top-level object whose inside is [b]. *)
Definition braced (b : list ascii) : list ascii := (lbrace :: b ++ [rbrace])%list.

Definition is_ws (c : ascii) : bool :=
  Ascii.eqb c " " || Ascii.eqb c (ascii_of_nat 9) ||
  Ascii.eqb c (ascii_of_nat 10) || Ascii.eqb c (ascii_of_nat 13).

(** A file: leading whitespace, then objects each followed by whitespace. *)
Definition objects_file (ws0 : list ascii) (items : list (list ascii * list ascii))
  : list ascii :=
  (ws0 ++ List.concat (map (fun '(b, w) => braced b ++ w) items))%list.

(** Where each object of [objects_file] starts and how long it is. *)
Fixpoint object_positions (i : Z) (items : list (list ascii * list ascii))
  : list (Z * Z) :=
  match items with
  | [] => []
  | (b, w) :: rest =>
      (i, Z.of_nat (List.length b) + 2)
        :: object_positions (i + Z.of_nat (List.length b) + 2 + Z.of_nat (List.length w)) rest
  end.

(* ------------------------------------------------------------------ *)
(** ** libpq, as the test harness sees it *)

Inductive ExecStatusType :=
| PGRES_EMPTY_QUERY | PGRES_COMMAND_OK | PGRES_TUPLES_OK | PGRES_COPY_OUT
| PGRES_COPY_IN | PGRES_BAD_RESPONSE | PGRES_NONFATAL_ERROR | PGRES_FATAL_ERROR.

Scheme Equality for ExecStatusType.

(** A result: its status and its rows of text cells. *)
Record PGresult := mkResult {
  res_status : ExecStatusType;
  res_tuples : list (list string)
}.

Definition PQresultStatus (r : PGresult) : ExecStatusType := res_status r.

Definition PQntuples (r : PGresult) : Z := Z.of_nat (List.length (res_tuples r)).

(** [PQgetvalue] returns NULL ([None]) outside the result. *)
Definition PQgetvalue (r : PGresult) (row col : nat) : option string :=
  match nth_error (res_tuples r) row with
  | Some cells => nth_error cells col
  | None => None
  end.

(** What the client sends on the connection. *)
Inductive Request :=
| Exec (sql : string)
| ExecParams (sql : string) (oid : Z) (param : string)
| PutCopyData (data : list ascii)
| PutCopyEnd
| GetResult.

(** The server (and libpq) as an oracle: the reply to a request may depend on
    everything sent before it on the connection. *)
Record Server := mkServer {
  srv_result : list Request -> Request -> PGresult;
  srv_int : list Request -> Request -> Z
}.

Definition JSON_OID : Z := 114.
Definition TRANSIT_OID : Z := 16384.

(* ------------------------------------------------------------------ *)
(** ** The test framework (xtdb_test.c, lines 9-43)

    A test case runs with the connection and the two counters
    [*passed] / [*failed]; the state also records what has been sent on the
    connection.  A case ends normally ([Done]), by a [return] inside an
    [ASSERT] ([Returned]), or by undefined behaviour such as [strcmp] on a
    NULL pointer ([Crashed]). *)
Record St := mkSt {
  passed : Z;
  failed : Z;
  sent : list Request
}.

Inductive outcome (A : Type) :=
| Done (a : A)
| Returned
| Crashed.
Arguments Done {A} a.
Arguments Returned {A}.
Arguments Crashed {A}.

Definition M (A : Type) : Type := St -> outcome A * St.

Definition ret {A} (a : A) : M A := fun s => (Done a, s).

Definition bind {A B} (m : M A) (k : A -> M B) : M B :=
  fun s => match m s with
           | (Done a, s1) => k a s1
           | (Returned, s1) => (Returned, s1)
           | (Crashed, s1) => (Crashed, s1)
           end.

Notation "x <- m ;; k" := (bind m (fun x => k))
  (at level 61, m at next level, right associativity).
Notation "m ;; k" := (bind m (fun _ => k)) (at level 61, right associativity).

Definition crash {A} : M A := fun s => (Crashed, s).

(** [ASSERT(condition, message)] *)
Definition ASSERT (condition : bool) : M unit :=
  fun s => if condition then (Done tt, s)
           else (Returned, mkSt (passed s) (failed s + 1) (sent s)).

(** [ASSERT_EQ_STR(actual, expected, message)]: [strcmp] on NULL crashes. *)
Definition ASSERT_EQ_STR (actual : option string) (expected : string) : M unit :=
  match actual with
  | Some a => ASSERT (String.eqb a expected)
  | None => crash
  end.

(** [ASSERT_EQ_INT(actual, expected, message)] *)
Definition ASSERT_EQ_INT (actual expected : Z) : M unit := ASSERT (actual =? expected).

(** [PASS()] *)
Definition PASS : M unit :=
  fun s => (Done tt, mkSt (passed s + 1) (failed s) (sent s)).

(** [strstr(haystack, needle) != NULL]; [strstr] on NULL crashes. *)
Fixpoint strstr_found (haystack needle : string) : bool :=
  String.prefix needle haystack ||
  match haystack with
  | EmptyString => false
  | String _ rest => strstr_found rest needle
  end.

Definition strstr (haystack : option string) (needle : string) : M bool :=
  match haystack with
  | Some h => ret (strstr_found h needle)
  | None => crash
  end.

Definition is_some {A} (o : option A) : bool :=
  match o with Some _ => true | None => false end.

Section Libpq.
Variable srv : Server.

Definition send (rq : Request) : M PGresult :=
  fun s => (Done (srv_result srv (sent s) rq),
            mkSt (passed s) (failed s) (sent s ++ [rq])%list).

Definition send_int (rq : Request) : M Z :=
  fun s => (Done (srv_int srv (sent s) rq),
            mkSt (passed s) (failed s) (sent s ++ [rq])%list).

Definition PQexec (sql : string) : M PGresult := send (Exec sql).

(** [PQexecParams] with one parameter of type [oid], in text format. *)
Definition PQexecParams1 (sql : string) (oid : Z) (param : string) : M PGresult :=
  send (ExecParams sql oid param).

Definition PQputCopyData (data : list ascii) : M Z := send_int (PutCopyData data).
Definition PQputCopyEnd : M Z := send_int PutCopyEnd.
Definition PQgetResult : M PGresult := send GetResult.

End Libpq.

(** The runner: [RUN_TEST] calls each case in turn with the shared counters
    (xtdb_test.c, lines 11-14 and 819-833); a crash ends the program. *)
Fixpoint run_tests (cases : list (M unit)) (s : St) : bool * St :=
  match cases with
  | [] => (false, s)
  | c :: rest =>
      match c s with
      | (Crashed, s1) => (true, s1)
      | (_, s1) => run_tests rest s1
      end
  end.

(** The exit code of [main] once the cases have run. *)
Definition exit_code (s : St) : Z := if 0 <? failed s then 1 else 0.

(* ------------------------------------------------------------------ *)
(** ** Reading the transit fixture line by line (xtdb_test.c, lines 375-397)

    [fgets(line, sizeof(line), fp)] with [char line[4096]] reads at most
    4095 bytes, stopping after a newline. *)
Definition newline : ascii := ascii_of_nat 10.
Definition tab : ascii := ascii_of_nat 9.
Definition carriage_return : ascii := ascii_of_nat 13.
Definition nul : ascii := ascii_of_nat 0.

Definition LINE_SIZE : nat := 4096.

Fixpoint fgets_read (n : nat) (input : list ascii) : list ascii * list ascii :=
  match n, input with
  | O, _ => ([], input)
  | _, [] => ([], [])
  | S n', c :: rest =>
      if Ascii.eqb c newline then ([c], rest)
      else let '(l, r) := fgets_read n' rest in (c :: l, r)
  end.

(** The successive buffers [fgets] fills until it returns NULL at end of
    file; each call consumes at least one byte, so [List.length input] calls
    suffice. *)
Fixpoint fgets_chunks (fuel : nat) (input : list ascii) : list (list ascii) :=
  match fuel, input with
  | O, _ => []
  | _, [] => []
  | S fuel', _ =>
      let '(l, r) := fgets_read (LINE_SIZE - 1) input in
      l :: fgets_chunks fuel' r
  end.

Definition fgets_all (input : list ascii) : list (list ascii) :=
  fgets_chunks (List.length input) input.

(** The C string held by the buffer: up to the first NUL. *)
Fixpoint cstring (buf : list ascii) : list ascii :=
  match buf with
  | [] => []
  | c :: rest => if Ascii.eqb c nul then [] else c :: cstring rest
  end.

(** The leading loop of the source: advance [trimmed] past spaces, tabs and
    newlines. *)
Fixpoint trim_leading (l : list ascii) : list ascii :=
  match l with
  | c :: rest =>
      if Ascii.eqb c " " || Ascii.eqb c tab || Ascii.eqb c newline
      then trim_leading rest else l
  | [] => []
  end.

Fixpoint drop_trailing_rev (r : list ascii) : list ascii :=
  match r with
  | c :: rest =>
      if Ascii.eqb c " " || Ascii.eqb c newline || Ascii.eqb c carriage_return
      then drop_trailing_rev rest else r
  | [] => []
  end.

(** The trailing loop of the source: while [len > 0] and the last byte is a
    space, newline or carriage return, overwrite it with NUL. *)
Definition trim_trailing (l : list ascii) : list ascii :=
  rev (drop_trailing_rev (rev l)).

Definition trim_line (buf : list ascii) : list ascii :=
  trim_trailing (trim_leading (cstring buf)).

Section Tests.
Variable srv : Server.
(** The fixture files: [fopen] succeeds exactly on the paths mapped here. *)
Variable fs : string -> option (list ascii).

Definition sample_users_json : string := "../test-data/sample-users.json".
Definition sample_users_transit : string := "../test-data/sample-users-transit.json".
Definition sample_users_msgpack : string := "../test-data/sample-users-transit.msgpack".

Definition contents (path : string) : list ascii :=
  match fs path with Some c => c | None => [] end.

(** The body of the [while (fgets(...))] loop: trim, skip empty lines, insert
    the rest with the transit OID and count them. *)
Fixpoint load_transit_lines (query : string) (chunks : list (list ascii))
    (inserted_count : Z) : M Z :=
  match chunks with
  | [] => ret inserted_count
  | line :: rest =>
      let trimmed := trim_line line in
      match trimmed with
      | [] => load_transit_lines query rest inserted_count
      | _ :: _ =>
          res <- PQexecParams1 srv query TRANSIT_OID (string_of_list_ascii trimmed);;
          ASSERT (ExecStatusType_beq (PQresultStatus res) PGRES_COMMAND_OK);;
          load_transit_lines query rest (inserted_count + 1)
      end
  end.

(** The insert done for each span of the splitter (lines 297-311): the object
    is copied with [strncpy] into [char json_object[8192]] (a longer object
    overflows the buffer) and inserted with the JSON OID. *)
Fixpoint insert_json_objects (query : string) (file_content : list ascii)
    (spans : list (Z * Z)) (inserted_count : Z) : M Z :=
  match spans with
  | [] => ret inserted_count
  | sp :: rest =>
      if 8192 <=? snd sp then crash
      else
        let json_object := cstring (span_bytes file_content sp) in
        res <- PQexecParams1 srv query JSON_OID (string_of_list_ascii json_object);;
        ASSERT (ExecStatusType_beq (PQresultStatus res) PGRES_COMMAND_OK);;
        insert_json_objects query file_content rest (inserted_count + 1)
  end.

Definition status_is (r : PGresult) (st : ExecStatusType) : bool :=
  ExecStatusType_beq (PQresultStatus r) st.

(** The verification shared word for word by [test_json_with_oid]
    (lines 320-352) and [test_transit_with_oid] (lines 405-437). *)
Definition alice_columns_sql (table : string) : string :=
  "SELECT _id, name, age, active, email, salary, tags, metadata FROM "
  ++ table ++ " WHERE _id = 'alice'".

Definition count_sql (table : string) : string := "SELECT COUNT(*) FROM " ++ table.

Definition verify_alice_full (table : string) : M unit :=
  res <- PQexec srv (alice_columns_sql table);;
  ASSERT (status_is res PGRES_TUPLES_OK);;
  ASSERT_EQ_INT (PQntuples res) 1;;
  ASSERT_EQ_STR (PQgetvalue res 0 0) "alice";;
  ASSERT_EQ_STR (PQgetvalue res 0 1) "Alice Smith";;
  ASSERT_EQ_STR (PQgetvalue res 0 2) "30";;
  ASSERT_EQ_STR (PQgetvalue res 0 3) "t";;
  ASSERT_EQ_STR (PQgetvalue res 0 4) "alice@example.com";;
  ASSERT_EQ_STR (PQgetvalue res 0 5) "125000.5";;
  let tags := PQgetvalue res 0 6 in
  ASSERT (is_some tags);;
  b <- strstr tags "admin";; ASSERT b;;
  b <- strstr tags "developer";; ASSERT b;;
  let metadata := PQgetvalue res 0 7 in
  ASSERT (is_some metadata);;
  b <- strstr metadata "Engineering";; ASSERT b;;
  b <- strstr metadata "5";; ASSERT b;;
  b <- strstr metadata "2020-01-15";; ASSERT b;;
  res <- PQexec srv (count_sql table);;
  ASSERT (status_is res PGRES_TUPLES_OK);;
  ASSERT_EQ_STR (PQgetvalue res 0 0) "3".

(** [TEST(json_with_oid)] (lines 242-356); [now] and [rnd] are what
    [time(NULL)] and [rand()] return in [get_clean_table]. *)
Definition test_json_with_oid (now rnd : Z) : M unit :=
  let table := get_clean_table now rnd in
  ASSERT (is_some (fs sample_users_json));;
  let file_content := contents sample_users_json in
  let query := "INSERT INTO " ++ table ++ " RECORDS $1" in
  inserted_count <- insert_json_objects query file_content
                      (json_object_spans file_content) 0;;
  ASSERT_EQ_INT inserted_count 3;;
  verify_alice_full table;;
  PASS.

Definition SET_TRANSIT : string := "SET fallback_output_format = 'transit'".
Definition RESET_FORMAT : string := "RESET fallback_output_format".

(** [TEST(transit_with_oid)] (lines 358-445). *)
Definition test_transit_with_oid (now rnd : Z) : M unit :=
  let table := get_clean_table now rnd in
  set_res <- PQexec srv SET_TRANSIT;;
  ASSERT (status_is set_res PGRES_COMMAND_OK);;
  ASSERT (is_some (fs sample_users_transit));;
  let query := "INSERT INTO " ++ table ++ " RECORDS $1" in
  inserted_count <- load_transit_lines query (fgets_all (contents sample_users_transit)) 0;;
  ASSERT_EQ_INT inserted_count 3;;
  verify_alice_full table;;
  set_res <- PQexec srv RESET_FORMAT;;
  PASS.

(** [TEST(transit_nest_one_full_record)] (lines 447-542). *)
Definition test_transit_nest_one_full_record (now rnd : Z) : M unit :=
  let table := get_clean_table now rnd in
  set_res <- PQexec srv SET_TRANSIT;;
  ASSERT (status_is set_res PGRES_COMMAND_OK);;
  ASSERT (is_some (fs sample_users_transit));;
  let query := "INSERT INTO " ++ table ++ " RECORDS $1" in
  inserted_count <- load_transit_lines query (fgets_all (contents sample_users_transit)) 0;;
  ASSERT_EQ_INT inserted_count 3;;
  res <- PQexec srv ("SELECT NEST_ONE(FROM " ++ table ++ " WHERE _id = 'alice') AS r");;
  ASSERT (status_is res PGRES_TUPLES_OK);;
  ASSERT_EQ_INT (PQntuples res) 1;;
  let record := PQgetvalue res 0 0 in
  ASSERT (is_some record);;
  b <- strstr record "alice";; ASSERT b;;
  b <- strstr record "Alice Smith";; ASSERT b;;
  b <- strstr record "30";; ASSERT b;;
  b1 <- strstr record "true";;
  b2 <- (if b1 then ret true else strstr record "t");;
  ASSERT b2;;
  b <- strstr record "alice@example.com";; ASSERT b;;
  b <- strstr record "125000.5";; ASSERT b;;
  b <- strstr record "admin";; ASSERT b;;
  b <- strstr record "developer";; ASSERT b;;
  b <- strstr record "Engineering";; ASSERT b;;
  b <- strstr record "5";; ASSERT b;;
  b1 <- strstr record "~#time/zoned-date-time";;
  b2 <- (if b1 then strstr record "2020-01-15" else ret false);;
  ASSERT b2;;
  set_res <- PQexec srv RESET_FORMAT;;
  PASS.

Definition msgpack_copy_sql (table : string) : string :=
  "COPY " ++ table ++ " FROM STDIN WITH (FORMAT 'transit-msgpack')".

Definition msgpack_select_sql (table : string) : string :=
  "SELECT _id, name, age FROM " ++ table ++ " ORDER BY _id".

(** [TEST(transit_msgpack_copy_from)] (lines 671-722).  [fread] of the
    regular fixture file returns its whole size. *)
Definition test_transit_msgpack_copy_from (now rnd : Z) : M unit :=
  let table := get_clean_table now rnd in
  ASSERT (is_some (fs sample_users_msgpack));;
  let msgpack_data := contents sample_users_msgpack in
  let file_size := Z.of_nat (List.length msgpack_data) in
  let bytes_read := file_size in
  ASSERT (bytes_read =? file_size);;
  res <- PQexec srv (msgpack_copy_sql table);;
  ASSERT (status_is res PGRES_COPY_IN);;
  result <- PQputCopyData srv msgpack_data;;
  ASSERT (result =? 1);;
  result <- PQputCopyEnd srv;;
  ASSERT (result =? 1);;
  res <- PQgetResult srv;;
  ASSERT (status_is res PGRES_COMMAND_OK);;
  res <- PQexec srv (msgpack_select_sql table);;
  ASSERT (status_is res PGRES_TUPLES_OK);;
  ASSERT (PQntuples res =? 3);;
  ASSERT_EQ_STR (PQgetvalue res 0 0) "alice";;
  ASSERT_EQ_STR (PQgetvalue res 0 1) "Alice Smith";;
  ASSERT_EQ_STR (PQgetvalue res 0 2) "30";;
  PASS.

End Tests.

(* ------------------------------------------------------------------ *)
(** ** Sample fixtures and servers

    Fixture texts are written with single quotes standing for double
    quotes. *)
Definition with_double_quotes (s : string) : list ascii :=
  map (fun c => if Ascii.eqb c "'" then quote_char else c) (list_ascii_of_string s).

Definition nl : string := String newline EmptyString.

(** [sample-users.json]: three pretty-printed objects. *)
Definition sample_users_json_text : list ascii :=
  with_double_quotes
    ("{" ++ nl ++ "  '_id': 'alice', 'name': 'Alice Smith', 'age': 30, 'active': true," ++ nl ++
     "  'email': 'alice@example.com', 'salary': 125000.5, 'tags': ['admin', 'developer']," ++ nl ++
     "  'metadata': {'department': 'Engineering', 'level': 5, 'joined': '2020-01-15T09:00:00Z'}" ++ nl ++
     "}" ++ nl ++
     "{" ++ nl ++ "  '_id': 'bob', 'name': 'Bob {Jones}', 'note': 'say \'hi\''" ++ nl ++ "}" ++ nl ++
     "{" ++ nl ++ "  '_id': 'carol', 'name': 'Carol White'" ++ nl ++ "}" ++ nl).

(** [sample-users-transit.json]: one transit-JSON record per line. *)
Definition sample_users_transit_text : list ascii :=
  with_double_quotes
    ("['^ ','~:_id','alice','~:name','Alice Smith','~:age',30,'~:active',true]" ++ nl ++
     "['^ ','~:_id','bob','~:name','Bob Jones']" ++ nl ++
     nl ++
     "  ['^ ','~:_id','carol','~:name','Carol White']  " ++ nl).

Definition sample_fs (path : string) : option (list ascii) :=
  if String.eqb path sample_users_json then Some sample_users_json_text
  else if String.eqb path sample_users_transit then Some sample_users_transit_text
  else if String.eqb path sample_users_msgpack then Some (list_ascii_of_string "binary")
  else None.

(** The same fixtures, with the transit file missing. *)
Definition fs_without_transit (path : string) : option (list ascii) :=
  if String.eqb path sample_users_transit then None else sample_fs path.

Definition alice_full_row : list string :=
  ["alice"; "Alice Smith"; "30"; "t"; "alice@example.com"; "125000.5";
   "[admin, developer]"; "{department: Engineering, level: 5, joined: 2020-01-15T09:00Z}"].

(** The NEST_ONE cell of the alice record, with [active] rendered as [b]. *)
Definition nest_one_cell (b : string) : string :=
  "[^ , ~:_id, alice, ~:name, Alice Smith, ~:age, 30, ~:active, " ++ b ++
  ", ~:email, alice@example.com, ~:salary, 125000.5, ~:tags, [admin, developer]," ++
  " ~:metadata, [^ , ~:department, Engineering, ~:level, 5, ~:joined," ++
  " [~#time/zoned-date-time, 2020-01-15T09:00Z]]]".

(** A server holding the three users, answering alice's column query with
    [alice_row] and the NEST_ONE query with [nest_cell]. *)
Definition sample_server (alice_row : list string) (nest_cell : string) : Server :=
  mkServer
    (fun _ rq =>
       match rq with
       | Exec sql =>
           if String.prefix "SELECT _id, name, age, active" sql
           then mkResult PGRES_TUPLES_OK [alice_row]
           else if String.prefix "SELECT COUNT(*)" sql
           then mkResult PGRES_TUPLES_OK [["3"]]
           else if String.prefix "SELECT NEST_ONE" sql
           then mkResult PGRES_TUPLES_OK [[nest_cell]]
           else if String.prefix "SELECT _id, name, age FROM" sql
           then mkResult PGRES_TUPLES_OK
                  [["alice"; "Alice Smith"; "30"]; ["bob"; "Bob Jones"; "25"];
                   ["carol"; "Carol White"; "41"]]
           else if String.prefix "COPY" sql
           then mkResult PGRES_COPY_IN []
           else mkResult PGRES_COMMAND_OK []
       | _ => mkResult PGRES_COMMAND_OK []
       end)
    (fun _ _ => 1).

Definition good_server : Server := sample_server alice_full_row (nest_one_cell "true").

Definition st0 : St := mkSt 0 0 [].

(** A server that rejects every parameterised insert. *)
Definition insert_failing_server : Server :=
  mkServer
    (fun h rq =>
       match rq with
       | ExecParams _ _ _ => mkResult PGRES_FATAL_ERROR []
       | _ => srv_result good_server h rq
       end)
    (fun _ _ => 1).

(** An alice row whose active, email, salary, tags and metadata are wrong. *)
Definition wrong_alice_row : list string :=
  ["alice"; "Alice Smith"; "30"; "f"; "nobody@example.com"; "0"; "[]"; "{}"].

(* ------------------------------------------------------------------ *)
(** ** What a verification accepts *)

(** The reply to alice's column query passes every check of
    [verify_alice_full]. *)
Definition alice_row_checked (r : PGresult) : Prop :=
  PQresultStatus r = PGRES_TUPLES_OK /\ PQntuples r = 1 /\
  PQgetvalue r 0 0 = Some "alice" /\ PQgetvalue r 0 1 = Some "Alice Smith" /\
  PQgetvalue r 0 2 = Some "30" /\ PQgetvalue r 0 3 = Some "t" /\
  PQgetvalue r 0 4 = Some "alice@example.com" /\ PQgetvalue r 0 5 = Some "125000.5" /\
  (exists tags, PQgetvalue r 0 6 = Some tags /\
     strstr_found tags "admin" = true /\ strstr_found tags "developer" = true) /\
  (exists metadata, PQgetvalue r 0 7 = Some metadata /\
     strstr_found metadata "Engineering" = true /\ strstr_found metadata "5" = true /\
     strstr_found metadata "2020-01-15" = true).

Definition count_checked (r : PGresult) : Prop :=
  PQresultStatus r = PGRES_TUPLES_OK /\ PQgetvalue r 0 0 = Some "3".

(** The reply to the msgpack case's [ORDER BY _id] query passes its checks. *)
Definition msgpack_rows_checked (r : PGresult) : Prop :=
  PQresultStatus r = PGRES_TUPLES_OK /\ PQntuples r = 3 /\
  PQgetvalue r 0 0 = Some "alice" /\ PQgetvalue r 0 1 = Some "Alice Smith" /\
  PQgetvalue r 0 2 = Some "30".

(** The sample fixtures with an unclosed opening brace appended to
    [sample-users.json]. *)
Definition fs_trailing_brace (path : string) : option (list ascii) :=
  if String.eqb path sample_users_json then Some (sample_users_json_text ++ [lbrace])%list
  else sample_fs path.

(** A statement that leaves both counters alone when it completes, and adds
    one to the fail counter when it returns from the case. *)
Definition counts_at_most_failure {A} (m : M A) : Prop :=
  forall s, match m s with
            | (Done _, s') => passed s' = passed s /\ failed s' = failed s
            | (Returned, s') => passed s' = passed s /\ failed s' = failed s + 1
            | (Crashed, _) => True
            end.

(** A whole case: it adds one to exactly one of the counters, unless it
    crashes. *)
Definition counts_once (m : M unit) : Prop :=
  forall s, match m s with
            | (Done _, s') => passed s' = passed s + 1 /\ failed s' = failed s
            | (Returned, s') => passed s' = passed s /\ failed s' = failed s + 1
            | (Crashed, _) => True
            end.

(** One case's effect on the counters: one more pass or one more failure. *)
Definition one_count (s s' : St) : Prop :=
  (passed s' = passed s + 1 /\ failed s' = failed s) \/
  (passed s' = passed s /\ failed s' = failed s + 1).

(** [ss] lists the counters after each of [cases], run in turn from [s]:
    no case crashed, and each one added one pass or one failure. *)
Fixpoint case_states (cases : list (M unit)) (s : St) (ss : list St) : Prop :=
  match cases, ss with
  | [], [] => True
  | c :: rest, s1 :: ss' =>
      fst (c s) <> Crashed /\ snd (c s) = s1 /\ one_count s s1 /\ case_states rest s1 ss'
  | _, _ => False
  end.

(** ** Line-oriented transit fixtures *)

(** A text file made of newline-terminated [lines] followed by an optional
    unterminated [last] line. *)
Definition text_file (lines : list (list ascii)) (last : list ascii) : list ascii :=
  (List.concat (map (fun l => l ++ [newline]) lines) ++ last)%list.

(** A line as the test reads it: the leading spaces, tabs and newlines and
    the trailing spaces, newlines and carriage returns removed. *)
Definition trim_spec (l : list ascii) : list ascii := trim_trailing (trim_leading l).

Definition nonempty {A} (l : list A) : bool :=
  match l with [] => false | _ :: _ => true end.

Definition nonblank_lines (lines : list (list ascii)) : list (list ascii) :=
  filter (fun l => nonempty (trim_spec l)) lines.

(** The buffers [fgets] fills for one newline-terminated line that fits in
    [char line[4096]] with its terminator, or just without it. *)
Definition line_chunks (l : list ascii) : list (list ascii) :=
  if Nat.eqb (List.length l) (LINE_SIZE - 1) then [l; [newline]] else [(l ++ [newline])%list].

Definition last_chunk (l : list ascii) : list (list ascii) :=
  match l with [] => [] | _ :: _ => [l] end.

Definition short_line (l : list ascii) : Prop :=
  ~ In newline l /\ ~ In nul l /\ (List.length l <= LINE_SIZE - 1)%nat.

(** One line of 4096 letters. *)
Definition long_line : list ascii := repeat "a"%char 4096.

(* ------------------------------------------------------------------ *)
(** ** [trades.c]: transactional batch insertion (lines 135-412)

    The connection is observed through an environment: the server's verdict
    on each request, the connection status [PQstatus] reports, and the
    [shutdown_requested] flag the signal handler may set; each of them may
    depend on everything sent before.  A [PGresult] is a heap handle: the
    state records the live ones, and reading or clearing a handle that is no
    longer live is undefined behaviour, modelled as a crash. *)
Module Trades.

Record trade_info := mk_trade {
  id : Z;
  name : option string;
  quantity : Z;
  json_info : option string
}.

Inductive Request :=
| Exec (sql : string)
| ExecParams (sql : string) (types : list Z) (params : list string).

Record Env := mkEnv {
  accepts : list (Request * bool) -> Request -> bool;
  conn_ok : list (Request * bool) -> bool;
  shutdown_flag : list (Request * bool) -> bool
}.

(** The requests sent with the server's verdicts, and the live results. *)
Record TSt := mkTSt { trace : list (Request * bool); live : list nat; next_res : nat }.

Record PGresult := mkRes { res_handle : nat; res_ok : bool }.

Inductive toutcome (A : Type) :=
| TDone (a : A)
| TCrashed.
Arguments TDone {A} a.
Arguments TCrashed {A}.

Definition TM (A : Type) : Type := TSt -> toutcome A * TSt.

Definition tret {A} (a : A) : TM A := fun s => (TDone a, s).

Definition tbind {A B} (m : TM A) (k : A -> TM B) : TM B :=
  fun s => match m s with
           | (TDone a, s1) => k a s1
           | (TCrashed, s1) => (TCrashed, s1)
           end.

Definition tcrash {A} : TM A := fun s => (TCrashed, s).

Local Notation "x <- m ;; k" := (tbind m (fun x => k))
  (at level 61, m at next level, right associativity).
Local Notation "m ;; k" := (tbind m (fun _ => k)) (at level 61, right associativity).

Section Code.
Variable env : Env.

(** [PQstatus(conn) == CONNECTION_OK] *)
Definition PQstatus_ok : TM bool := fun s => (TDone (conn_ok env (trace s)), s).

Definition shutdown_requested : TM bool := fun s => (TDone (shutdown_flag env (trace s)), s).

Definition send (rq : Request) : TM PGresult :=
  fun s => let ok := accepts env (trace s) rq in
           (TDone (mkRes (next_res s) ok),
            mkTSt (trace s ++ [(rq, ok)])%list (next_res s :: live s) (S (next_res s))).

Definition PQexec (sql : string) : TM PGresult := send (Exec sql).

Definition PQexecParams (sql : string) (types : list Z) (params : list string) : TM PGresult :=
  send (ExecParams sql types params).

Definition is_live (h : nat) (s : TSt) : bool := existsb (Nat.eqb h) (live s).

(** [PQresultStatus(res) == PGRES_COMMAND_OK] *)
Definition PQresultStatus_ok (r : PGresult) : TM bool :=
  fun s => if is_live (res_handle r) s then (TDone (res_ok r), s) else (TCrashed, s).

Definition PQclear (r : PGresult) : TM unit :=
  fun s => if is_live (res_handle r) s
           then (TDone tt, mkTSt (trace s)
                             (filter (fun h => negb (Nat.eqb (res_handle r) h)) (live s))
                             (next_res s))
           else (TCrashed, s).

(** [handle_db_error]: logs the error fields, then [PQclear(res)]. *)
Definition handle_db_error (res : PGresult) : TM unit :=
  ok <- PQresultStatus_ok res;;
  PQclear res.

Definition begin_transaction : TM bool :=
  ok <- PQstatus_ok;;
  if negb ok then tret false else
  res <- PQexec "BEGIN";;
  st <- PQresultStatus_ok res;;
  if negb st then (handle_db_error res;; PQclear res;; tret false)
  else (PQclear res;; tret true).

Definition commit_transaction : TM bool :=
  ok <- PQstatus_ok;;
  if negb ok then tret false else
  res <- PQexec "COMMIT";;
  st <- PQresultStatus_ok res;;
  if negb st then (handle_db_error res;; PQclear res;; tret false)
  else (PQclear res;; tret true).

Definition rollback_transaction : TM bool :=
  ok <- PQstatus_ok;;
  if negb ok then tret false else
  res <- PQexec "ROLLBACK";;
  st <- PQresultStatus_ok res;;
  if negb st then (handle_db_error res;; PQclear res;; tret false)
  else (PQclear res;; tret true).

Definition validate_trade (trade : option trade_info) : bool :=
  match trade with
  | None => false
  | Some t =>
      match name t, json_info t with
      | Some _, Some _ => 0 <? quantity t
      | _, _ => false
      end
  end.

Definition MAX_INT_STR_LEN : nat := 32.

Definition insert_query : string :=
  "INSERT INTO trades (_id, name, quantity, info) VALUES ($1, $2, $3, $4)".

(** int4, text, int4, jsonb *)
Definition insert_types : list Z := [23; 25; 23; 3802].

Definition insert_trade (trade : option trade_info) : TM bool :=
  ok <- PQstatus_ok;;
  if negb ok then tret false else
  if negb (validate_trade trade) then tret false else
  match trade with
  | None => tret false
  | Some t =>
      match name t, json_info t with
      | Some n, Some j =>
          let id_str := string_of_long (id t) in
          let quantity_str := string_of_long (quantity t) in
          if Nat.leb MAX_INT_STR_LEN (String.length id_str)
             || Nat.leb MAX_INT_STR_LEN (String.length quantity_str)
          then tret false else
          res <- PQexecParams insert_query insert_types [id_str; n; quantity_str; j];;
          st <- PQresultStatus_ok res;;
          if negb st then (handle_db_error res;; PQclear res;; tret false)
          else (PQclear res;; tret true)
      | _, _ => tret false
      end
  end.

(** The [for] loop of [insert_trades_batch], from index [i] with [rem]
    iterations left; [trades[i]] past the end of the array is an
    out-of-bounds read. *)
Fixpoint batch_loop (trades : list (option trade_info)) (i rem : nat) : TM bool :=
  match rem with
  | O => commit_transaction
  | S rem' =>
      sd <- shutdown_requested;;
      if sd then (rollback_transaction;; tret false) else
      match nth_error trades i with
      | None => tcrash
      | Some t =>
          ok <- insert_trade t;;
          if negb ok then (rollback_transaction;; tret false)
          else batch_loop trades (S i) rem'
      end
  end.

Definition insert_trades_batch (trades : option (list (option trade_info))) (count : nat) : TM bool :=
  ok <- PQstatus_ok;;
  if negb ok then tret false else
  match trades with
  | None => tret false
  | Some arr =>
      if Nat.eqb count 0 then tret false else
      success <- begin_transaction;;
      if negb success then tret false else
      batch_loop arr 0 count
  end.

End Code.

(** The server's tables under the usual transaction semantics: a request
    the server rejects changes nothing; [BEGIN] opens a transaction,
    [COMMIT] makes its rows durable and [ROLLBACK] drops them; an insert
    outside a transaction commits at once.  The state is the committed rows
    of [trades] and the rows of the open transaction, if any. *)
Definition Row : Type := list string.

Definition db_step (db : list Row * option (list Row)) (e : Request * bool)
    : list Row * option (list Row) :=
  let '(committed, pending) := db in
  let '(rq, ok) := e in
  if negb ok then db else
  match rq with
  | Exec sql =>
      if String.eqb sql "BEGIN" then (committed, Some [])
      else if String.eqb sql "COMMIT" then
        match pending with
        | Some rows => (committed ++ rows, None)%list
        | None => (committed, None)
        end
      else if String.eqb sql "ROLLBACK" then (committed, None)
      else db
  | ExecParams sql _ params =>
      if String.eqb sql insert_query then
        match pending with
        | Some rows => (committed, Some (rows ++ [params])%list)
        | None => (committed ++ [params], None)%list
        end
      else db
  end.

Definition db_of (tr : list (Request * bool)) : list Row * option (list Row) :=
  fold_left db_step tr ([], None).

Definition committed (tr : list (Request * bool)) : list Row := fst (db_of tr).

(** The row [insert_trade] sends for a valid trade. *)
Definition trade_row (t : trade_info) : Row :=
  [string_of_long (id t); match name t with Some n => n | None => EmptyString end;
   string_of_long (quantity t); match json_info t with Some j => j | None => EmptyString end].

Definition insert_request (t : trade_info) : Request := ExecParams insert_query insert_types (trade_row t).

(** A connection that stays up, no shutdown signal, and a server that
    accepts [BEGIN], [COMMIT] and [ROLLBACK] and rejects the insert of
    [reject_id]. *)
Definition reject_env (reject_id : string) : Env :=
  mkEnv (fun _ rq => match rq with
                     | ExecParams _ _ (i :: _) => negb (String.eqb i reject_id)
                     | _ => true
                     end)
        (fun _ => true) (fun _ => false).

Definition sample_trades : list (option trade_info) :=
  [Some (mk_trade 1 (Some "Trade1") 1001 (Some "{}"));
   Some (mk_trade 2 (Some "Trade2") 15 (Some "{}"));
   Some (mk_trade 3 (Some "Trade3") 200 (Some "{}"))].

Definition tst0 : TSt := mkTSt [] [] 0.

Definition rejected (e : Request * bool) : Prop := snd e = false.

End Trades.

(** Objects separated by whitespace, as pairs of an object body and the
    whitespace after it. *)
Definition well_formed_items (items : list (list ascii * list ascii)) : Prop :=
  Forall (fun '(b, w) => obj_body b /\ Forall (fun c => is_ws c = true) w) items.

(** Two sample objects: the first holds a string literal made of an
    opening brace, the second a string literal made of an escaped quote
    (backslash, quote). *)
Definition sample_items : list (list ascii * list ascii) :=
  [([quote_char; lbrace; quote_char], [ascii_of_nat 10]);
   ([quote_char; backslash_char; quote_char; quote_char], [])].

(* ------------------------------------------------------------------ *)
(** ** The other test cases of [xtdb_test.c]

    As above, each query fits in its [char query[512]]: the table name has
    at most 36 characters. *)

(** [snprintf(buf, size, ...)] of a text [full]: at most [size - 1] bytes
    are written, then the terminating NUL. *)
Definition snprintf_buf (size : nat) (full : string) : string :=
  match size with
  | O => EmptyString
  | S n => substring 0 n full
  end.

(** [strcat(buf, s)] into [char buf[cap]]: writing past the array is
    undefined behaviour. *)
Definition strcat_cap (cap : nat) (buf s : string) : M string :=
  if Nat.leb cap (String.length buf + String.length s) then crash else ret (buf ++ s).

Definition dq : string := String quote_char EmptyString.

(** [build_transit_string(buf, buf_size, key, value)] (lines 53-55): the
    text written at [buf]. *)
Definition build_transit_string (buf_size : nat) (key value : string) : string :=
  snprintf_buf buf_size (dq ++ "~:" ++ key ++ dq ++ "," ++ value).

(** The map header the two transit cases [strcat] first: a bracket, then the quoted marker "^ " and a comma. *)
Definition transit_map_open : string := "[" ++ dq ++ "^ " ++ dq ++ ",".

(** Writing [build_transit_string] at [buf + strlen(buf)] with
    [sizeof(buf) - strlen(buf)] bytes left. *)
Definition append_transit_string (cap : nat) (buf key value : string) : string :=
  buf ++ build_transit_string (cap - String.length buf) key value.

Section MoreTests.
Variable srv : Server.
Variable fs : string -> option (list ascii).

(** [TEST(connection)] (lines 64-73). *)
Definition test_connection : M unit :=
  res <- PQexec srv "SELECT 1 as test";;
  ASSERT (status_is res PGRES_TUPLES_OK);;
  ASSERT (PQntuples res =? 1);;
  ASSERT_EQ_STR (PQgetvalue res 0 0) "1";;
  PASS.

(** [TEST(insert_and_query)] (lines 75-99). *)
Definition test_insert_and_query (now rnd : Z) : M unit :=
  let table := get_clean_table now rnd in
  res <- PQexec srv ("INSERT INTO " ++ table ++
    " RECORDS {_id: 'test1', value: 'hello'}, {_id: 'test2', value: 'world'}");;
  ASSERT (status_is res PGRES_COMMAND_OK);;
  res <- PQexec srv ("SELECT _id, value FROM " ++ table ++ " ORDER BY _id");;
  ASSERT (status_is res PGRES_TUPLES_OK);;
  ASSERT_EQ_INT (PQntuples res) 2;;
  ASSERT_EQ_STR (PQgetvalue res 0 0) "test1";;
  ASSERT_EQ_STR (PQgetvalue res 0 1) "hello";;
  ASSERT_EQ_STR (PQgetvalue res 1 0) "test2";;
  ASSERT_EQ_STR (PQgetvalue res 1 1) "world";;
  PASS.

(** [TEST(where_clause)] (lines 101-121). *)
Definition test_where_clause (now rnd : Z) : M unit :=
  let table := get_clean_table now rnd in
  res <- PQexec srv ("INSERT INTO " ++ table ++ " (_id, age) VALUES (1, 25), (2, 35), (3, 45)");;
  ASSERT (status_is res PGRES_COMMAND_OK);;
  res <- PQexec srv ("SELECT _id FROM " ++ table ++ " WHERE age > 30 ORDER BY _id");;
  ASSERT (status_is res PGRES_TUPLES_OK);;
  ASSERT_EQ_INT (PQntuples res) 2;;
  PASS.

(** [TEST(count_query)] (lines 123-143). *)
Definition test_count_query (now rnd : Z) : M unit :=
  let table := get_clean_table now rnd in
  res <- PQexec srv ("INSERT INTO " ++ table ++ " RECORDS {_id: 1}, {_id: 2}, {_id: 3}");;
  ASSERT (status_is res PGRES_COMMAND_OK);;
  res <- PQexec srv ("SELECT COUNT(*) as count FROM " ++ table);;
  ASSERT (status_is res PGRES_TUPLES_OK);;
  ASSERT_EQ_STR (PQgetvalue res 0 0) "3";;
  PASS.

(** [TEST(parameterized_query)] (lines 145-168): [paramTypes] is NULL, so
    the parameter's type is left to the server (OID 0). *)
Definition test_parameterized_query (now rnd : Z) : M unit :=
  let table := get_clean_table now rnd in
  res <- PQexec srv ("INSERT INTO " ++ table ++
    " RECORDS {_id: 'param1', name: 'Test User', age: 30}");;
  ASSERT (status_is res PGRES_COMMAND_OK);;
  res <- PQexecParams1 srv ("SELECT _id, name, age FROM " ++ table ++ " WHERE _id = $1") 0 "param1";;
  ASSERT (status_is res PGRES_TUPLES_OK);;
  ASSERT_EQ_STR (PQgetvalue res 0 1) "Test User";;
  ASSERT_EQ_STR (PQgetvalue res 0 2) "30";;
  PASS.

(** [TEST(json_records)] (lines 172-195). *)
Definition test_json_records (now rnd : Z) : M unit :=
  let table := get_clean_table now rnd in
  res <- PQexec srv ("INSERT INTO " ++ table ++
    " RECORDS {_id: 'user1', name: 'Alice', age: 30, active: true}");;
  ASSERT (status_is res PGRES_COMMAND_OK);;
  res <- PQexec srv ("SELECT _id, name, age, active FROM " ++ table ++ " WHERE _id = 'user1'");;
  ASSERT (status_is res PGRES_TUPLES_OK);;
  ASSERT_EQ_STR (PQgetvalue res 0 0) "user1";;
  ASSERT_EQ_STR (PQgetvalue res 0 1) "Alice";;
  ASSERT_EQ_STR (PQgetvalue res 0 2) "30";;
  ASSERT_EQ_STR (PQgetvalue res 0 3) "t";;
  PASS.

(** [TEST(load_sample_json)] (lines 197-237). *)
Definition test_load_sample_json (now rnd : Z) : M unit :=
  let table := get_clean_table now rnd in
  res <- PQexec srv ("INSERT INTO " ++ table ++
    " RECORDS {_id: 'alice', name: 'Alice Smith', age: 30, active: true}");;
  ASSERT (status_is res PGRES_COMMAND_OK);;
  res <- PQexec srv ("INSERT INTO " ++ table ++
    " RECORDS {_id: 'bob', name: 'Bob Jones', age: 25, active: false}");;
  ASSERT (status_is res PGRES_COMMAND_OK);;
  res <- PQexec srv ("INSERT INTO " ++ table ++
    " RECORDS {_id: 'charlie', name: 'Charlie Brown', age: 35, active: true}");;
  ASSERT (status_is res PGRES_COMMAND_OK);;
  res <- PQexec srv ("SELECT _id, name, age, active FROM " ++ table ++ " ORDER BY _id");;
  ASSERT (status_is res PGRES_TUPLES_OK);;
  ASSERT_EQ_INT (PQntuples res) 3;;
  ASSERT_EQ_STR (PQgetvalue res 0 0) "alice";;
  ASSERT_EQ_STR (PQgetvalue res 0 1) "Alice Smith";;
  PASS.

(** The [complex_json] literal of [TEST(nested_data_roundtrip)]. *)
Definition complex_json : string :=
  string_of_list_ascii (with_double_quotes
    ("{'_id': 'nested_test','simple_array': [1, 2, 3],'string_array': ['a', 'b', 'c'],"
     ++ "'nested_object': {'inner_field': 'value','inner_number': 42,'inner_array': ['x', 'y']},"
     ++ "'array_of_objects': [{'id': 1, 'name': 'first'},{'id': 2, 'name': 'second'}]}")).

(** [TEST(nested_data_roundtrip)] (lines 544-608). *)
Definition test_nested_data_roundtrip (now rnd : Z) : M unit :=
  let table := get_clean_table now rnd in
  res <- PQexecParams1 srv ("INSERT INTO " ++ table ++ " RECORDS $1") JSON_OID complex_json;;
  ASSERT (status_is res PGRES_COMMAND_OK);;
  res <- PQexec srv ("SELECT _id, simple_array, string_array, nested_object, array_of_objects FROM "
                     ++ table ++ " WHERE _id = 'nested_test'");;
  ASSERT (status_is res PGRES_TUPLES_OK);;
  ASSERT_EQ_INT (PQntuples res) 1;;
  let simple_array := PQgetvalue res 0 1 in
  b <- strstr simple_array "1";; ASSERT b;;
  b <- strstr simple_array "2";; ASSERT b;;
  b <- strstr simple_array "3";; ASSERT b;;
  let string_array := PQgetvalue res 0 2 in
  b <- strstr string_array "a";; ASSERT b;;
  b <- strstr string_array "b";; ASSERT b;;
  b <- strstr string_array "c";; ASSERT b;;
  let nested_object := PQgetvalue res 0 3 in
  b <- strstr nested_object "inner_field";; ASSERT b;;
  b <- strstr nested_object "value";; ASSERT b;;
  b <- strstr nested_object "42";; ASSERT b;;
  let array_of_objects := PQgetvalue res 0 4 in
  b <- strstr array_of_objects "1";; ASSERT b;;
  b <- strstr array_of_objects "first";; ASSERT b;;
  b <- strstr array_of_objects "second";; ASSERT b;;
  PASS.

(** [TEST(transit_json_format)] (lines 612-643): [char transit_buf[256]]. *)
Definition test_transit_json_format (now rnd : Z) : M unit :=
  let table := get_clean_table now rnd in
  transit_buf <- strcat_cap 256 EmptyString transit_map_open;;
  let transit_buf := append_transit_string 256 transit_buf "_id" (dq ++ "transit1" ++ dq) in
  ASSERT (strstr_found transit_buf "~:");;
  res <- PQexec srv ("INSERT INTO " ++ table ++
    " RECORDS {_id: 'transit1', name: 'Transit User', age: 42, active: true}");;
  ASSERT (status_is res PGRES_COMMAND_OK);;
  res <- PQexec srv ("SELECT _id, name, age FROM " ++ table ++ " WHERE _id = 'transit1'");;
  ASSERT (status_is res PGRES_TUPLES_OK);;
  ASSERT_EQ_STR (PQgetvalue res 0 0) "transit1";;
  ASSERT_EQ_STR (PQgetvalue res 0 1) "Transit User";;
  PASS.

(** [TEST(transit_json_encoding)] (lines 645-669): [char transit_buf[512]]. *)
Definition test_transit_json_encoding : M unit :=
  transit_buf <- strcat_cap 512 EmptyString transit_map_open;;
  let transit_buf := append_transit_string 512 transit_buf "string" (dq ++ "hello" ++ dq) in
  transit_buf <- strcat_cap 512 transit_buf ",";;
  let transit_buf := append_transit_string 512 transit_buf "number" "42" in
  transit_buf <- strcat_cap 512 transit_buf ",";;
  let transit_buf := append_transit_string 512 transit_buf "bool" "true" in
  transit_buf <- strcat_cap 512 transit_buf "]";;
  ASSERT (strstr_found transit_buf "hello");;
  ASSERT (strstr_found transit_buf "42");;
  ASSERT (strstr_found transit_buf "true");;
  ASSERT (strstr_found transit_buf "~:");;
  PASS.

Definition transit_json_copy_sql (table : string) : string :=
  "COPY " ++ table ++ " FROM STDIN WITH (FORMAT 'transit-json')".

Definition alice_copy_columns_sql (table : string) : string :=
  "SELECT _id, name, age, email, active, salary FROM " ++ table ++ " WHERE _id = 'alice'".

(** [TEST(transit_json_copy_from)] (lines 724-789); as in the msgpack case,
    [fread] of the regular fixture returns its whole size. *)
Definition test_transit_json_copy_from (now rnd : Z) : M unit :=
  let table := get_clean_table now rnd in
  ASSERT (is_some (fs sample_users_transit));;
  let json_data := contents fs sample_users_transit in
  let file_size := Z.of_nat (List.length json_data) in
  let bytes_read := file_size in
  ASSERT (bytes_read =? file_size);;
  res <- PQexec srv (transit_json_copy_sql table);;
  ASSERT (status_is res PGRES_COPY_IN);;
  result <- PQputCopyData srv json_data;;
  ASSERT (result =? 1);;
  result <- PQputCopyEnd srv;;
  ASSERT (result =? 1);;
  res <- PQgetResult srv;;
  ASSERT (status_is res PGRES_COMMAND_OK);;
  res <- PQexec srv (count_sql table);;
  ASSERT (status_is res PGRES_TUPLES_OK);;
  ASSERT_EQ_STR (PQgetvalue res 0 0) "3";;
  res <- PQexec srv (alice_copy_columns_sql table);;
  ASSERT (status_is res PGRES_TUPLES_OK);;
  ASSERT (PQntuples res =? 1);;
  ASSERT_EQ_STR (PQgetvalue res 0 0) "alice";;
  ASSERT_EQ_STR (PQgetvalue res 0 1) "Alice Smith";;
  ASSERT_EQ_STR (PQgetvalue res 0 2) "30";;
  ASSERT_EQ_STR (PQgetvalue res 0 3) "alice@example.com";;
  ASSERT_EQ_STR (PQgetvalue res 0 4) "t";;
  ASSERT_EQ_STR (PQgetvalue res 0 5) "125000.5";;
  PASS.

(** The fifteen [RUN_TEST]s of [main] (lines 807-821), in order; [clock i]
    is what [time(NULL)] and [rand()] return in the [i]-th case's call of
    [get_clean_table]. *)
Definition all_cases (clock : nat -> Z * Z) : list (M unit) :=
  [test_connection;
   test_insert_and_query (fst (clock 1%nat)) (snd (clock 1%nat));
   test_where_clause (fst (clock 2%nat)) (snd (clock 2%nat));
   test_count_query (fst (clock 3%nat)) (snd (clock 3%nat));
   test_parameterized_query (fst (clock 4%nat)) (snd (clock 4%nat));
   test_json_records (fst (clock 5%nat)) (snd (clock 5%nat));
   test_load_sample_json (fst (clock 6%nat)) (snd (clock 6%nat));
   test_json_with_oid srv fs (fst (clock 7%nat)) (snd (clock 7%nat));
   test_transit_with_oid srv fs (fst (clock 8%nat)) (snd (clock 8%nat));
   test_transit_nest_one_full_record srv fs (fst (clock 9%nat)) (snd (clock 9%nat));
   test_nested_data_roundtrip (fst (clock 10%nat)) (snd (clock 10%nat));
   test_transit_json_format (fst (clock 11%nat)) (snd (clock 11%nat));
   test_transit_json_encoding;
   test_transit_msgpack_copy_from srv fs (fst (clock 13%nat)) (snd (clock 13%nat));
   test_transit_json_copy_from (fst (clock 14%nat)) (snd (clock 14%nat))].

(** [main] (lines 791-837): if the connection is not [CONNECTION_OK] it
    returns 1 before any case runs; otherwise it runs the cases with both
    counters at 0 and returns [tests_failed > 0 ? 1 : 0].  [None] is a run
    cut short by undefined behaviour. *)
Definition xtdb_main (connection_ok : bool) (clock : nat -> Z * Z) : option Z * St :=
  if negb connection_ok then (Some 1, mkSt 0 0 [])
  else match run_tests (all_cases clock) (mkSt 0 0 []) with
       | (true, s) => (None, s)
       | (false, s) => (Some (exit_code s), s)
       end.

End MoreTests.

(* ------------------------------------------------------------------ *)
(** ** A server with empty replies *)

(** A server that accepts every command and answers every [SELECT] with no
    rows. *)
Definition empty_select_reply (rq : Request) : PGresult :=
  match rq with
  | Exec sql | ExecParams sql _ _ =>
      if String.prefix "SELECT" sql then mkResult PGRES_TUPLES_OK []
      else mkResult PGRES_COMMAND_OK []
  | _ => mkResult PGRES_COMMAND_OK []
  end.

(* ------------------------------------------------------------------ *)
(** ** The rest of [trades.c]: logging, options, connection, trades *)
Module TradesCli.
Import Trades.

Local Notation "x <- m ;; k" := (tbind m (fun x => k))
  (at level 61, m at next level, right associativity).
Local Notation "m ;; k" := (tbind m (fun _ => k)) (at level 61, right associativity).

Definition nl : string := String newline EmptyString.

(** [log_level_t] (lines 26-32), with its enumerator values. *)
Inductive log_level_t := LOG_ERROR | LOG_WARN | LOG_INFO | LOG_DEBUG.

Definition level_value (l : log_level_t) : nat :=
  match l with LOG_ERROR => 0 | LOG_WARN => 1 | LOG_INFO => 2 | LOG_DEBUG => 3 end.

Definition level_str (l : log_level_t) : string :=
  match l with
  | LOG_ERROR => "ERROR" | LOG_WARN => "WARN" | LOG_INFO => "INFO" | LOG_DEBUG => "DEBUG"
  end.

Inductive stream := stdout | stderr.

Definition LOG_BUF_SIZE : nat := 2048.

Definition overflow_notice : string := "[ERROR] Log buffer overflow" ++ nl.
Definition truncated_notice : string := "[ERROR] Log message truncated" ++ nl.

(** [log_message(level, format, ...)] (lines 79-133), as the list of
    writes it makes.  [ctime_text] is what [ctime_r] stores in
    [char timestamp[26]] (at most 25 characters and the NUL), of which the
    code keeps the first 24; [text] is the message [vsnprintf] formats, and
    [String.length text] the value it returns. *)
Definition log_message (current_log_level level : log_level_t) (ctime_text text : string)
    : list (stream * string) :=
  if Nat.ltb (level_value current_log_level) (level_value level) then [] else
  let timestamp := substring 0 24 ctime_text in
  let header := "[" ++ timestamp ++ "] [" ++ level_str level ++ "] " in
  let header_len := String.length header in
  if Nat.leb LOG_BUF_SIZE header_len then [(stderr, overflow_notice)] else
  let log_buf := header ++ snprintf_buf (LOG_BUF_SIZE - header_len) text in
  let msg_len := String.length text in
  let output := match level with LOG_ERROR | LOG_WARN => stderr | _ => stdout end in
  ((if Nat.leb LOG_BUF_SIZE (header_len + msg_len)
    then [(stderr, truncated_notice)] else []) ++
   [(output, log_buf)])%list.

(** The options [main] collects (lines 466-470, 491-529). *)
Record options := mk_options {
  host : option string;
  port : option string;
  dbname : option string;
  user : option string;
  password : option string;
  current_log_level : log_level_t
}.

Definition initial_options : options := mk_options None None None None None LOG_INFO.

Definition EXIT_SUCCESS : Z := 0.
Definition EXIT_DB_CONNECTION_ERROR : Z := 1.
Definition EXIT_QUERY_ERROR : Z := 2.
Definition EXIT_MEMORY_ERROR : Z := 4.
Definition EXIT_INVALID_ARGS : Z := 5.

Definition level_up (l : log_level_t) : log_level_t :=
  match l with LOG_ERROR => LOG_WARN | LOG_WARN => LOG_INFO | _ => LOG_DEBUG end.

Definition level_down (l : log_level_t) : log_level_t :=
  match l with LOG_DEBUG => LOG_INFO | LOG_INFO => LOG_WARN | _ => LOG_ERROR end.

(** The [while (getopt_long(...) != -1)] loop over the values [getopt_long]
    returns, each with the [optarg] it sets; [inl code] is a [return code]
    out of [main]. *)
Fixpoint parse_options (opts : list (ascii * string)) (o : options) : Z + options :=
  match opts with
  | [] => inr o
  | (c, optarg) :: rest =>
      if Ascii.eqb c "h" then parse_options rest
        (mk_options (Some optarg) (port o) (dbname o) (user o) (password o) (current_log_level o))
      else if Ascii.eqb c "p" then parse_options rest
        (mk_options (host o) (Some optarg) (dbname o) (user o) (password o) (current_log_level o))
      else if Ascii.eqb c "d" then parse_options rest
        (mk_options (host o) (port o) (Some optarg) (user o) (password o) (current_log_level o))
      else if Ascii.eqb c "u" then parse_options rest
        (mk_options (host o) (port o) (dbname o) (Some optarg) (password o) (current_log_level o))
      else if Ascii.eqb c "w" then parse_options rest
        (mk_options (host o) (port o) (dbname o) (user o) (Some optarg) (current_log_level o))
      else if Ascii.eqb c "v" then parse_options rest
        (mk_options (host o) (port o) (dbname o) (user o) (password o)
           (if Nat.ltb (level_value (current_log_level o)) (level_value LOG_DEBUG)
            then level_up (current_log_level o) else current_log_level o))
      else if Ascii.eqb c "q" then parse_options rest
        (mk_options (host o) (port o) (dbname o) (user o) (password o)
           (if Nat.ltb (level_value LOG_ERROR) (level_value (current_log_level o))
            then level_down (current_log_level o) else current_log_level o))
      else if Ascii.eqb c "?" then inl EXIT_SUCCESS
      else inl EXIT_INVALID_ARGS
  end.

(** The characters of the option string ["h:p:d:u:w:vq?"]. *)
Definition optstring_chars : list ascii := ["h"; "p"; "d"; "u"; "w"; "v"; "q"; "?"]%char.

Definition CONNECTION_STRING_SIZE : nat := 1024.

Definition DEFAULT_DB_PARAMS : string := "host=localhost port=5432 dbname=xtdb".

(** [pos += snprintf(connection_string + pos, sizeof(connection_string) - pos, ...)]
    for one option that is set: the text held by the buffer and [pos].
    Past [pos = 1024] the pointer lies beyond the array and the size wraps
    around: undefined behaviour ([None]).  While [pos < 1024] the buffer holds
    exactly [pos] bytes, so the text goes at its end. *)
Definition append_option (acc : option (string * nat)) (fragment : option string)
    : option (string * nat) :=
  match acc, fragment with
  | None, _ => None
  | Some st, None => Some st
  | Some (buf, pos), Some f =>
      if Nat.leb pos CONNECTION_STRING_SIZE
      then Some (buf ++ snprintf_buf (CONNECTION_STRING_SIZE - pos) f, pos + String.length f)%nat
      else None
  end.

Definition option_fragment (key : string) (v : option string) : option string :=
  match v with Some s => Some (key ++ "=" ++ s ++ " ") | None => None end.

Definition fragments (o : options) : list (option string) :=
  [option_fragment "host" (host o); option_fragment "port" (port o);
   option_fragment "dbname" (dbname o); option_fragment "user" (user o);
   option_fragment "password" (password o)].

(** The connection string [main] builds (lines 531-569); [strncpy] of the
    default copies at most 1023 bytes. *)
Definition build_connection_string (o : options) : option string :=
  match fold_left append_option (fragments o) (Some (EmptyString, 0%nat)) with
  | None => None
  | Some (buf, pos) =>
      if Nat.eqb pos 0 then Some (substring 0 (CONNECTION_STRING_SIZE - 1) DEFAULT_DB_PARAMS)
      else Some buf
  end.

(** [global_conn] and the connections [PQconnectdb] has opened and
    [PQfinish] not yet closed; [status_ok n cs] is whether the [n]-th
    connection, opened with [cs], reaches [CONNECTION_OK].  Log output is left
    out. *)
Record conn_state := mk_conn_state {
  global_conn : option nat;
  open_conns : list nat;
  next_conn : nat
}.

Definition PQfinish (c : nat) (st : conn_state) : conn_state :=
  mk_conn_state (global_conn st) (remove Nat.eq_dec c (open_conns st)) (next_conn st).

Definition PQconnectdb (st : conn_state) : nat * conn_state :=
  (next_conn st, mk_conn_state (global_conn st) (next_conn st :: open_conns st) (S (next_conn st))).

(** [disconnect_db] (lines 194-202). *)
Definition disconnect_db (st : conn_state) : conn_state :=
  match global_conn st with
  | Some c => let st1 := PQfinish c st in
              mk_conn_state None (open_conns st1) (next_conn st1)
  | None => st
  end.

(** [cleanup] (lines 159-163), run by [atexit]. *)
Definition cleanup (st : conn_state) : conn_state := disconnect_db st.

Section Connect.
Variable status_ok : nat -> string -> bool.

(** [connect_db] (lines 171-192). *)
Definition connect_db (connection_string : string) (st : conn_state) : bool * conn_state :=
  let st1 := match global_conn st with Some _ => disconnect_db st | None => st end in
  let '(c, st2) := PQconnectdb st1 in
  let st3 := mk_conn_state (Some c) (open_conns st2) (next_conn st2) in
  if negb (status_ok c connection_string) then
    let st4 := PQfinish c st3 in
    (false, mk_conn_state None (open_conns st4) (next_conn st4))
  else (true, st3).

End Connect.

(** The blocks [malloc] has handed out and not yet freed, and the number of
    [malloc] calls so far; [malloc_ok n] is whether the [n]-th call
    succeeds. *)
Record heap := mk_heap { blocks : list nat; mallocs : nat }.

Section Heap.
Variable malloc_ok : nat -> bool.

Definition malloc (h : heap) : option nat * heap :=
  if malloc_ok (mallocs h)
  then (Some (mallocs h), mk_heap (mallocs h :: blocks h) (S (mallocs h)))
  else (None, mk_heap (blocks h) (S (mallocs h))).

(** [strdup] allocates with [malloc]. *)
Definition strdup (h : heap) : option nat * heap := malloc h.

Definition free (b : nat) (h : heap) : heap :=
  mk_heap (remove Nat.eq_dec b (blocks h)) (mallocs h).

(** A [trade_info *]: the trade and its three blocks (the struct, the copy
    of the name, the copy of the JSON text); [None] is NULL. *)
Definition trade_ptr : Type := option (trade_info * (nat * nat * nat)).

(** [trade_create] (lines 267-303). *)
Definition trade_create (id : Z) (name : option string) (quantity : Z)
    (json_info : option string) (h : heap) : trade_ptr * heap :=
  match name, json_info with
  | Some n, Some j =>
      match malloc h with
      | (None, h1) => (None, h1)
      | (Some b, h1) =>
          match strdup h1 with
          | (None, h2) => (None, free b h2)
          | (Some bn, h2) =>
              match strdup h2 with
              | (None, h3) => (None, free b (free bn h3))
              | (Some bj, h3) => (Some (mk_trade id (Some n) quantity (Some j), (b, bn, bj)), h3)
              end
          end
      end
  | _, _ => (None, h)
  end.

(** [trade_destroy] (lines 305-313). *)
Definition trade_destroy (t : trade_ptr) (h : heap) : heap :=
  match t with
  | Some (_, (b, bn, bj)) => free b (free bj (free bn h))
  | None => h
  end.

End Heap.

(** [get_trades_over_quantity] (lines 414-461).  A successful [SELECT]
    gives [PGRES_TUPLES_OK]; [ntuples h] is the row count of the result with
    handle [h]; reading a cell of a live result is defined and only logged. *)
Section Query.
Variable env : Env.
Variable ntuples : nat -> nat.

Definition select_query : string :=
  "SELECT _id, name, quantity, info FROM trades WHERE quantity > $1".

Definition PQntuples (r : PGresult) : TM nat :=
  fun s => if is_live (res_handle r) s then (TDone (ntuples (res_handle r)), s) else (TCrashed, s).

Definition PQgetvalue (r : PGresult) (row col : nat) : TM unit :=
  fun s => if is_live (res_handle r) s then (TDone tt, s) else (TCrashed, s).

Fixpoint log_rows (res : PGresult) (i rem : nat) : TM unit :=
  match rem with
  | O => tret tt
  | S rem' =>
      PQgetvalue res i 0;; PQgetvalue res i 1;; PQgetvalue res i 2;; PQgetvalue res i 3;;
      log_rows res (S i) rem'
  end.

Definition get_trades_over_quantity (quantity_threshold : Z) : TM unit :=
  ok <- PQstatus_ok env;;
  if negb ok then tret tt else
  if quantity_threshold <? 0 then tret tt else
  let quantity_str := string_of_long quantity_threshold in
  if Nat.leb MAX_INT_STR_LEN (String.length quantity_str) then tret tt else
  res <- PQexecParams env select_query [23] [quantity_str];;
  st <- PQresultStatus_ok res;;
  if negb st then (handle_db_error res;; PQclear res;; tret tt) else
  rows <- PQntuples res;;
  log_rows res 0 rows;;
  PQclear res.

End Query.

(** The JSON texts of the sample trades (lines 578-580). *)
Definition trade1_json : string :=
  "{" ++ dq ++ "some_nested" ++ dq ++ ": [" ++ dq ++ "json" ++ dq ++ ", 42, {" ++ dq ++ "data" ++ dq
  ++ ": [" ++ dq ++ "hello" ++ dq ++ "]}]}".

Definition trade2_json : string := "{" ++ dq ++ "value" ++ dq ++ ": 2}".

Definition trade3_json : string := "{" ++ dq ++ "value" ++ dq ++ ": 3}".

(** How [main] ends: [return code] (and the [atexit] handler), or undefined
    behaviour (a double [PQclear], or a write past [connection_string]). *)
Inductive main_outcome := MExit (code : Z) | MUndefined.

(** The program state [main] acts on: [global_conn] and the libpq
    connections, the heap, and the server session. *)
Record main_state := mk_main_state { mconn : conn_state; mheap : heap; mdb : TSt }.

(** [main] (lines 463-622), from the option loop on; [opts] are the values
    [getopt_long] returns with their [optarg].  Every [return] runs the
    [atexit] handler [cleanup]; the log output is left out.  [status_ok],
    [malloc_ok], [env] and [ntuples] are libpq, the allocator and the
    server, as in the functions [main] calls. *)
Definition trades_main (status_ok : nat -> string -> bool) (malloc_ok : nat -> bool) (env : Env)
    (ntuples : nat -> nat) (opts : list (ascii * string)) (st : main_state)
    : main_outcome * main_state :=
  let exit_with code c h d := (MExit code, mk_main_state (cleanup c) h d) in
  match parse_options opts initial_options with
  | inl code => exit_with code (mconn st) (mheap st) (mdb st)
  | inr o =>
      match build_connection_string o with
      | None => (MUndefined, st)
      | Some connection_string =>
          let '(connected, c1) := connect_db status_ok connection_string (mconn st) in
          if negb connected then exit_with EXIT_DB_CONNECTION_ERROR c1 (mheap st) (mdb st) else
          let '(t0, h1) := trade_create malloc_ok 1 (Some "Trade1") 1001 (Some trade1_json) (mheap st) in
          let '(t1, h2) := trade_create malloc_ok 2 (Some "Trade2") 15 (Some trade2_json) h1 in
          let '(t2, h3) := trade_create malloc_ok 3 (Some "Trade3") 200 (Some trade3_json) h2 in
          let destroy_all h := trade_destroy t2 (trade_destroy t1 (trade_destroy t0 h)) in
          if is_some t0 && is_some t1 && is_some t2 then
            match insert_trades_batch env (Some (map (option_map fst) [t0; t1; t2])) 3 (mdb st) with
            | (TCrashed, d1) => (MUndefined, mk_main_state c1 h3 d1)
            | (TDone false, d1) => exit_with EXIT_QUERY_ERROR c1 (destroy_all h3) d1
            | (TDone true, d1) =>
                match get_trades_over_quantity env ntuples 100 d1 with
                | (TCrashed, d2) => (MUndefined, mk_main_state c1 h3 d2)
                | (TDone _, d2) => exit_with EXIT_SUCCESS c1 (destroy_all h3) d2
                end
            end
          else exit_with EXIT_MEMORY_ERROR c1 (destroy_all h3) (mdb st)
      end
  end.

(** The text of the fragments of the options set, in order. *)
Definition frag_text (fs : list (option string)) : string :=
  fold_right (fun f acc => match f with Some s => s ++ acc | None => acc end) EmptyString fs.

(** [global_conn] is the only connection open, if any. *)
Definition conn_inv (st : conn_state) : Prop :=
  open_conns st = match global_conn st with Some c => [c] | None => [] end.

End TradesCli.

(* ================================================================== *)
(** * Proofs *)

(** ** Decimal rendering *)

Lemma string_of_long_inj (a b : Z) :
  string_of_long a = string_of_long b -> a = b.
Proof.
  unfold string_of_long; intros H.
  assert (Hi : Z.to_int a = Z.to_int b).
  { apply (f_equal NilEmpty.int_of_string) in H.
    rewrite !NilEmpty.isi in H; congruence. }
  rewrite <- (DecimalZ.of_to a), <- (DecimalZ.of_to b), Hi; reflexivity.
Qed.

Lemma uint_no_underscore (d : Decimal.uint) :
  ~ In "_"%char (list_ascii_of_string (NilEmpty.string_of_uint d)).
Proof.
  induction d; simpl; [tauto | ..];
    intros [H | H]; [discriminate | tauto | discriminate | tauto | discriminate | tauto
                    | discriminate | tauto | discriminate | tauto | discriminate | tauto
                    | discriminate | tauto | discriminate | tauto | discriminate | tauto
                    | discriminate | tauto].
Qed.

Lemma string_of_long_no_underscore (z : Z) :
  ~ In "_"%char (list_ascii_of_string (string_of_long z)).
Proof.
  unfold string_of_long, NilEmpty.string_of_int.
  destruct (Z.to_int z) as [d | d]; simpl.
  - apply uint_no_underscore.
  - intros [H | H]; [discriminate | exact (uint_no_underscore d H)].
Qed.

Lemma append_sep_inj (a1 a2 b1 b2 : string) :
  ~ In "_"%char (list_ascii_of_string a1) ->
  ~ In "_"%char (list_ascii_of_string a2) ->
  a1 ++ "_" ++ b1 = a2 ++ "_" ++ b2 -> a1 = a2 /\ b1 = b2.
Proof.
  revert a2; induction a1 as [|c1 a1 IH]; intros [|c2 a2] H1 H2 H; simpl in *.
  - injection H; auto.
  - injection H as Hc _; subst; tauto.
  - injection H as Hc _; subst; tauto.
  - injection H as Hc H; subst.
    destruct (IH a2) as [-> ->]; auto.
Qed.

Lemma append_cancel_l (p a b : string) : p ++ a = p ++ b -> a = b.
Proof.
  induction p as [|c p IH]; simpl; [auto | intros H; injection H; auto].
Qed.

Lemma rem_10000_range (r : Z) : 0 <= r -> 0 <= Z.rem r 10000 < 10000.
Proof.
  intros Hr; rewrite Z.rem_mod_nonneg by lia.
  apply Z.mod_pos_bound; lia.
Qed.

Lemma small_decimal_length_table :
  forallb (fun n => let l := String.length (string_of_long (Z.of_nat n)) in
                    (1 <=? l)%nat && (l <=? 4)%nat) (seq 0 10000) = true.
Proof. vm_compute; reflexivity. Qed.

Lemma small_decimal_length (z : Z) :
  0 <= z < 10000 -> (1 <= String.length (string_of_long z) <= 4)%nat.
Proof.
  intros Hz.
  pose proof small_decimal_length_table as T.
  rewrite forallb_forall in T.
  specialize (T (Z.to_nat z)).
  rewrite Z2Nat.id in T by lia.
  assert (Hin : In (Z.to_nat z) (seq 0 10000)).
  { apply in_seq; split; [lia|].
    change (0 + 10000)%nat with (Z.to_nat 10000).
    apply Z2Nat.inj_lt; lia. }
  specialize (T Hin); cbv zeta in T.
  apply andb_true_iff in T as [T1 T2].
  apply Nat.leb_le in T1; apply Nat.leb_le in T2; lia.
Qed.

(** ** Fresh-Table Namer *)

Lemma get_clean_table_fields (now1 now2 r1 r2 : Z) :
  get_clean_table now1 r1 = get_clean_table now2 r2 <->
  now1 = now2 /\ Z.rem r1 10000 = Z.rem r2 10000.
Proof.
  unfold get_clean_table; split.
  - intros H; apply append_cancel_l in H.
    apply append_sep_inj in H as [Ht Hr];
      [| apply string_of_long_no_underscore ..].
    split; apply string_of_long_inj; assumption.
  - intros [-> ->]; reflexivity.
Qed.

(** C7 (counterexample): two invocations in the same second whose [rand()]
    results differ but agree modulo 10000 (here 42 and 10042) produce the
    same table name. *)
Lemma get_clean_table_collision :
  (1700000000, 42) <> (1700000000, 10042) /\
  get_clean_table 1700000000 42 = get_clean_table 1700000000 10042.
Proof. split; [discriminate | vm_compute; reflexivity]. Qed.

(** C7 (amended): the names of two calls are equal exactly when the calls
    read the same [time(NULL)] value and [rand()] values with the same
    remainder modulo 10000; nothing else keeps names apart. *)
Theorem get_clean_table_equal_iff (now1 now2 r1 r2 : Z) :
  get_clean_table now1 r1 = get_clean_table now2 r2 <->
  now1 = now2 /\ Z.rem r1 10000 = Z.rem r2 10000.
Proof. apply get_clean_table_fields. Qed.

(** C8 (counterexample): the suffix is [rand() % 10000] printed with [%d],
    so [rand() = 42] gives the two-digit suffix [42], not four digits. *)
Lemma get_clean_table_short_suffix :
  ~ (forall now rnd, 0 <= rnd <= RAND_MAX ->
       exists d, get_clean_table now rnd =
                 "test_table_" ++ string_of_long now ++ "_" ++ d /\
                 String.length d = 4%nat).
Proof.
  intros H.
  destruct (H 1700000000 42) as [d [Hd Hl]]; [unfold RAND_MAX; lia |].
  unfold get_clean_table in Hd.
  do 2 apply append_cancel_l in Hd.
  change ("_" ++ string_of_long (Z.rem 42 10000)) with ("_" ++ "42") in Hd.
  apply append_cancel_l in Hd; subst d; discriminate.
Qed.

(** C8 (amended): every call returns [test_table_<secs>_<r>] where [<secs>]
    is [time(NULL)] printed in decimal and [<r>] is [rand() % 10000], a
    number in [0, 9999] printed in decimal without padding, i.e. with one to
    four digits. *)
Theorem get_clean_table_shape (now rnd : Z) :
  0 <= rnd <= RAND_MAX ->
  exists r, get_clean_table now rnd =
            "test_table_" ++ string_of_long now ++ "_" ++ string_of_long r /\
            r = rnd mod 10000 /\ 0 <= r < 10000 /\
            (1 <= String.length (string_of_long r) <= 4)%nat.
Proof.
  intros Hr; exists (Z.rem rnd 10000).
  pose proof (rem_10000_range rnd ltac:(lia)) as Hrange.
  split; [reflexivity |]; split; [apply Z.rem_mod_nonneg; lia |].
  split; [exact Hrange | apply small_decimal_length; exact Hrange].
Qed.

Lemma get_clean_table_shape_witness :
  0 <= 42 <= RAND_MAX /\
  exists r, get_clean_table 1700000000 42 =
            "test_table_" ++ string_of_long 1700000000 ++ "_" ++ string_of_long r /\
            r = 42 mod 10000 /\ 0 <= r < 10000 /\
            (1 <= String.length (string_of_long r) <= 4)%nat.
Proof.
  split; [unfold RAND_MAX; lia |].
  apply (get_clean_table_shape 1700000000 42); unfold RAND_MAX; lia.
Defined.

(** ** JSON Object Splitter *)

Lemma split_scan_app (i : Z) (s : split_state) (xs ys : list ascii) :
  split_scan i s (xs ++ ys)%list =
  let '(s1, a) := split_scan i s xs in
  let '(s2, b) := split_scan (i + Z.of_nat (List.length xs)) s1 ys in
  (s2, a ++ b)%list.
Proof.
  revert i s; induction xs as [|c xs IH]; intros i s; simpl.
  - rewrite Z.add_0_r; destruct (split_scan i s ys); reflexivity.
  - destruct (split_step i c s) as [s1 o].
    rewrite IH.
    destruct (split_scan (i + 1) s1 xs) as [s2 a].
    replace (i + 1 + Z.of_nat (List.length xs)) with (i + Z.pos (Pos.of_succ_nat (List.length xs))) by lia.
    destruct (split_scan _ s2 ys) as [s3 b].
    rewrite app_assoc; reflexivity.
Qed.

Ltac ascii_neq :=
  repeat match goal with
  | H : ?c <> ?d |- context [Ascii.eqb ?c ?d] =>
      rewrite (proj2 (Ascii.eqb_neq c d) H)
  end.

Lemma str_body_scan (t : list ascii) :
  str_body t -> forall i d st,
  split_scan i (mkSplit d st true false) t = (mkSplit d st true false, []).
Proof.
  induction 1 as [| c t Hq Hb Ht IH | c t Ht IH]; intros i d st; simpl.
  - reflexivity.
  - unfold split_step; simpl; ascii_neq; simpl.
    rewrite IH; reflexivity.
  - rewrite IH; reflexivity.
Qed.

Lemma obj_body_scan (b : list ascii) :
  obj_body b -> forall i d st, 1 <= d ->
  split_scan i (mkSplit d st false false) b = (mkSplit d st false false, []).
Proof.
  induction 1 as [| c t Hl Hr Hq Ht IH | s t Hs Ht IH | b t Hb IHb Ht IHt];
    intros i d st Hd; simpl.
  - reflexivity.
  - unfold split_step; simpl; ascii_neq; simpl.
    rewrite Bool.andb_false_r; rewrite IH by exact Hd; reflexivity.
  - rewrite split_scan_app, (str_body_scan s Hs); simpl.
    rewrite IH by exact Hd; reflexivity.
  - rewrite split_scan_app.
    destruct (Z.eqb_spec d 0) as [E0 | E0]; [lia |].
    rewrite (IHb (i + 1) (d + 1) st) by lia; simpl.
    unfold split_step at 1; simpl.
    replace (d + 1 - 1) with d by lia.
    destruct (Z.eqb_spec d 0) as [E | E]; [lia |]; simpl.
    rewrite IHt by exact Hd; reflexivity.
Qed.

Lemma ws_scan (w : list ascii) (i : Z) :
  Forall (fun c => is_ws c = true) w ->
  split_scan i split_init w = (split_init, []).
Proof.
  intros Hw; revert i; induction Hw as [| c w Hc Hw IH]; intros i; simpl; [reflexivity |].
  unfold is_ws in Hc.
  destruct (Ascii.eqb_spec c " "); [subst; simpl; rewrite IH; reflexivity |].
  destruct (Ascii.eqb_spec c (ascii_of_nat 9)); [subst; simpl; rewrite IH; reflexivity |].
  destruct (Ascii.eqb_spec c (ascii_of_nat 10)); [subst; simpl; rewrite IH; reflexivity |].
  destruct (Ascii.eqb_spec c (ascii_of_nat 13));
    [subst; simpl; rewrite IH; reflexivity | discriminate].
Qed.

Lemma braced_scan (b : list ascii) (i : Z) :
  obj_body b -> 0 <= i ->
  split_scan i split_init (braced b) = (split_init, [(i, Z.of_nat (List.length b) + 2)]).
Proof.
  intros Hb Hi; unfold braced.
  change (lbrace :: b ++ [rbrace])%list with ([lbrace] ++ b ++ [rbrace])%list.
  rewrite split_scan_app; simpl.
  rewrite split_scan_app.
  rewrite (obj_body_scan b Hb (i + 1) 1 i) by lia; simpl.
  unfold split_step; simpl.
  replace (Z.leb 0 i) with true by (symmetry; apply Z.leb_le; lia); simpl.
  do 3 f_equal; lia.
Qed.

Lemma items_scan (items : list (list ascii * list ascii)) (i : Z) :
  well_formed_items items -> 0 <= i ->
  split_scan i split_init (List.concat (map (fun '(b, w) => braced b ++ w) items))%list
  = (split_init, object_positions i items).
Proof.
  intros Hit; revert i; induction Hit as [| [b w] items [Hb Hw] Hit IH]; intros i Hi;
    cbn [List.concat map object_positions]; [reflexivity |].
  rewrite !split_scan_app, (braced_scan b i Hb Hi).
  rewrite (ws_scan w _ Hw).
  rewrite IH.
  - unfold braced; simpl.
    do 3 f_equal.
    rewrite Zpos_P_of_succ_nat, !length_app; simpl; lia.
  - rewrite length_app; lia.
Qed.

Lemma file_scan (ws0 : list ascii) (items : list (list ascii * list ascii)) :
  Forall (fun c => is_ws c = true) ws0 -> well_formed_items items ->
  split_scan 0 split_init (objects_file ws0 items)
  = (split_init, object_positions (Z.of_nat (List.length ws0)) items).
Proof.
  intros Hws Hit; unfold objects_file.
  rewrite split_scan_app, (ws_scan ws0 0 Hws); simpl.
  rewrite items_scan by (auto; lia); reflexivity.
Qed.

Lemma skipn_length_app {A} (pre x : list A) : skipn (List.length pre) (pre ++ x) = x.
Proof. induction pre; simpl; auto. Qed.

Lemma firstn_length_app {A} (x y : list A) : firstn (List.length x) (x ++ y) = x.
Proof. induction x; simpl; f_equal; auto. Qed.

Lemma items_slices (pre suf : list ascii) (items : list (list ascii * list ascii)) :
  map (span_bytes (pre ++ List.concat (map (fun '(b, w) => braced b ++ w) items) ++ suf)%list)
      (object_positions (Z.of_nat (List.length pre)) items)
  = map (fun '(b, _) => braced b) items.
Proof.
  revert pre; induction items as [| [b w] items IH]; intros pre;
    cbn [List.concat map object_positions]; [reflexivity |].
  f_equal.
  - unfold span_bytes; cbn [fst snd].
    rewrite Nat2Z.id, skipn_length_app.
    replace (Z.to_nat (Z.of_nat (List.length b) + 2)) with (List.length (braced b))
      by (unfold braced; simpl; rewrite length_app; simpl; lia).
    rewrite <- !app_assoc, firstn_length_app; reflexivity.
  - specialize (IH (pre ++ braced b ++ w)%list).
    rewrite !length_app in IH.
    replace (Z.of_nat (List.length pre) + Z.of_nat (List.length b) + 2
             + Z.of_nat (List.length w))
      with (Z.of_nat (List.length pre + (List.length (braced b) + List.length w)))
      by (unfold braced; simpl; rewrite length_app; simpl; lia).
    rewrite <- !app_assoc in IH |- *; exact IH.
Qed.

Lemma json_object_spans_file (ws0 : list ascii) (items : list (list ascii * list ascii)) :
  Forall (fun c => is_ws c = true) ws0 -> well_formed_items items ->
  json_object_spans (objects_file ws0 items)
  = object_positions (Z.of_nat (List.length ws0)) items.
Proof. intros Hws Hit; unfold json_object_spans; rewrite file_scan by assumption; reflexivity. Qed.

Lemma json_object_slices_file (ws0 : list ascii) (items : list (list ascii * list ascii)) :
  Forall (fun c => is_ws c = true) ws0 -> well_formed_items items ->
  map (span_bytes (objects_file ws0 items)) (json_object_spans (objects_file ws0 items))
  = map (fun '(b, _) => braced b) items.
Proof.
  intros Hws Hit; rewrite json_object_spans_file by assumption.
  pose proof (items_slices ws0 [] items) as E.
  rewrite app_nil_r in E; exact E.
Qed.

(** C4: on a file made of whitespace and top-level objects (whose string
    literals may contain braces and backslash escapes, escaped quotes
    included), the splitter yields one span per object, in order: the span
    starts at the object's opening brace and covers it through its matching
    closing brace, and the bytes it designates are exactly the object; the
    empty file yields no span. *)
Theorem json_object_spans_objects (ws0 : list ascii) (items : list (list ascii * list ascii)) :
  Forall (fun c => is_ws c = true) ws0 -> well_formed_items items ->
  json_object_spans (objects_file ws0 items)
    = object_positions (Z.of_nat (List.length ws0)) items /\
  map (span_bytes (objects_file ws0 items)) (json_object_spans (objects_file ws0 items))
    = map (fun '(b, _) => braced b) items /\
  json_object_spans [] = [].
Proof.
  intros Hws Hit; split; [| split].
  - apply json_object_spans_file; assumption.
  - apply json_object_slices_file; assumption.
  - reflexivity.
Qed.

Lemma sample_items_well_formed : well_formed_items sample_items.
Proof.
  constructor; [split | constructor; [split | constructor]].
  - exact (body_string [lbrace] [] (str_char lbrace [] ltac:(discriminate)
            ltac:(discriminate) str_nil) body_nil).
  - repeat constructor.
  - exact (body_string [backslash_char; quote_char] []
            (str_escape quote_char [] str_nil) body_nil).
  - constructor.
Qed.

Lemma json_object_spans_objects_witness :
  (Forall (fun c => is_ws c = true) [" "%char] /\ well_formed_items sample_items) /\
  json_object_spans (objects_file [" "%char] sample_items)
    = object_positions (Z.of_nat (List.length [" "%char])) sample_items /\
  map (span_bytes (objects_file [" "%char] sample_items))
      (json_object_spans (objects_file [" "%char] sample_items))
    = map (fun '(b, _) => braced b) sample_items /\
  json_object_spans [] = [].
Proof.
  split; [split; [repeat constructor | exact sample_items_well_formed] |].
  apply json_object_spans_objects; [repeat constructor | exact sample_items_well_formed].
Defined.

Lemma sample_items_spans :
  json_object_spans (objects_file [" "%char] sample_items) = [(1, 5); (7, 6)].
Proof. vm_compute; reflexivity. Qed.

(** ** Sample runs *)

Lemma good_server_runs_pass :
  fst (test_json_with_oid good_server sample_fs 1700000000 42 st0) = Done tt /\
  fst (test_transit_with_oid good_server sample_fs 1700000000 42 st0) = Done tt /\
  fst (test_transit_nest_one_full_record good_server sample_fs 1700000000 42 st0) = Done tt /\
  fst (test_transit_msgpack_copy_from good_server sample_fs 1700000000 42 st0) = Done tt.
Proof. vm_compute; repeat split. Qed.

(** ** Scoped [fallback_output_format] *)

(** C1 (code_bug): both transit cases send [RESET fallback_output_format]
    only on the passing path.  When the transit fixture is missing, or when
    the server rejects an insert, the case returns from an [ASSERT] after
    [SET fallback_output_format = 'transit'] and never sends the [RESET]. *)
Theorem transit_cases_skip_reset_on_failure :
  test_transit_with_oid good_server fs_without_transit 1700000000 42 st0
    = (Returned, mkSt 0 1 [Exec SET_TRANSIT]) /\
  test_transit_nest_one_full_record good_server fs_without_transit 1700000000 42 st0
    = (Returned, mkSt 0 1 [Exec SET_TRANSIT]) /\
  (let '(o, s) := test_transit_with_oid insert_failing_server sample_fs 1700000000 42 st0 in
   o = Returned /\ failed s = 1 /\ In (Exec SET_TRANSIT) (sent s) /\
   ~ In (Exec RESET_FORMAT) (sent s)) /\
  (let '(o, s) := test_transit_nest_one_full_record insert_failing_server sample_fs
                    1700000000 42 st0 in
   o = Returned /\ failed s = 1 /\ In (Exec SET_TRANSIT) (sent s) /\
   ~ In (Exec RESET_FORMAT) (sent s)).
Proof.
  split; [vm_compute; reflexivity |].
  split; [vm_compute; reflexivity |].
  split; vm_compute; (split; [reflexivity | split; [reflexivity | split]]);
    [left; reflexivity | intros [H | [H | []]]; discriminate
    |left; reflexivity | intros [H | [H | []]]; discriminate].
Qed.

(** ** What the NEST_ONE case checks *)

(** C3 (code_bug): the check for alice's boolean accepts any cell containing
    the letter [t], which ["Alice Smith"] already provides; a NEST_ONE cell
    whose [active] field is [false] (no [true] anywhere) passes the case. *)
Theorem nest_one_accepts_cell_without_true :
  strstr_found (nest_one_cell "false") "true" = false /\
  (let '(o, s) := test_transit_nest_one_full_record
                    (sample_server alice_full_row (nest_one_cell "false")) sample_fs
                    1700000000 42 st0 in
   o = Done tt /\ passed s = 1 /\ failed s = 0).
Proof. vm_compute; repeat split. Qed.

(** ** What the transit-msgpack COPY case checks *)

(** C2 (counterexample): with a server whose alice row has wrong [active],
    [email], [salary], [tags] and [metadata], the transit-msgpack COPY case
    passes while the JSON-parameter case fails: the two verifications
    differ. *)
Lemma msgpack_copy_check_weaker :
  fst (test_transit_msgpack_copy_from (sample_server wrong_alice_row (nest_one_cell "true"))
         sample_fs 1700000000 42 st0) = Done tt /\
  fst (test_json_with_oid (sample_server wrong_alice_row (nest_one_cell "true"))
         sample_fs 1700000000 42 st0) = Returned.
Proof. vm_compute; split; reflexivity. Qed.

(** ** Reasoning about the test monad *)

Lemma ExecStatusType_beq_true (x y : ExecStatusType) :
  ExecStatusType_beq x y = true -> x = y.
Proof. destruct x, y; simpl; congruence. Qed.

Lemma ExecStatusType_beq_false (x y : ExecStatusType) :
  ExecStatusType_beq x y = false -> x <> y.
Proof. destruct x, y; simpl; congruence. Qed.

Lemma bind_done {A B} (m : M A) (k : A -> M B) (s s' : St) (b : B) :
  bind m k s = (Done b, s') ->
  exists a s1, m s = (Done a, s1) /\ k a s1 = (Done b, s').
Proof.
  unfold bind; destruct (m s) as [[a| |] s1]; intros H; [eauto | discriminate ..].
Qed.

Ltac cases_in H :=
  repeat (cbv beta iota zeta in H;
          match type of H with
          | context [match ?x with Some _ => _ | None => _ end] => destruct x eqn:?
          | context [if ?b then _ else _] => destruct b eqn:?
          end);
  cbv beta iota zeta in H.

Ltac facts :=
  repeat match goal with
  | E : ExecStatusType_beq _ _ = true |- _ => apply ExecStatusType_beq_true in E
  | E : ExecStatusType_beq _ _ = false |- _ => apply ExecStatusType_beq_false in E
  | E : Z.eqb _ _ = true |- _ => apply Z.eqb_eq in E
  | E : Z.eqb _ _ = false |- _ => apply Z.eqb_neq in E
  | E : String.eqb _ _ = true |- _ => apply String.eqb_eq in E; subst
  | E : String.eqb _ _ = false |- _ => apply String.eqb_neq in E
  end.

Lemma verify_alice_full_done (srv : Server) (table : string) (s s' : St) (a : unit) :
  verify_alice_full srv table s = (Done a, s') ->
  alice_row_checked (srv_result srv (sent s) (Exec (alice_columns_sql table))) /\
  exists h, count_checked (srv_result srv h (Exec (count_sql table))).
Proof.
  intros H.
  cbv beta delta [verify_alice_full bind PQexec send ASSERT ASSERT_EQ_INT ASSERT_EQ_STR
    strstr status_is ret crash] in H.
  cases_in H; try discriminate H; facts.
  unfold alice_row_checked, count_checked.
  repeat split; eauto.
Qed.

Ltac cases_goal :=
  repeat (cbv beta iota zeta;
          match goal with
          | |- context [match ?x with Some _ => _ | None => _ end] => destruct x eqn:?
          | |- context [if ?b then _ else _] => destruct b eqn:?
          end);
  cbv beta iota zeta.

Ltac peel H :=
  let a := fresh "a" in let s1 := fresh "s" in
  let H1 := fresh "H" in let H2 := fresh "H" in
  destruct (bind_done _ _ _ _ _ H) as (a & s1 & H1 & H2); clear H; rename H2 into H.

Lemma json_with_oid_done (srv : Server) fs now rnd (s : St) :
  fst (test_json_with_oid srv fs now rnd s) = Done tt ->
  (exists h, alice_row_checked
               (srv_result srv h (Exec (alice_columns_sql (get_clean_table now rnd))))) /\
  (exists h, count_checked (srv_result srv h (Exec (count_sql (get_clean_table now rnd))))).
Proof.
  destruct (test_json_with_oid srv fs now rnd s) as [o s'] eqn:H; simpl; intros ->.
  unfold test_json_with_oid in H; cbv zeta in H.
  peel H; peel H; peel H.
  destruct (bind_done _ _ _ _ _ H) as (? & ? & Hv & _).
  apply verify_alice_full_done in Hv as [Hrow Hcount]; eauto.
Qed.

Lemma transit_with_oid_done (srv : Server) fs now rnd (s : St) :
  fst (test_transit_with_oid srv fs now rnd s) = Done tt ->
  (exists h, alice_row_checked
               (srv_result srv h (Exec (alice_columns_sql (get_clean_table now rnd))))) /\
  (exists h, count_checked (srv_result srv h (Exec (count_sql (get_clean_table now rnd))))).
Proof.
  destruct (test_transit_with_oid srv fs now rnd s) as [o s'] eqn:H; simpl; intros ->.
  unfold test_transit_with_oid in H; cbv zeta in H.
  peel H; peel H; peel H; peel H; peel H.
  destruct (bind_done _ _ _ _ _ H) as (? & ? & Hv & _).
  apply verify_alice_full_done in Hv as [Hrow Hcount]; eauto.
Qed.

Lemma msgpack_copy_done_iff (srv : Server) fs now rnd (s : St) (data : list ascii) :
  fs sample_users_msgpack = Some data ->
  fst (test_transit_msgpack_copy_from srv fs now rnd s) = Done tt <->
  (let table := get_clean_table now rnd in
   let h := sent s in
   let copy := Exec (msgpack_copy_sql table) in
   PQresultStatus (srv_result srv h copy) = PGRES_COPY_IN /\
   srv_int srv (h ++ [copy]) (PutCopyData data) = 1 /\
   srv_int srv (h ++ [copy; PutCopyData data]) PutCopyEnd = 1 /\
   PQresultStatus (srv_result srv (h ++ [copy; PutCopyData data; PutCopyEnd]) GetResult)
     = PGRES_COMMAND_OK /\
   msgpack_rows_checked
     (srv_result srv (h ++ [copy; PutCopyData data; PutCopyEnd; GetResult])
        (Exec (msgpack_select_sql table)))).
Proof.
  intros Hfs.
  cbv beta delta [test_transit_msgpack_copy_from contents bind PQexec PQputCopyData
    PQputCopyEnd PQgetResult send send_int ASSERT ASSERT_EQ_STR status_is ret crash].
  rewrite Hfs.
  cases_goal; facts; unfold msgpack_rows_checked; cbn [fst sent passed failed is_some] in *;
    rewrite <- ?app_assoc in *; simpl app in *;
    split; intros; intuition congruence.
Qed.

(** C2 (amended): the JSON-parameter case and the transit-text case pass
    only if the reply to alice's column query carries the six scalar values,
    the tags and metadata substrings, and the count query answers 3; the
    transit-msgpack COPY case checks less: once its fixture is read, it
    passes exactly when the COPY protocol succeeds and the
    [ORDER BY _id] query returns 3 rows whose first row is alice,
    Alice Smith, 30 (active, email, salary, tags and metadata unchecked). *)
Theorem variant_verifications (srv : Server) fs now rnd (s : St) (data : list ascii) :
  fs sample_users_msgpack = Some data ->
  (fst (test_json_with_oid srv fs now rnd s) = Done tt ->
   (exists h, alice_row_checked
                (srv_result srv h (Exec (alice_columns_sql (get_clean_table now rnd))))) /\
   (exists h, count_checked (srv_result srv h (Exec (count_sql (get_clean_table now rnd)))))) /\
  (fst (test_transit_with_oid srv fs now rnd s) = Done tt ->
   (exists h, alice_row_checked
                (srv_result srv h (Exec (alice_columns_sql (get_clean_table now rnd))))) /\
   (exists h, count_checked (srv_result srv h (Exec (count_sql (get_clean_table now rnd)))))) /\
  (fst (test_transit_msgpack_copy_from srv fs now rnd s) = Done tt <->
   (let table := get_clean_table now rnd in
    let h := sent s in
    let copy := Exec (msgpack_copy_sql table) in
    PQresultStatus (srv_result srv h copy) = PGRES_COPY_IN /\
    srv_int srv (h ++ [copy]) (PutCopyData data) = 1 /\
    srv_int srv (h ++ [copy; PutCopyData data]) PutCopyEnd = 1 /\
    PQresultStatus (srv_result srv (h ++ [copy; PutCopyData data; PutCopyEnd]) GetResult)
      = PGRES_COMMAND_OK /\
    msgpack_rows_checked
      (srv_result srv (h ++ [copy; PutCopyData data; PutCopyEnd; GetResult])
         (Exec (msgpack_select_sql table))))).
Proof.
  intros Hfs; split; [| split].
  - apply json_with_oid_done.
  - apply transit_with_oid_done.
  - apply msgpack_copy_done_iff; exact Hfs.
Qed.

Lemma variant_verifications_witness :
  sample_fs sample_users_msgpack = Some (list_ascii_of_string "binary") /\
  fst (test_transit_msgpack_copy_from good_server sample_fs 1700000000 42 st0) = Done tt /\
  msgpack_rows_checked
    (srv_result good_server
       (sent st0 ++ [Exec (msgpack_copy_sql (get_clean_table 1700000000 42));
                     PutCopyData (list_ascii_of_string "binary"); PutCopyEnd; GetResult])
       (Exec (msgpack_select_sql (get_clean_table 1700000000 42)))).
Proof.
  assert (Hfs : sample_fs sample_users_msgpack = Some (list_ascii_of_string "binary"))
    by reflexivity.
  pose proof (variant_verifications good_server sample_fs 1700000000 42 st0 _ Hfs)
    as (_ & _ & Hiff).
  assert (Hdone : fst (test_transit_msgpack_copy_from good_server sample_fs 1700000000 42 st0)
                  = Done tt) by (vm_compute; reflexivity).
  split; [exact Hfs | split; [exact Hdone |]].
  apply Hiff in Hdone; cbv zeta in Hdone.
  destruct Hdone as (_ & _ & _ & _ & Hrows); exact Hrows.
Defined.

(** ** Unbalanced braces in the JSON fixture *)

Lemma trailing_brace_scan (i : Z) (c : ascii) :
  c = lbrace \/ c = rbrace -> snd (split_scan i split_init [c]) = [].
Proof. intros [-> | ->]; reflexivity. Qed.

Lemma json_object_spans_trailing (ws0 : list ascii) (items : list (list ascii * list ascii))
    (c : ascii) :
  Forall (fun c => is_ws c = true) ws0 -> well_formed_items items ->
  c = lbrace \/ c = rbrace ->
  json_object_spans (objects_file ws0 items ++ [c])%list
  = json_object_spans (objects_file ws0 items).
Proof.
  intros Hws Hit Hc; unfold json_object_spans.
  rewrite split_scan_app, file_scan by assumption.
  destruct (split_scan _ split_init [c]) as [s2 t] eqn:E.
  pose proof (trailing_brace_scan (0 + Z.of_nat (List.length (objects_file ws0 items))) c Hc)
    as T; rewrite E in T; simpl in T |- *; subst t; apply app_nil_r.
Qed.

Lemma json_object_slices_trailing (ws0 : list ascii) (items : list (list ascii * list ascii))
    (c : ascii) :
  Forall (fun c => is_ws c = true) ws0 -> well_formed_items items ->
  c = lbrace \/ c = rbrace ->
  map (span_bytes (objects_file ws0 items ++ [c])%list)
      (json_object_spans (objects_file ws0 items ++ [c])%list)
  = map (span_bytes (objects_file ws0 items)) (json_object_spans (objects_file ws0 items)).
Proof.
  intros Hws Hit Hc.
  rewrite json_object_spans_trailing, json_object_slices_file by assumption.
  rewrite json_object_spans_file by assumption.
  unfold objects_file; rewrite <- app_assoc; apply items_slices.
Qed.

Lemma insert_json_objects_ext (srv : Server) (query : string) (c1 c2 : list ascii)
    (spans : list (Z * Z)) (n : Z) (s : St) :
  map (span_bytes c1) spans = map (span_bytes c2) spans ->
  insert_json_objects srv query c1 spans n s = insert_json_objects srv query c2 spans n s.
Proof.
  revert n s; induction spans as [| sp spans IH]; intros n s E; simpl; [reflexivity |].
  simpl in E; injection E as E1 E2.
  rewrite E1; destruct (8192 <=? snd sp); [reflexivity |].
  unfold bind; destruct (PQexecParams1 _ _ _ _ s) as [[r| |] s1]; [| reflexivity ..].
  destruct (ASSERT _ s1) as [[[]| |] s2]; [| reflexivity ..].
  apply IH; exact E2.
Qed.

(** C5 (counterexample): with an unclosed opening brace appended to the
    sample [sample-users.json], [test_json_with_oid] records no failure: it
    passes. *)
Lemma trailing_brace_not_reported :
  let '(o, s) := test_json_with_oid good_server fs_trailing_brace 1700000000 42 st0 in
  o = Done tt /\ passed s = 1 /\ failed s = 0.
Proof. vm_compute; repeat split. Qed.

(** C5 (amended): the splitter does not detect unbalanced braces.  When a
    file of whitespace-separated objects ends with an unmatched opening or
    closing brace, the splitter yields the same spans, designating the same
    bytes, as on the file without it, and [test_json_with_oid] behaves
    exactly as on that file: no framing error is raised. *)
Theorem trailing_brace_ignored (ws0 : list ascii) (items : list (list ascii * list ascii))
    (c : ascii) (srv : Server) (fs1 fs2 : string -> option (list ascii)) now rnd (s : St) :
  Forall (fun c => is_ws c = true) ws0 -> well_formed_items items ->
  c = lbrace \/ c = rbrace ->
  fs1 sample_users_json = Some (objects_file ws0 items ++ [c])%list ->
  fs2 sample_users_json = Some (objects_file ws0 items) ->
  json_object_spans (objects_file ws0 items ++ [c])%list
    = json_object_spans (objects_file ws0 items) /\
  map (span_bytes (objects_file ws0 items ++ [c])%list)
      (json_object_spans (objects_file ws0 items ++ [c])%list)
    = map (span_bytes (objects_file ws0 items)) (json_object_spans (objects_file ws0 items)) /\
  test_json_with_oid srv fs1 now rnd s = test_json_with_oid srv fs2 now rnd s.
Proof.
  intros Hws Hit Hc H1 H2.
  pose proof (json_object_spans_trailing ws0 items c Hws Hit Hc) as Hsp.
  pose proof (json_object_slices_trailing ws0 items c Hws Hit Hc) as Hsl.
  split; [exact Hsp | split; [exact Hsl |]].
  cbv beta delta [test_json_with_oid contents]; rewrite H1, H2; cbv beta iota zeta.
  rewrite Hsp in Hsl |- *.
  unfold bind; cbn [ASSERT is_some].
  rewrite (insert_json_objects_ext srv _ _ _ _ _ _ Hsl); reflexivity.
Qed.

Lemma trailing_brace_ignored_witness :
  (Forall (fun c => is_ws c = true) [" "%char] /\ well_formed_items sample_items /\
   (lbrace = lbrace \/ lbrace = rbrace)) /\
  test_json_with_oid good_server
    (fun p => if String.eqb p sample_users_json
              then Some (objects_file [" "%char] sample_items ++ [lbrace])%list else None)
    1700000000 42 st0
  = test_json_with_oid good_server
    (fun p => if String.eqb p sample_users_json
              then Some (objects_file [" "%char] sample_items) else None)
    1700000000 42 st0.
Proof.
  split; [split; [repeat constructor | split; [exact sample_items_well_formed | left; reflexivity]] |].
  apply (trailing_brace_ignored [" "%char] sample_items lbrace good_server _ _ 1700000000 42 st0);
    [repeat constructor | exact sample_items_well_formed | left; reflexivity
    | reflexivity | reflexivity].
Defined.

(** ** The assertion kernel and the runner *)

(** C6 (counterexample): a successful [ASSERT] does not touch the pass
    counter. *)
Lemma assert_success_not_counted :
  ~ (forall s, passed (snd (ASSERT true s)) = passed s + 1).
Proof. intros H; specialize (H st0); vm_compute in H; discriminate. Qed.

Create HintDb counters.

Lemma ret_counts {A} (a : A) : counts_at_most_failure (ret a).
Proof. intros s; simpl; auto. Qed.

Lemma crash_counts {A} : counts_at_most_failure (@crash A).
Proof. intros s; exact I. Qed.

Lemma ASSERT_counts (b : bool) : counts_at_most_failure (ASSERT b).
Proof. intros s; unfold ASSERT; destruct b; simpl; auto. Qed.

Lemma ASSERT_EQ_STR_counts (a : option string) (e : string) :
  counts_at_most_failure (ASSERT_EQ_STR a e).
Proof. unfold ASSERT_EQ_STR; destruct a; [apply ASSERT_counts | apply crash_counts]. Qed.

Lemma ASSERT_EQ_INT_counts (a e : Z) : counts_at_most_failure (ASSERT_EQ_INT a e).
Proof. apply ASSERT_counts. Qed.

Lemma strstr_counts (h : option string) (n : string) : counts_at_most_failure (strstr h n).
Proof. unfold strstr; destruct h; [apply ret_counts | apply crash_counts]. Qed.

Lemma send_counts (srv : Server) (rq : Request) : counts_at_most_failure (send srv rq).
Proof. intros s; simpl; auto. Qed.

Lemma send_int_counts (srv : Server) (rq : Request) : counts_at_most_failure (send_int srv rq).
Proof. intros s; simpl; auto. Qed.

Lemma bind_counts {A B} (m : M A) (k : A -> M B) :
  counts_at_most_failure m -> (forall a, counts_at_most_failure (k a)) ->
  counts_at_most_failure (bind m k).
Proof.
  intros Hm Hk s; unfold bind; specialize (Hm s).
  destruct (m s) as [[a| |] s1]; [| exact Hm | exact I].
  specialize (Hk a s1); destruct (k a s1) as [[b| |] s2]; [| | exact I];
    destruct Hm, Hk; split; congruence || lia.
Qed.

Lemma bind_counts_once {A} (m : M A) (k : A -> M unit) :
  counts_at_most_failure m -> (forall a, counts_once (k a)) -> counts_once (bind m k).
Proof.
  intros Hm Hk s; unfold bind; specialize (Hm s).
  destruct (m s) as [[a| |] s1]; [| exact Hm | exact I].
  specialize (Hk a s1); destruct (k a s1) as [[b| |] s2]; [| | exact I];
    destruct Hm, Hk; split; congruence || lia.
Qed.

Lemma PASS_counts_once : counts_once PASS.
Proof. intros s; simpl; auto. Qed.

Lemma if_counts {A} (b : bool) (m1 m2 : M A) :
  counts_at_most_failure m1 -> counts_at_most_failure m2 ->
  counts_at_most_failure (if b then m1 else m2).
Proof. destruct b; auto. Qed.

Lemma PQexec_counts (srv : Server) (sql : string) : counts_at_most_failure (PQexec srv sql).
Proof. apply send_counts. Qed.

#[export] Hint Resolve PQexec_counts ret_counts crash_counts ASSERT_counts ASSERT_EQ_STR_counts
  ASSERT_EQ_INT_counts strstr_counts send_counts send_int_counts if_counts
  PASS_counts_once : counters.

Ltac solve_counters :=
  repeat first
    [ apply bind_counts_once; [| intros]
    | apply bind_counts; [| intros]
    | progress (auto with counters) ].

Lemma load_transit_lines_counts (srv : Server) (query : string)
    (chunks : list (list ascii)) (n : Z) :
  counts_at_most_failure (load_transit_lines srv query chunks n).
Proof.
  revert n; induction chunks as [| line chunks IH]; intros n; simpl; [auto with counters |].
  destruct (trim_line line); [apply IH |].
  unfold PQexecParams1; solve_counters.
Qed.

Lemma insert_json_objects_counts (srv : Server) (query : string) (content : list ascii)
    (spans : list (Z * Z)) (n : Z) :
  counts_at_most_failure (insert_json_objects srv query content spans n).
Proof.
  revert n; induction spans as [| sp spans IH]; intros n; simpl; [auto with counters |].
  destruct (8192 <=? snd sp); [auto with counters |].
  unfold PQexecParams1; solve_counters.
Qed.

#[export] Hint Resolve load_transit_lines_counts insert_json_objects_counts : counters.

Lemma verify_alice_full_counts (srv : Server) (table : string) :
  counts_at_most_failure (verify_alice_full srv table).
Proof. unfold verify_alice_full, PQexec; solve_counters. Qed.

#[export] Hint Resolve verify_alice_full_counts : counters.

Lemma modelled_cases_count_once (srv : Server) fs now rnd :
  counts_once (test_json_with_oid srv fs now rnd) /\
  counts_once (test_transit_with_oid srv fs now rnd) /\
  counts_once (test_transit_nest_one_full_record srv fs now rnd) /\
  counts_once (test_transit_msgpack_copy_from srv fs now rnd).
Proof.
  unfold test_json_with_oid, test_transit_with_oid, test_transit_nest_one_full_record,
    test_transit_msgpack_copy_from, PQexec, PQputCopyData, PQputCopyEnd, PQgetResult.
  repeat split; cbv zeta; solve_counters.
Qed.

Lemma strcat_cap_counts cap buf t : counts_at_most_failure (strcat_cap cap buf t).
Proof. unfold strcat_cap; destruct (Nat.leb _ _); auto with counters. Qed.
#[export] Hint Resolve strcat_cap_counts : counters.

Lemma more_cases_count_once (srv : Server) fs now rnd :
  counts_once (test_connection srv) /\
  counts_once (test_insert_and_query srv now rnd) /\
  counts_once (test_where_clause srv now rnd) /\
  counts_once (test_count_query srv now rnd) /\
  counts_once (test_parameterized_query srv now rnd) /\
  counts_once (test_json_records srv now rnd) /\
  counts_once (test_load_sample_json srv now rnd) /\
  counts_once (test_nested_data_roundtrip srv now rnd) /\
  counts_once (test_transit_json_format srv now rnd) /\
  counts_once test_transit_json_encoding /\
  counts_once (test_transit_json_copy_from srv fs now rnd).
Proof.
  unfold test_connection, test_insert_and_query, test_where_clause, test_count_query,
    test_parameterized_query, test_json_records, test_load_sample_json,
    test_nested_data_roundtrip, test_transit_json_format, test_transit_json_encoding,
    test_transit_json_copy_from, PQexec, PQexecParams1, PQputCopyData, PQputCopyEnd, PQgetResult.
  repeat split; cbv zeta; solve_counters.
Qed.

Lemma run_tests_counts (cases : list (M unit)) s s' :
  Forall counts_once cases -> run_tests cases s = (false, s') ->
  passed s' + failed s' = passed s + failed s + Z.of_nat (List.length cases) /\ passed s <= passed s' /\ failed s <= failed s'.
Proof.
  intros H; revert s; induction H as [| c cases Hc _ IH]; intros s; simpl.
  - intros E; injection E as <-; lia.
  - specialize (Hc s); destruct (c s) as [[[] | |] s1].
    + intros E; specialize (IH s1 E); destruct Hc; lia.
    + intros E; specialize (IH s1 E); destruct Hc; lia.
    + discriminate.
Qed.

Lemma all_cases_count_once (srv : Server) fs clock : Forall counts_once (all_cases srv fs clock).
Proof.
  unfold all_cases.
  pose proof (more_cases_count_once srv fs) as Hm.
  pose proof (modelled_cases_count_once srv fs) as Hd.
  repeat apply Forall_cons; try apply Forall_nil.
  - exact (proj1 (Hm 0 0)).
  - exact (proj1 (proj2 (Hm _ _))).
  - exact (proj1 (proj2 (proj2 (Hm _ _)))).
  - exact (proj1 (proj2 (proj2 (proj2 (Hm _ _))))).
  - exact (proj1 (proj2 (proj2 (proj2 (proj2 (Hm _ _)))))).
  - exact (proj1 (proj2 (proj2 (proj2 (proj2 (proj2 (Hm _ _))))))).
  - exact (proj1 (proj2 (proj2 (proj2 (proj2 (proj2 (proj2 (Hm _ _)))))))).
  - exact (proj1 (Hd _ _)).
  - exact (proj1 (proj2 (Hd _ _))).
  - exact (proj1 (proj2 (proj2 (Hd _ _)))).
  - exact (proj1 (proj2 (proj2 (proj2 (proj2 (proj2 (proj2 (proj2 (Hm _ _))))))))).
  - exact (proj1 (proj2 (proj2 (proj2 (proj2 (proj2 (proj2 (proj2 (proj2 (Hm _ _)))))))))).
  - exact (proj1 (proj2 (proj2 (proj2 (proj2 (proj2 (proj2 (proj2 (proj2 (proj2 (Hm 0 0))))))))))).
  - exact (proj2 (proj2 (proj2 (Hd _ _)))).
  - exact (proj2 (proj2 (proj2 (proj2 (proj2 (proj2 (proj2 (proj2 (proj2 (proj2 (Hm _ _))))))))))).
Qed.

Lemma last_cons_default {A} (a : A) (l : list A) (d : A) : List.last (a :: l) d = List.last l a.
Proof.
  revert a d; induction l as [| b l IH]; intros a d; [reflexivity |].
  change (List.last (a :: b :: l) d) with (List.last (b :: l) d).
  rewrite (IH b d), (IH b a); reflexivity.
Qed.

Lemma run_tests_chain (cases : list (M unit)) (s s' : St) :
  Forall counts_once cases -> run_tests cases s = (false, s') ->
  exists ss, case_states cases s ss /\ List.last ss s = s'.
Proof.
  intros H; revert s; induction H as [| c cases Hc _ IH]; intros s E.
  - exists []; injection E as <-; split; [exact I | reflexivity].
  - cbn [run_tests] in E; specialize (Hc s).
    destruct (c s) as [o s1] eqn:Ec.
    assert (Ho : o <> Crashed) by (destruct o; congruence).
    destruct (IH s1) as [ss [H1 H2]]; [destruct o; congruence |].
    exists (s1 :: ss); cbn [case_states]; rewrite Ec; cbn [fst snd].
    split; [split; [exact Ho | split; [reflexivity | split; [| exact H1]]] |].
    + unfold one_count; destruct o as [[] | |]; [left | right | congruence]; exact Hc.
    + rewrite last_cons_default; exact H2.
Qed.

(** C6 (amended): a successful assertion changes no counter; a failed one
    adds one to the fail counter and returns from the case, so no later
    statement of the case runs; only [PASS()], reached at the end of a case,
    adds one to the pass counter.  Each of the fifteen cases of [main], run
    to its end or to its first failed assertion without a crash, adds one to
    exactly one of the two counters.  The runner goes on with the next case
    after any case that did not crash, and a run of such cases adds one pass
    or one failure per case, in turn. *)
Theorem assertion_kernel_counters {A : Type} (k : unit -> M A)
    (kt : unit -> M unit) (srv : Server) fs clock (cases : list (M unit)) (s : St) :
  ASSERT true s = (Done tt, s) /\
  bind (ASSERT false) k s = (Returned, mkSt (passed s) (failed s + 1) (sent s)) /\
  PASS s = (Done tt, mkSt (passed s + 1) (failed s) (sent s)) /\
  Forall counts_once (all_cases srv fs clock) /\
  run_tests (bind (ASSERT false) kt :: cases) s
    = run_tests cases (mkSt (passed s) (failed s + 1) (sent s)) /\
  (forall c : M unit, fst (c s) <> Crashed -> run_tests (c :: cases) s = run_tests cases (snd (c s))) /\
  (forall s', Forall counts_once cases -> run_tests cases s = (false, s') ->
     exists ss, case_states cases s ss /\ List.last ss s = s').
Proof.
  split; [reflexivity |]; split; [reflexivity |]; split; [reflexivity |].
  split; [apply all_cases_count_once |]; split; [reflexivity |].
  split; [| intros s'; apply run_tests_chain].
  intros c Hc; cbn [run_tests]; destruct (c s) as [[] s1]; [reflexivity | reflexivity | ].
  cbn in Hc; congruence.
Qed.


(** ** Reading the transit fixture line by line *)

Lemma fgets_read_fits (n : nat) (l rest : list ascii) :
  ~ In newline l -> (List.length l <= n)%nat ->
  fgets_read n (l ++ newline :: rest)%list
  = if Nat.eqb n (List.length l) then (l, newline :: rest) else ((l ++ [newline])%list, rest).
Proof.
  revert n; induction l as [| c l IH]; intros n Hnl Hlen; destruct n as [| n]; simpl in *.
  - reflexivity.
  - reflexivity.
  - lia.
  - assert (Hc : Ascii.eqb c newline = false) by (apply Ascii.eqb_neq; tauto).
    rewrite Hc, IH by (tauto || lia). destruct (Nat.eqb n (List.length l)); reflexivity.
Qed.

Lemma fgets_read_last (n : nat) (l : list ascii) :
  ~ In newline l -> (List.length l <= n)%nat -> fgets_read n l = (l, []).
Proof.
  revert n; induction l as [| c l IH]; intros n Hnl Hlen; destruct n as [| n]; simpl in *;
    try reflexivity; try lia.
  assert (Hc : Ascii.eqb c newline = false) by (apply Ascii.eqb_neq; tauto).
  rewrite Hc, IH by (tauto || lia); reflexivity.
Qed.

Lemma length_text_file (l : list ascii) (lines : list (list ascii)) (last : list ascii) :
  List.length (text_file (l :: lines) last)
  = (List.length l + 1 + List.length (text_file lines last))%nat.
Proof. unfold text_file; cbn [map List.concat]; rewrite <- app_assoc, !length_app; simpl; lia. Qed.

Lemma fgets_chunks_text_file (fuel : nat) (lines : list (list ascii)) (last : list ascii) :
  Forall short_line lines -> short_line last ->
  (List.length (text_file lines last) <= fuel)%nat ->
  fgets_chunks fuel (text_file lines last)
  = (List.concat (map line_chunks lines) ++ last_chunk last)%list.
Proof.
  intros Hlines [Hnl [_ Hlen]]; revert fuel.
  induction Hlines as [| l lines [Hl [_ Hll]] _ IH]; intros fuel Hfuel.
  - unfold text_file in *; simpl in *.
    destruct fuel as [| fuel], last as [| c t]; simpl in Hfuel; try lia; try reflexivity.
    cbv beta iota delta [fgets_chunks].
    fold fgets_chunks.
    rewrite (fgets_read_last (LINE_SIZE - 1) (c :: t)) by assumption.
    destruct fuel; reflexivity.
  - rewrite length_text_file in Hfuel.
    assert (Hsplit : text_file (l :: lines) last
                     = (l ++ newline :: text_file lines last)%list).
    { unfold text_file; cbn [map List.concat]; rewrite <- !app_assoc; reflexivity. }
    rewrite Hsplit.
    destruct fuel as [| fuel]; [lia |].
    assert (Hne : (l ++ newline :: text_file lines last)%list <> []) by (destruct l; discriminate).
    destruct (l ++ newline :: text_file lines last)%list as [| c0 t0] eqn:E; [congruence |].
    cbv beta iota delta [fgets_chunks]; fold fgets_chunks.
    rewrite <- E, fgets_read_fits by assumption.
    cbn [map List.concat].
    assert (Hlc : line_chunks l = if Nat.eqb (List.length l) (LINE_SIZE - 1)
                                  then [l; [newline]] else [(l ++ [newline])%list])
      by reflexivity.
    rewrite Hlc, Nat.eqb_sym.
    destruct (Nat.eqb (List.length l) (LINE_SIZE - 1)) eqn:Eq.
    + pose proof (proj1 (Nat.eqb_eq _ _) Eq) as Eq'.
      unfold LINE_SIZE in Eq'; cbv zeta in Eq'.
      destruct fuel as [| fuel]; [lia |].
      cbv beta iota delta [fgets_chunks]; fold fgets_chunks.
      change (fgets_read (LINE_SIZE - 1) (newline :: text_file lines last))
        with ([newline], text_file lines last).
      cbv beta iota; rewrite IH by lia; reflexivity.
    + rewrite IH by lia; reflexivity.
Qed.

Lemma cstring_no_nul (l : list ascii) : ~ In nul l -> cstring l = l.
Proof.
  induction l as [| c l IH]; intros Hn; simpl in *; [reflexivity |].
  assert (Hc : Ascii.eqb c nul = false) by (apply Ascii.eqb_neq; tauto).
  rewrite Hc, IH by tauto; reflexivity.
Qed.

Lemma trim_leading_app (l r : list ascii) :
  trim_leading (l ++ r)%list
  = match trim_leading l with [] => trim_leading r | t => (t ++ r)%list end.
Proof.
  induction l as [| c l IH]; simpl; [reflexivity |].
  destruct (Ascii.eqb c " " || Ascii.eqb c tab || Ascii.eqb c newline); [exact IH | reflexivity].
Qed.

Lemma trim_trailing_newline (l : list ascii) :
  trim_trailing (l ++ [newline])%list = trim_trailing l.
Proof. unfold trim_trailing; rewrite rev_app_distr; reflexivity. Qed.

Lemma trim_line_terminated (l : list ascii) :
  ~ In nul l -> trim_line (l ++ [newline])%list = trim_spec l.
Proof.
  intros Hn; unfold trim_line, trim_spec.
  rewrite cstring_no_nul by (rewrite in_app_iff; intros [H | [H | []]]; [tauto | discriminate H]).
  rewrite trim_leading_app.
  destruct (trim_leading l) as [| c t]; [reflexivity |].
  apply trim_trailing_newline.
Qed.

Lemma trim_line_unterminated (l : list ascii) : ~ In nul l -> trim_line l = trim_spec l.
Proof. intros Hn; unfold trim_line, trim_spec; rewrite cstring_no_nul by exact Hn; reflexivity. Qed.

Lemma load_transit_lines_ok (srv : Server) (query : string) (cs : list (list ascii))
    (n : Z) (s : St) :
  (forall h p, PQresultStatus (srv_result srv h (ExecParams query TRANSIT_OID p))
               = PGRES_COMMAND_OK) ->
  load_transit_lines srv query cs n s
  = (Done (n + Z.of_nat (List.length (filter nonempty (map trim_line cs)))),
     mkSt (passed s) (failed s)
       (sent s ++ map (fun t => ExecParams query TRANSIT_OID (string_of_list_ascii t))
                      (filter nonempty (map trim_line cs)))%list).
Proof.
  intros Hok; revert n s; induction cs as [| c cs IH]; intros n s.
  - simpl; rewrite Z.add_0_r, app_nil_r; destruct s; reflexivity.
  - cbn [load_transit_lines map filter].
    destruct (trim_line c) as [| a t] eqn:Et; cbn [nonempty]; [apply IH |].
    unfold bind, PQexecParams1, send, ASSERT; rewrite Hok; cbn.
    rewrite IH; cbn [passed failed sent List.length]; rewrite <- app_assoc.
    f_equal; f_equal; lia.
Qed.

Lemma filter_map_trim (lines : list (list ascii)) :
  filter nonempty (map trim_spec lines) = map trim_spec (nonblank_lines lines).
Proof.
  induction lines as [| l lines IH]; simpl; [reflexivity |].
  destruct (nonempty (trim_spec l)); simpl; rewrite IH; reflexivity.
Qed.

Lemma trimmed_chunks (lines : list (list ascii)) (last : list ascii) :
  Forall short_line lines -> short_line last ->
  filter nonempty (map trim_line (List.concat (map line_chunks lines) ++ last_chunk last))
  = map trim_spec (nonblank_lines (lines ++ [last])).
Proof.
  intros Hlines [_ [Hln _]]; rewrite <- filter_map_trim.
  induction Hlines as [| l lines [_ [Hn _]] _ IH].
  - destruct last as [| c t]; [reflexivity |].
    simpl List.concat; simpl app; cbn [map].
    rewrite trim_line_unterminated by exact Hln; reflexivity.
  - cbn [map List.concat]; rewrite <- app_assoc, map_app, filter_app, IH.
    unfold line_chunks; destruct (Nat.eqb (List.length l) (LINE_SIZE - 1)); cbn [map].
    + rewrite trim_line_unterminated by exact Hn.
      change (trim_line [newline]) with (@nil ascii).
      simpl; destruct (nonempty (trim_spec l)); reflexivity.
    + rewrite trim_line_terminated by exact Hn.
      simpl; destruct (nonempty (trim_spec l)); reflexivity.
Qed.

(** C10 (counterexample): a line of 4096 bytes is read by [fgets] in two
    pieces, each inserted; a fixture of three non-blank lines, the first of
    them that long, makes [transit_with_oid] fail its count assertion. *)
Lemma long_line_inserted_twice :
  List.length (nonblank_lines ([long_line] ++ [[]])) = 1%nat /\
  fst (load_transit_lines good_server "INSERT INTO t RECORDS $1"
         (fgets_all (text_file [long_line] [])) 0 st0) = Done 2 /\
  List.length (nonblank_lines ([long_line; ["b"%char]; ["c"%char]] ++ [[]])) = 3%nat /\
  fst (test_transit_with_oid good_server
         (fun p => if String.eqb p sample_users_transit
                   then Some (text_file [long_line; ["b"%char]; ["c"%char]] []) else None)
         1700000000 42 st0) = Returned.
Proof. vm_compute; repeat split. Qed.

Lemma fgets_read_pieces (n : nat) (input : list ascii) :
  (fst (fgets_read n input) ++ snd (fgets_read n input))%list = input /\
  (List.length (fst (fgets_read n input)) <= n)%nat /\
  ~ In newline (removelast (fst (fgets_read n input))) /\
  (n <> O -> input <> [] -> fst (fgets_read n input) <> []).
Proof.
  revert input; induction n as [| n IH]; intros input.
  - simpl; repeat split; auto; intros [].
  - destruct input as [| c rest]; [simpl; repeat split; auto; lia |].
    cbn [fgets_read]; destruct (Ascii.eqb c newline) eqn:Ec.
    + apply Ascii.eqb_eq in Ec; subst c; simpl; repeat split; [lia | intros [] | discriminate].
    + destruct (IH rest) as (H1 & H2 & H3 & _).
      destruct (fgets_read n rest) as [l r]; cbn [fst snd] in *.
      repeat split; [simpl; congruence | simpl; lia | | discriminate].
      destruct l as [| d l]; [intros [] |].
      change (removelast (c :: d :: l)) with (c :: removelast (d :: l)).
      intros [E | E]; [subst c; rewrite Ascii.eqb_refl in Ec; discriminate | exact (H3 E)].
Qed.

Lemma fgets_chunks_pieces (fuel : nat) (input : list ascii) :
  (List.length input <= fuel)%nat ->
  List.concat (fgets_chunks fuel input) = input /\
  Forall (fun p => p <> [] /\ (List.length p <= LINE_SIZE - 1)%nat /\ ~ In newline (removelast p))
         (fgets_chunks fuel input).
Proof.
  revert input; induction fuel as [| fuel IH]; intros input Hf.
  - destruct input; [split; [reflexivity | constructor] | simpl in Hf; lia].
  - destruct input as [| c rest]; [split; [reflexivity | constructor] |].
    cbv beta iota delta [fgets_chunks]; fold fgets_chunks.
    destruct (fgets_read_pieces (LINE_SIZE - 1) (c :: rest)) as (H1 & H2 & H3 & H4).
    destruct (fgets_read (LINE_SIZE - 1) (c :: rest)) as [l r]; cbn [fst snd] in *.
    assert (Hl : l <> []) by (apply H4; [unfold LINE_SIZE; discriminate | discriminate]).
    assert (Hr : (List.length r <= fuel)%nat).
    { rewrite <- H1, length_app in Hf; destruct l; [congruence | simpl in Hf; lia]. }
    destruct (IH r Hr) as [IH1 IH2].
    split; [cbn [List.concat]; rewrite IH1; exact H1 | constructor; auto].
Qed.

(** C10 (amended): for a fixture made of lines that hold no NUL byte and
    fit, without their newline, in 4095 bytes, and a server that accepts
    every transit insert, the loop inserts each non-blank line once, trimmed
    of its leading spaces, tabs and newlines and its trailing spaces,
    newlines and carriage returns, in file order, skips the blank ones, and
    counts exactly the non-blank lines.  For any fixture, [fgets] reads
    non-empty pieces of at most 4095 bytes that make up the file, each with
    a newline only as its last byte, so a longer line is read in several
    pieces; each piece is cut at its first NUL byte and trimmed, the pieces
    empty after that are skipped, and every other piece is inserted once, in
    order, as its own record and counted. *)
Theorem transit_lines_loaded (srv : Server) (query : string) (n : Z) (s : St) :
  (forall h p, PQresultStatus (srv_result srv h (ExecParams query TRANSIT_OID p))
               = PGRES_COMMAND_OK) ->
  (forall (lines : list (list ascii)) (last : list ascii),
     Forall short_line lines -> short_line last ->
     load_transit_lines srv query (fgets_all (text_file lines last)) n s
     = (Done (n + Z.of_nat (List.length (nonblank_lines (lines ++ [last])))),
        mkSt (passed s) (failed s)
          (sent s ++ map (fun l => ExecParams query TRANSIT_OID
                                     (string_of_list_ascii (trim_spec l)))
                         (nonblank_lines (lines ++ [last])))%list)) /\
  (forall input : list ascii,
     List.concat (fgets_all input) = input /\
     Forall (fun p => p <> [] /\ (List.length p <= LINE_SIZE - 1)%nat /\
                      ~ In newline (removelast p)) (fgets_all input) /\
     load_transit_lines srv query (fgets_all input) n s
     = (Done (n + Z.of_nat (List.length (filter nonempty (map trim_line (fgets_all input))))),
        mkSt (passed s) (failed s)
          (sent s ++ map (fun t => ExecParams query TRANSIT_OID (string_of_list_ascii t))
                         (filter nonempty (map trim_line (fgets_all input))))%list)).
Proof.
  intros Hok; split.
  - intros lines last Hlines Hlast.
    unfold fgets_all; rewrite fgets_chunks_text_file by (assumption || lia).
    rewrite load_transit_lines_ok by exact Hok.
    rewrite trimmed_chunks by assumption.
    rewrite length_map, map_map; reflexivity.
  - intros input.
    destruct (fgets_chunks_pieces (List.length input) input (le_n _)) as [H1 H2].
    split; [exact H1 | split; [exact H2 | apply load_transit_lines_ok; exact Hok]].
Qed.

Ltac not_in_tac :=
  let H := fresh "H" in
  cbn; intros H; repeat (destruct H as [H | H]; [vm_compute in H; discriminate H |]);
  exact H.

Ltac short_line_tac := unfold short_line; split; [not_in_tac | split; [not_in_tac | cbn; lia]].

Lemma transit_lines_loaded_witness :
  Forall short_line [["a"%char]; [" "%char]; ["b"%char]] /\ short_line [] /\
  (forall h p, PQresultStatus (srv_result good_server h
                 (ExecParams "INSERT INTO t RECORDS $1" TRANSIT_OID p)) = PGRES_COMMAND_OK) /\
  load_transit_lines good_server "INSERT INTO t RECORDS $1"
    (fgets_all (text_file [["a"%char]; [" "%char]; ["b"%char]] [])) 0 st0
  = (Done (0 + Z.of_nat (List.length (nonblank_lines ([["a"%char]; [" "%char]; ["b"%char]] ++ [[]])))),
     mkSt (passed st0) (failed st0)
       (sent st0 ++ map (fun l => ExecParams "INSERT INTO t RECORDS $1" TRANSIT_OID
                                    (string_of_list_ascii (trim_spec l)))
                        (nonblank_lines ([["a"%char]; [" "%char]; ["b"%char]] ++ [[]])))%list) /\
  List.length (filter nonempty (map trim_line (fgets_all (text_file [long_line] [])))) = 2%nat.
Proof.
  assert (Hok : forall h p, PQresultStatus (srv_result good_server h
                  (ExecParams "INSERT INTO t RECORDS $1" TRANSIT_OID p)) = PGRES_COMMAND_OK)
    by (intros; reflexivity).
  assert (H1 : Forall short_line [["a"%char]; [" "%char]; ["b"%char]])
    by (repeat (apply Forall_cons; [short_line_tac |]); apply Forall_nil).
  assert (H2 : short_line []) by short_line_tac.
  split; [exact H1 |]; split; [exact H2 |]; split; [exact Hok |].
  split; [exact (proj1 (transit_lines_loaded good_server "INSERT INTO t RECORDS $1" 0 st0 Hok)
                   [["a"%char]; [" "%char]; ["b"%char]] [] H1 H2) |].
  pose proof (proj2 (proj2 (proj2 (transit_lines_loaded good_server "INSERT INTO t RECORDS $1" 0 st0 Hok)
                (text_file [long_line] [])))) as H3.
  vm_compute; reflexivity.
Defined.

(** ** Transactional batch insertion ([trades.c]) *)

Module TradesProofs.
Import Trades.

Lemma is_live_new (h : nat) tr l n : is_live h (mkTSt tr (h :: l) n) = true.
Proof. unfold is_live; simpl; rewrite Nat.eqb_refl; reflexivity. Qed.

Lemma is_live_removed (h : nat) tr l n :
  is_live h (mkTSt tr (filter (fun h' => negb (Nat.eqb h h')) l) n) = false.
Proof.
  unfold is_live; simpl; induction l as [| a l IH]; simpl; [reflexivity |].
  destruct (Nat.eqb h a) eqn:E; simpl; [exact IH | rewrite E; exact IH].
Qed.

Ltac trun :=
  repeat (first
    [ progress (unfold tbind, tret, tcrash, PQstatus_ok, shutdown_requested, PQexec,
                PQexecParams, send, PQresultStatus_ok, PQclear, handle_db_error in *)
    | progress cbn [trace live next_res res_handle res_ok fst snd negb andb orb] in *
    | rewrite is_live_new
    | rewrite is_live_removed
    | progress cbv beta iota zeta ]).

Lemma begin_transaction_effect env s :
  match begin_transaction env s with
  | (TDone true, s') => trace s' = (trace s ++ [(Exec "BEGIN", true)])%list
  | (_, s') => exists ext, trace s' = (trace s ++ ext)%list /\ Forall rejected ext
  end.
Proof.
  unfold begin_transaction; trun.
  destruct (conn_ok env (trace s)); trun.
  - destruct (accepts env (trace s) (Exec "BEGIN")); trun.
    + reflexivity.
    + eexists; split; [reflexivity | repeat constructor].
  - exists []; rewrite app_nil_r; split; [reflexivity | constructor].
Qed.

Lemma commit_transaction_effect env s :
  match commit_transaction env s with
  | (TDone true, s') => trace s' = (trace s ++ [(Exec "COMMIT", true)])%list
  | (_, s') => exists ext, trace s' = (trace s ++ ext)%list /\ Forall rejected ext
  end.
Proof.
  unfold commit_transaction; trun.
  destruct (conn_ok env (trace s)); trun.
  - destruct (accepts env (trace s) (Exec "COMMIT")); trun.
    + reflexivity.
    + eexists; split; [reflexivity | repeat constructor].
  - exists []; rewrite app_nil_r; split; [reflexivity | constructor].
Qed.

Lemma rollback_transaction_effect env s :
  trace (snd (rollback_transaction env s)) = trace s \/
  exists b, trace (snd (rollback_transaction env s)) = (trace s ++ [(Exec "ROLLBACK", b)])%list.
Proof.
  unfold rollback_transaction; trun.
  destruct (conn_ok env (trace s)); trun; [| left; reflexivity].
  right; destruct (accepts env (trace s) (Exec "ROLLBACK")); trun; eexists; reflexivity.
Qed.

Lemma insert_trade_effect env t s :
  match insert_trade env t s with
  | (TDone true, s') => exists tr, t = Some tr /\ validate_trade (Some tr) = true /\
                          trace s' = (trace s ++ [(insert_request tr, true)])%list
  | (_, s') => exists ext, trace s' = (trace s ++ ext)%list /\ Forall rejected ext
  end.
Proof.
  unfold insert_trade; trun.
  assert (Hnil : exists ext, trace s = (trace s ++ ext)%list /\ Forall rejected ext)
    by (exists []; rewrite app_nil_r; split; [reflexivity | constructor]).
  destruct (conn_ok env (trace s)); trun; [| exact Hnil].
  destruct (validate_trade t) eqn:Hv; trun; [| exact Hnil].
  destruct t as [tr |]; [| exact Hnil].
  destruct (name tr) as [n |] eqn:En, (json_info tr) as [j |] eqn:Ej; trun; try exact Hnil.
  destruct (Nat.leb MAX_INT_STR_LEN (String.length (string_of_long (id tr)))
            || Nat.leb MAX_INT_STR_LEN (String.length (string_of_long (quantity tr)))); trun;
    [exact Hnil |].
  assert (Hrq : ExecParams insert_query insert_types
                  [string_of_long (id tr); n; string_of_long (quantity tr); j]
                = insert_request tr)
    by (unfold insert_request, trade_row; rewrite En, Ej; reflexivity).
  rewrite Hrq.
  destruct (accepts env (trace s) (insert_request tr)); trun.
  - exists tr; split; [reflexivity | split; [exact Hv | reflexivity]].
  - eexists; split; [reflexivity | repeat constructor].
Qed.

Lemma db_of_app tr ext : db_of (tr ++ ext) = fold_left db_step ext (db_of tr).
Proof. unfold db_of; apply fold_left_app. Qed.

Lemma fold_rejected ext db : Forall rejected ext -> fold_left db_step ext db = db.
Proof.
  intros H; revert db; induction H as [| [rq b] ext Hb _ IH]; intros [c p]; simpl; [reflexivity |].
  unfold rejected in Hb; simpl in Hb; subst b; apply IH.
Qed.

Lemma committed_rejected tr ext : Forall rejected ext -> committed (tr ++ ext) = committed tr.
Proof. intros H; unfold committed; rewrite db_of_app, fold_rejected by exact H; reflexivity. Qed.

Lemma nth_error_skipn {A} (l : list A) (i : nat) (x : A) :
  nth_error l i = Some x -> skipn i l = x :: skipn (S i) l.
Proof.
  revert i; induction l as [| a l IH]; intros [| i] H; simpl in *; try discriminate.
  - injection H as ->; reflexivity.
  - apply IH, H.
Qed.

Lemma batch_loop_atomic env arr i rem s c p :
  db_of (trace s) = (c, Some p) ->
  match batch_loop env arr i rem s with
  | (TDone true, s') => exists ts, firstn rem (skipn i arr) = map Some ts /\
                          List.length ts = rem /\
                          committed (trace s') = (c ++ p ++ map trade_row ts)%list
  | (_, s') => committed (trace s') = c
  end.
Proof.
  revert i s p; induction rem as [| rem IH]; intros i s p Hdb; simpl.
  - pose proof (commit_transaction_effect env s) as H.
    destruct (commit_transaction env s) as [[[|] |] s'].
    + exists []; split; [reflexivity | split; [reflexivity |]].
      unfold committed; rewrite H, db_of_app, Hdb; simpl; rewrite !app_nil_r; reflexivity.
    + destruct H as (ext & -> & Hr); rewrite committed_rejected by exact Hr.
      unfold committed; rewrite Hdb; reflexivity.
    + destruct H as (ext & -> & Hr); rewrite committed_rejected by exact Hr.
      unfold committed; rewrite Hdb; reflexivity.
  - assert (Hroll : forall s1, db_of (trace s1) = (c, Some p) ->
              committed (trace (snd (rollback_transaction env s1))) = c).
    { intros s1 H1; destruct (rollback_transaction_effect env s1) as [-> | [b ->]];
        unfold committed; [rewrite H1; reflexivity |].
      rewrite db_of_app, H1; destruct b; reflexivity. }
    unfold tbind at 1, shutdown_requested.
    destruct (shutdown_flag env (trace s)).
    + unfold tbind, tret; specialize (Hroll s Hdb).
      destruct (rollback_transaction env s) as [[? |] s']; exact Hroll.
    + destruct (nth_error arr i) as [t |] eqn:Hnth; [| unfold tcrash, committed; rewrite Hdb; reflexivity].
      pose proof (insert_trade_effect env t s) as Hins.
      unfold tbind at 1.
      destruct (insert_trade env t s) as [[[|] |] s1].
      * destruct Hins as (tr & -> & _ & Htr).
        assert (Hdb1 : db_of (trace s1) = (c, Some (p ++ [trade_row tr])%list)).
        { rewrite Htr, db_of_app, Hdb; simpl.
          reflexivity. }
        specialize (IH (S i) s1 _ Hdb1); cbn [negb].
        destruct (batch_loop env arr (S i) rem s1) as [[[|] |] s'].
        -- destruct IH as (ts & Hf & Hl & Hc); exists (tr :: ts).
           rewrite (nth_error_skipn _ _ _ Hnth); cbn [firstn map List.length].
           rewrite Hf; split; [reflexivity | split; [rewrite Hl; reflexivity |]].
           rewrite Hc, <- !app_assoc; reflexivity.
        -- exact IH.
        -- exact IH.
      * destruct Hins as (ext & Htr & Hr).
        assert (Hdb1 : db_of (trace s1) = (c, Some p))
          by (rewrite Htr, db_of_app, Hdb, fold_rejected by exact Hr; reflexivity).
        cbn [negb]; unfold tbind, tret; specialize (Hroll s1 Hdb1).
        destruct (rollback_transaction env s1) as [[? |] s']; exact Hroll.
      * destruct Hins as (ext & -> & Hr).
        rewrite committed_rejected by exact Hr; unfold committed; rewrite Hdb; reflexivity.
Qed.

Lemma batch_atomic env trades count s c :
  db_of (trace s) = (c, None) ->
  match insert_trades_batch env trades count s with
  | (TDone true, s') => exists arr ts, trades = Some arr /\ firstn count arr = map Some ts /\
                          List.length ts = count /\
                          committed (trace s') = (c ++ map trade_row ts)%list
  | (_, s') => committed (trace s') = c
  end.
Proof.
  intros Hdb; unfold insert_trades_batch, tbind at 1, PQstatus_ok.
  destruct (conn_ok env (trace s)); cbn [negb];
    [| unfold tret, committed; rewrite Hdb; reflexivity].
  destruct trades as [arr |]; [| unfold tret, committed; rewrite Hdb; reflexivity].
  destruct (Nat.eqb count 0); [unfold tret, committed; rewrite Hdb; reflexivity |].
  pose proof (begin_transaction_effect env s) as Hb.
  unfold tbind.
  destruct (begin_transaction env s) as [[[|] |] s1]; cbn [negb].
  - assert (Hdb1 : db_of (trace s1) = (c, Some [])) by (rewrite Hb, db_of_app, Hdb; reflexivity).
    pose proof (batch_loop_atomic env arr 0 count s1 c [] Hdb1) as H.
    destruct (batch_loop env arr 0 count s1) as [[[|] |] s']; [| exact H | exact H].
    destruct H as (ts & Hf & Hl & Hc); exists arr, ts; repeat split; assumption.
  - destruct Hb as (ext & Htr & Hr); unfold tret; cbv beta iota; rewrite Htr.
    rewrite committed_rejected by exact Hr; unfold committed; rewrite Hdb; reflexivity.
  - destruct Hb as (ext & Htr & Hr); rewrite Htr.
    rewrite committed_rejected by exact Hr; unfold committed; rewrite Hdb; reflexivity.
Qed.

Lemma tbind_done {A B} (m : TM A) (k : A -> TM B) s a s1 :
  m s = (TDone a, s1) -> tbind m k s = k a s1.
Proof. intros H; unfold tbind; rewrite H; reflexivity. Qed.

Lemma tbind_crash {A B} (m : TM A) (k : A -> TM B) s s1 :
  m s = (TCrashed, s1) -> tbind m k s = (TCrashed, s1).
Proof. intros H; unfold tbind; rewrite H; reflexivity. Qed.

Lemma begin_transaction_ok env s :
  conn_ok env (trace s) = true -> accepts env (trace s) (Exec "BEGIN") = true ->
  exists s1, begin_transaction env s = (TDone true, s1) /\
             trace s1 = (trace s ++ [(Exec "BEGIN", true)])%list.
Proof.
  intros Hc Ha; unfold begin_transaction; trun; rewrite Hc; trun; rewrite Ha; trun.
  eexists; split; reflexivity.
Qed.

Lemma insert_trade_rejected env t s :
  conn_ok env (trace s) = true -> validate_trade (Some t) = true ->
  (String.length (string_of_long (id t)) < MAX_INT_STR_LEN)%nat ->
  (String.length (string_of_long (quantity t)) < MAX_INT_STR_LEN)%nat ->
  accepts env (trace s) (insert_request t) = false ->
  exists s1, insert_trade env (Some t) s = (TCrashed, s1) /\
             trace s1 = (trace s ++ [(insert_request t, false)])%list.
Proof.
  intros Hc Hv Hid Hq Hrej; unfold insert_trade; trun; rewrite Hc, Hv; trun.
  unfold validate_trade in Hv.
  destruct (name t) as [nm |] eqn:En, (json_info t) as [j |] eqn:Ej; try discriminate Hv.
  apply Nat.leb_gt in Hid, Hq; rewrite Hid, Hq; trun.
  assert (Hrq : ExecParams insert_query insert_types
                  [string_of_long (id t); nm; string_of_long (quantity t); j]
                = insert_request t)
    by (unfold insert_request, trade_row; rewrite En, Ej; reflexivity).
  rewrite Hrq, Hrej; trun.
  eexists; split; reflexivity.
Qed.

(** C9 (divergence): [insert_trade] hands a rejected result to
    [handle_db_error], which clears it, and then clears it again; so when
    the server rejects an insert of the batch the run ends in a double
    [PQclear] before [rollback_transaction] is reached: no [ROLLBACK] is
    sent and [insert_trades_batch] does not return [false].  Nothing of the
    batch is committed. *)
Theorem batch_rejected_insert_double_free env arr n s t :
  (forall tr, conn_ok env tr = true) ->
  (forall tr, shutdown_flag env tr = false) ->
  accepts env (trace s) (Exec "BEGIN") = true ->
  validate_trade (Some t) = true ->
  (String.length (string_of_long (id t)) < MAX_INT_STR_LEN)%nat ->
  (String.length (string_of_long (quantity t)) < MAX_INT_STR_LEN)%nat ->
  accepts env (trace s ++ [(Exec "BEGIN", true)]) (insert_request t) = false ->
  fst (insert_trades_batch env (Some (Some t :: arr)) (S n) s) = TCrashed /\
  trace (snd (insert_trades_batch env (Some (Some t :: arr)) (S n) s))
    = (trace s ++ [(Exec "BEGIN", true); (insert_request t, false)])%list /\
  committed (trace (snd (insert_trades_batch env (Some (Some t :: arr)) (S n) s)))
    = committed (trace s).
Proof.
  intros Hconn Hsd Hbegin Hv Hid Hq Hrej.
  destruct (begin_transaction_ok env s (Hconn _) Hbegin) as (s1 & Hb & Ht1).
  rewrite <- Ht1 in Hrej.
  destruct (insert_trade_rejected env t s1 (Hconn _) Hv Hid Hq Hrej) as (s2 & Hi & Ht2).
  assert (E : insert_trades_batch env (Some (Some t :: arr)) (S n) s = (TCrashed, s2)).
  { unfold insert_trades_batch.
    rewrite (tbind_done _ _ s true s) by (unfold PQstatus_ok; rewrite Hconn; reflexivity).
    cbn [negb Nat.eqb].
    rewrite (tbind_done _ _ s true s1) by exact Hb; cbn [negb batch_loop nth_error].
    rewrite (tbind_done _ _ s1 false s1) by (unfold shutdown_requested; rewrite Hsd; reflexivity).
    apply tbind_crash, Hi. }
  rewrite E; cbn [fst snd].
  rewrite Ht2, Ht1, <- app_assoc; split; [reflexivity | split; [reflexivity |]].
  unfold committed; rewrite db_of_app; destruct (db_of (trace s)); reflexivity.
Qed.

Lemma batch_rejected_insert_double_free_witness :
  let t := mk_trade 1 (Some "Trade1") 1001 (Some "{}") in
  let arr := tl sample_trades in
  (forall tr, conn_ok (reject_env "1") tr = true) /\
  (forall tr, shutdown_flag (reject_env "1") tr = false) /\
  accepts (reject_env "1") (trace tst0) (Exec "BEGIN") = true /\
  validate_trade (Some t) = true /\
  fst (insert_trades_batch (reject_env "1") (Some (Some t :: arr)) 3 tst0) = TCrashed /\
  trace (snd (insert_trades_batch (reject_env "1") (Some (Some t :: arr)) 3 tst0))
    = (trace tst0 ++ [(Exec "BEGIN", true); (insert_request t, false)])%list /\
  committed (trace (snd (insert_trades_batch (reject_env "1") (Some (Some t :: arr)) 3 tst0)))
    = committed (trace tst0).
Proof.
  intros t arr.
  split; [intros; reflexivity |].
  split; [intros; reflexivity |].
  split; [reflexivity |].
  split; [reflexivity |].
  apply (batch_rejected_insert_double_free (reject_env "1") arr 2 tst0 t);
    [intros; reflexivity | intros; reflexivity | reflexivity | reflexivity
    | vm_compute; lia | vm_compute; lia | reflexivity].
Defined.

End TradesProofs.

(* ================================================================== *)
(** * Further properties *)

(** ** Strings and decimal widths *)

Module StringFacts.

Lemma string_of_uint_length (d : Decimal.uint) :
  String.length (NilEmpty.string_of_uint d) = Decimal.nb_digits d.
Proof. induction d; simpl; congruence. Qed.

Lemma usize_nb_digits (d : Decimal.uint) :
  DecimalPos.Unsigned.usize d = N.of_nat (Decimal.nb_digits d).
Proof. induction d; simpl; rewrite ?IHd; lia. Qed.

Ltac head_case d :=
  eexists _, d; split; [| split; [unfold Decimal.rev; simpl Decimal.revapp;
         rewrite DecimalPos.Unsigned.of_lu_revapp; simpl DecimalPos.Unsigned.of_lu;
         rewrite ?N.mul_0_r, ?N.add_0_r; reflexivity | reflexivity]]; discriminate.

Lemma to_uint_head (p : positive) :
  exists i d, i <> 0%N /\ DecimalPos.Unsigned.of_lu (Decimal.rev (Pos.to_uint p))
    = (DecimalPos.Unsigned.of_lu (Decimal.rev d) + i * 10 ^ DecimalPos.Unsigned.usize d)%N /\
    Decimal.nb_digits (Pos.to_uint p) = S (Decimal.nb_digits d).
Proof.
  assert (Hn : Decimal.unorm (Pos.to_uint p) = Pos.to_uint p).
  { rewrite <- DecimalPos.Unsigned.to_of, DecimalPos.Unsigned.of_to; reflexivity. }
  pose proof (DecimalPos.Unsigned.to_uint_nonzero p) as Hz.
  pose proof (DecimalPos.Unsigned.to_uint_nonnil p) as Hnil.
  assert (Hd0 : forall d, Pos.to_uint p <> Decimal.D0 d).
  { intros d E; rewrite E in Hn, Hz.
    unfold Decimal.unorm in Hn; simpl in Hn.
    destruct (Decimal.nzhead d) eqn:Ed;
      [injection Hn as <-; apply Hz; reflexivity | ..];
      pose proof (DecimalFacts.nb_digits_nzhead d) as Hle; rewrite Ed in Hle;
      rewrite Hn in Hle; simpl in Hle; lia. }
  destruct (Pos.to_uint p) as [| d | d | d | d | d | d | d | d | d | d];
    [congruence | destruct (Hd0 d eq_refl) | head_case d ..].
Qed.

Lemma pos_digits (p : positive) (k : nat) :
  (Npos p < 10 ^ N.of_nat k)%N -> (Decimal.nb_digits (Pos.to_uint p) <= k)%nat.
Proof.
  intros Hp.
  destruct (to_uint_head p) as (i & d & Hi & Hv & Hl).
  rewrite <- DecimalPos.Unsigned.of_uint_alt, DecimalPos.Unsigned.of_to in Hv.
  rewrite Hl; apply Nat.nlt_ge; intros Hk.
  assert (Hpow : (10 ^ N.of_nat k <= 10 ^ DecimalPos.Unsigned.usize d)%N).
  { apply N.pow_le_mono_r; [lia |]. rewrite usize_nb_digits; lia. }
  assert (10 ^ DecimalPos.Unsigned.usize d <= i * 10 ^ DecimalPos.Unsigned.usize d)%N by nia.
  lia.
Qed.

Lemma string_of_long_length_int32 (z : Z) :
  -2147483648 <= z <= 2147483647 -> (String.length (string_of_long z) <= 11)%nat.
Proof.
  intros Hz; unfold string_of_long.
  destruct z as [| p | p]; simpl; [lia | ..];
    rewrite ?string_of_uint_length; [| apply le_n_S];
    (eapply Nat.le_trans; [apply (pos_digits p 10) | lia]); simpl; lia.
Qed.

Lemma substring_length (n : nat) (s : string) :
  String.length (substring 0 n s) = Nat.min n (String.length s).
Proof. revert s; induction n as [| n IH]; intros [| c s]; simpl; auto. Qed.

Lemma substring_prefix (n : nat) (s : string) :
  exists rest, s = substring 0 n s ++ rest.
Proof.
  revert s; induction n as [| n IH]; intros [| c s]; simpl.
  - exists EmptyString; reflexivity.
  - exists (String c s); reflexivity.
  - exists EmptyString; reflexivity.
  - destruct (IH s) as [rest Hr]; exists rest; rewrite Hr at 1; reflexivity.
Qed.

Lemma substring_all (n : nat) (s : string) :
  (String.length s <= n)%nat -> substring 0 n s = s.
Proof.
  revert s; induction n as [| n IH]; intros [| c s]; simpl; intros H; auto; try lia.
  rewrite IH by lia; reflexivity.
Qed.

Lemma string_app_length (a b : string) :
  String.length (a ++ b) = (String.length a + String.length b)%nat.
Proof. induction a; simpl; auto. Qed.

Lemma snprintf_buf_spec (size : nat) (full : string) :
  (String.length (snprintf_buf size full) <= size - 1)%nat /\
  (exists rest, full = snprintf_buf size full ++ rest) /\
  ((String.length full < size)%nat -> snprintf_buf size full = full).
Proof.
  destruct size as [| n]; simpl.
  - split; [lia | split; [exists full; reflexivity | lia]].
  - rewrite substring_length; split; [lia | split; [apply substring_prefix |]].
    intros H; apply substring_all; lia.
Qed.


End StringFacts.

(** ** The test harness *)

Module HarnessProofs.
Import StringFacts.

(** X2: [test_transit_json_encoding] sends nothing to the server and always
    passes: it only builds transit strings locally and checks them. *)
Theorem transit_json_encoding_passes s : test_transit_json_encoding s = (Done tt, mkSt (passed s + 1) (failed s) (sent s)).
Proof. destruct s; reflexivity. Qed.

(** X3: [test_transit_json_format] sends only its [INSERT] and, after it, its
    [SELECT]; the transit string it builds is never sent, and the local
    check on it never fails the case. *)
Theorem transit_json_format_requests srv now rnd s :
  exists k, (1 <= k)%nat /\
  sent (snd (test_transit_json_format srv now rnd s))
  = (sent s ++ firstn k
       [Exec ("INSERT INTO " ++ get_clean_table now rnd ++
              " RECORDS {_id: 'transit1', name: 'Transit User', age: 42, active: true}");
        Exec ("SELECT _id, name, age FROM " ++ get_clean_table now rnd ++ " WHERE _id = 'transit1'")])%list.
Proof.
  cbv beta delta [test_transit_json_format bind PQexec send ASSERT ASSERT_EQ_STR status_is ret crash strcat_cap PASS].
  cbv zeta. 
  match goal with |- context [if ?b then _ else _] => let E := fresh in destruct b eqn:E; [vm_compute in E; discriminate E|] end.
  cbv beta iota.
  match goal with |- context [if ?b then _ else _] => let E := fresh in destruct b eqn:E; [|vm_compute in E; discriminate E] end.
  cases_goal; cbn [fst snd sent]; (exists 1%nat; split; [lia| reflexivity]) || (exists 2%nat; split; [lia| rewrite <- app_assoc; reflexivity]).
Qed.

Ltac run_server Hsrv :=
  cbv beta delta [test_connection test_insert_and_query test_where_clause test_count_query
    test_parameterized_query test_json_records test_load_sample_json
    test_nested_data_roundtrip test_transit_json_format strcat_cap
    bind PQexec PQexecParams1 send ASSERT ASSERT_EQ_STR ASSERT_EQ_INT status_is ret crash strstr PASS];
  cbv beta zeta; cbv -[srv_result get_clean_table];
  repeat (match goal with |- context [srv_result ?sv ?h ?rq] => rewrite (Hsrv h rq) end;
          cbv -[srv_result get_clean_table]); cbv -[srv_result get_clean_table]; reflexivity.

(** X6: against a server that accepts every command and answers every
    [SELECT] with zero rows, the cases that index into the first row
    ([count_query], [parameterized_query], [json_records],
    [transit_json_format]) read past the result (a crash), and the cases
    that check a row count or a non-empty reply first fail an assertion
    and return. *)
Theorem empty_select_server_outcomes (srv : Server) now rnd s :
  (forall h rq, srv_result srv h rq = empty_select_reply rq) ->
  fst (test_count_query srv now rnd s) = Crashed /\
  fst (test_parameterized_query srv now rnd s) = Crashed /\
  fst (test_json_records srv now rnd s) = Crashed /\
  fst (test_transit_json_format srv now rnd s) = Crashed /\
  fst (test_connection srv s) = Returned /\
  fst (test_insert_and_query srv now rnd s) = Returned /\
  fst (test_where_clause srv now rnd s) = Returned /\
  fst (test_load_sample_json srv now rnd s) = Returned /\
  fst (test_nested_data_roundtrip srv now rnd s) = Returned.
Proof.
  intros Hsrv; repeat split; run_server Hsrv.
Qed.

(** X4: [test_where_clause] never crashes, and it passes exactly when the
    insert returns [PGRES_COMMAND_OK] and the filtered [SELECT] returns
    [PGRES_TUPLES_OK] with two rows; otherwise it fails and returns. *)
Theorem where_clause_outcome (srv : Server) now rnd s :
  let table := get_clean_table now rnd in
  let ins := Exec ("INSERT INTO " ++ table ++ " (_id, age) VALUES (1, 25), (2, 35), (3, 45)") in
  let sel := Exec ("SELECT _id FROM " ++ table ++ " WHERE age > 30 ORDER BY _id") in
  let r1 := srv_result srv (sent s) ins in
  let r2 := srv_result srv (sent s ++ [ins]) sel in
  fst (test_where_clause srv now rnd s) <> Crashed /\
  (fst (test_where_clause srv now rnd s) = Done tt <->
   PQresultStatus r1 = PGRES_COMMAND_OK /\ PQresultStatus r2 = PGRES_TUPLES_OK /\ PQntuples r2 = 2).
Proof.
  intros table ins sel r1 r2.
  unfold test_where_clause, bind, PQexec, send, ASSERT, ASSERT_EQ_INT, status_is, PASS.
  fold table ins sel r1; cbn [sent passed failed]; fold r2.
  destruct (ExecStatusType_beq (PQresultStatus r1) PGRES_COMMAND_OK) eqn:E1; cbv beta iota;
    [| facts; cbn [fst]; split; [discriminate | split; [discriminate | intros (H1 & _); congruence]]].
  cbn [sent]; fold r2.
  destruct (ExecStatusType_beq (PQresultStatus r2) PGRES_TUPLES_OK) eqn:E2; cbv beta iota;
    [| facts; cbn [fst]; split; [discriminate | split; [discriminate | intros (_ & H2 & _); congruence]]].
  destruct (PQntuples r2 =? 2) eqn:E3; cbv beta iota; facts; cbn [fst];
    (split; [discriminate | split]); auto; [discriminate | intros (_ & _ & H3); congruence].
Qed.

(** X5: [test_transit_json_copy_from] without its fixture file fails and
    sends nothing; with it, the requests it sends are a prefix of
    [COPY ... FROM STDIN], the file's bytes, the end of the copy, the
    result, the row count and the select of alice's columns. *)
Theorem transit_json_copy_from_requests (srv : Server) fs now rnd s :
  let table := get_clean_table now rnd in
  match fs sample_users_transit with
  | None => test_transit_json_copy_from srv fs now rnd s
            = (Returned, mkSt (passed s) (failed s + 1) (sent s))
  | Some data =>
      exists k, sent (snd (test_transit_json_copy_from srv fs now rnd s))
        = (sent s ++ firstn k
             [Exec (transit_json_copy_sql table); PutCopyData data; PutCopyEnd; GetResult;
              Exec (count_sql table); Exec (alice_copy_columns_sql table)])%list
  end.
Proof.
  intros table.
  unfold test_transit_json_copy_from, contents; fold table.
  destruct (fs sample_users_transit) as [data |]; [| reflexivity].
  cbv beta zeta delta [bind PQexec send send_int PQputCopyData PQputCopyEnd PQgetResult ASSERT
    ASSERT_EQ_STR status_is ret crash PASS is_some].
  rewrite Z.eqb_refl.
  cases_goal; cbn [fst snd sent];
  first [ exists 0%nat; rewrite app_nil_r; reflexivity
        | exists 1%nat; reflexivity
        | exists 2%nat; rewrite <- app_assoc; reflexivity
        | exists 3%nat; rewrite <- !app_assoc; reflexivity
        | exists 4%nat; rewrite <- !app_assoc; reflexivity
        | exists 5%nat; rewrite <- !app_assoc; reflexivity
        | exists 6%nat; rewrite <- !app_assoc; reflexivity ].
Qed.

(** X7: when the connection succeeds and [main] returns, the fifteen cases
    ran in turn without a crash and each added exactly one pass or one
    failure ([ss] lists the counters after each case), so the counters sum
    to 15, and the exit status is 0 exactly when no case failed, 1
    otherwise. *)
Theorem xtdb_main_exit (srv : Server) fs clock e s :
  xtdb_main srv fs true clock = (Some e, s) ->
  (exists ss, case_states (all_cases srv fs clock) (mkSt 0 0 []) ss /\
              List.last ss (mkSt 0 0 []) = s) /\
  passed s + failed s = 15 /\ (e = 0 <-> failed s = 0) /\ (e = 1 <-> 0 < failed s).
Proof.
  unfold xtdb_main; cbn [negb].
  destruct (run_tests (all_cases srv fs clock) (mkSt 0 0 [])) as [[|] s1] eqn:E; [discriminate |].
  intros H; injection H as <- <-.
  split; [exact (run_tests_chain _ _ _ (all_cases_count_once srv fs clock) E) |].
  pose proof (run_tests_counts _ _ _ (all_cases_count_once srv fs clock) E) as Hc.
  change (Z.of_nat (List.length (all_cases srv fs clock))) with 15 in Hc; cbn [passed failed] in Hc.
  unfold exit_code; destruct (0 <? failed s1) eqn:F; [apply Z.ltb_lt in F | apply Z.ltb_ge in F];
    repeat split; intros; lia.
Qed.

Lemma empty_select_server_outcomes_witness :
  let srv := mkServer (fun _ rq => empty_select_reply rq) (fun _ _ => 0) in
  (forall h rq, srv_result srv h rq = empty_select_reply rq) /\
  fst (test_count_query srv 1700000000 42 (mkSt 0 0 [])) = Crashed /\
  fst (test_where_clause srv 1700000000 42 (mkSt 0 0 [])) = Returned.
Proof.
  intros srv.
  assert (H : forall h rq, srv_result srv h rq = empty_select_reply rq) by (intros; reflexivity).
  split; [exact H |].
  split; [exact (proj1 (empty_select_server_outcomes srv 1700000000 42 (mkSt 0 0 []) H)) |].
  exact (proj1 (proj2 (proj2 (proj2 (proj2 (proj2 (proj2
           (empty_select_server_outcomes srv 1700000000 42 (mkSt 0 0 []) H)))))))).
Defined.

Lemma xtdb_main_exit_witness :
  let clock := fun i : nat => (1700000000, Z.of_nat i) in
  let s := snd (xtdb_main good_server sample_fs true clock) in
  xtdb_main good_server sample_fs true clock = (Some 1, s) /\
  (exists ss, case_states (all_cases good_server sample_fs clock) (mkSt 0 0 []) ss /\
              List.last ss (mkSt 0 0 []) = s) /\
  passed s + failed s = 15 /\ (1 = 0 <-> failed s = 0) /\ (1 = 1 <-> 0 < failed s).
Proof.
  intros clock s.
  assert (H : xtdb_main good_server sample_fs true clock = (Some 1, s)) by (vm_compute; reflexivity).
  split; [exact H | exact (xtdb_main_exit good_server sample_fs clock 1 s H)].
Defined.

End HarnessProofs.

(** ** [trades.c]: logging, options, connection, trades and [main] *)

Module TradesCliProofs.
Import Trades TradesCli TradesProofs StringFacts.

Lemma header_short (ct : string) (lvl : log_level_t) :
  (String.length ("[" ++ substring 0 24 ct ++ "] [" ++ level_str lvl ++ "] ") <= 36)%nat.
Proof.
  rewrite !string_app_length, substring_length.
  pose proof (Nat.le_min_l 24 (String.length ct)).
  destruct lvl; cbn [level_str String.length]; lia.
Qed.

(** X9: a message at or below the current level gives one line
    [[timestamp] [LEVEL] ] followed by a prefix of the text, at most 2047
    bytes in all, the whole text when header and text fit in the 2048-byte
    buffer; errors and warnings go to stderr, the others to stdout; a
    truncation notice on stderr comes first when they do not fit. *)
Theorem log_message_written (current level : log_level_t) (ct text : string) :
  (level_value level <= level_value current)%nat ->
  let header := "[" ++ substring 0 24 ct ++ "] [" ++ level_str level ++ "] " in
  exists shown rest,
    text = shown ++ rest /\
    (String.length (header ++ shown) <= LOG_BUF_SIZE - 1)%nat /\
    ((String.length header + String.length text < LOG_BUF_SIZE)%nat -> rest = EmptyString) /\
    log_message current level ct text =
      List.app (if Nat.leb LOG_BUF_SIZE (String.length header + String.length text)
                then [(stderr, truncated_notice)] else [])
        [(match level with LOG_ERROR | LOG_WARN => stderr | _ => stdout end, header ++ shown)].
Proof.
  intros Hl header.
  pose proof (header_short ct level) as Hh; fold header in Hh.
  destruct (snprintf_buf_spec (LOG_BUF_SIZE - String.length header) text) as (H1 & (rest & H2) & H3).
  exists (snprintf_buf (LOG_BUF_SIZE - String.length header) text), rest.
  split; [exact H2 |].
  split; [rewrite string_app_length; unfold LOG_BUF_SIZE in *; lia |].
  split.
  - intros Hlt. rewrite H3 in H2 by (unfold LOG_BUF_SIZE in *; lia).
    destruct rest as [| c r]; [reflexivity |].
    apply (f_equal String.length) in H2; rewrite string_app_length in H2; simpl in H2; lia.
  - unfold log_message.
    apply Nat.ltb_ge in Hl; rewrite Hl; cbv zeta; fold header.
    assert (E : Nat.leb LOG_BUF_SIZE (String.length header) = false)
      by (apply Nat.leb_gt; unfold LOG_BUF_SIZE; lia).
    rewrite E; reflexivity.
Qed.

(** X10: over the values [getopt_long] can return for ["h:p:d:u:w:vq?"],
    the option loop leaves [main] only on ['?'] (help and unknown options),
    and then with [EXIT_SUCCESS]: the [EXIT_INVALID_ARGS] branch is never
    taken. *)
Theorem parse_options_exit (opts : list (ascii * string)) (o : options) :
  Forall (fun p => In (fst p) optstring_chars) opts ->
  (forall code, parse_options opts o = inl code -> code = EXIT_SUCCESS) /\
  ((exists code, parse_options opts o = inl code) <-> In "?"%char (map fst opts)).
Proof.
  intros H; revert o; induction H as [| [c arg] opts Hc _ IH]; intros o; simpl.
  - split; [discriminate | split; [intros [? ?]; discriminate | intros []]].
  - simpl in Hc; unfold optstring_chars in Hc; simpl in Hc.
    destruct Hc as [<- | [<- | [<- | [<- | [<- | [<- | [<- | [<- | []]]]]]]]]; simpl;
      try (edestruct IH as [IH1 IH2]; split; [exact IH1 | rewrite IH2;
             split; [intros H'; right; exact H' | intros [E | H']; [discriminate E | exact H']]]).
    split; [intros code Hc; injection Hc as <-; reflexivity | split; [intros _; left; reflexivity | intros _; eexists; reflexivity]].
Qed.

Lemma fold_append_none (fs : list (option string)) :
  fold_left append_option fs None = None.
Proof. induction fs; simpl; auto. Qed.

Lemma str_app_nil_r (s : string) : s ++ EmptyString = s.
Proof. induction s; simpl; congruence. Qed.

Lemma str_app_assoc (a b c : string) : a ++ b ++ c = (a ++ b) ++ c.
Proof. induction a; simpl; congruence. Qed.

Lemma append_option_some (buf f : string) (pos : nat) :
  append_option (Some (buf, pos)) (Some f) =
    if Nat.leb pos CONNECTION_STRING_SIZE
    then Some (buf ++ snprintf_buf (CONNECTION_STRING_SIZE - pos) f, pos + String.length f)%nat
    else None.
Proof. reflexivity. Qed.

Lemma fold_append_fits (fs : list (option string)) (buf : string) :
  (String.length buf + String.length (frag_text fs) <= 1023)%nat ->
  fold_left append_option fs (Some (buf, String.length buf))
    = Some (buf ++ frag_text fs, String.length (buf ++ frag_text fs)).
Proof.
  revert buf; induction fs as [| [f |] fs IH]; intros buf H; cbn [fold_left] in *.
  - unfold frag_text; cbn [fold_right]; rewrite str_app_nil_r; reflexivity.
  - unfold frag_text in *; cbn [fold_right] in *; fold (frag_text fs) in *.
    rewrite string_app_length in H.
    rewrite append_option_some.
    assert (Hle : Nat.leb (String.length buf) CONNECTION_STRING_SIZE = true)
      by (apply Nat.leb_le; unfold CONNECTION_STRING_SIZE; lia).
    rewrite Hle.
    destruct (snprintf_buf_spec (CONNECTION_STRING_SIZE - String.length buf) f) as (_ & _ & H3).
    rewrite H3 by (unfold CONNECTION_STRING_SIZE; lia).
    rewrite <- string_app_length, IH by (rewrite string_app_length; lia).
    rewrite str_app_assoc; reflexivity.
  - apply IH; exact H.
Qed.

Lemma snprintf_buf_length (size : nat) (f : string) :
  String.length (snprintf_buf size f) = Nat.min (size - 1) (String.length f).
Proof. destruct size as [| n]; simpl; [reflexivity | rewrite substring_length, Nat.sub_0_r; reflexivity]. Qed.

Lemma fold_append_length (fs : list (option string)) (buf : string) (pos : nat) buf' pos' :
  String.length buf = Nat.min pos 1023 ->
  fold_left append_option fs (Some (buf, pos)) = Some (buf', pos') ->
  String.length buf' = Nat.min pos' 1023 /\ (pos <= pos')%nat.
Proof.
  revert buf pos; induction fs as [| [f |] fs IH]; intros buf pos Hb H; cbn [fold_left] in H.
  - injection H as <- <-; split; [exact Hb | lia].
  - rewrite append_option_some in H.
    destruct (Nat.leb pos CONNECTION_STRING_SIZE) eqn:E;
      [| rewrite fold_append_none in H; discriminate].
    apply Nat.leb_le in E; unfold CONNECTION_STRING_SIZE in *.
    apply IH in H; [lia |].
    rewrite string_app_length, Hb, snprintf_buf_length; lia.
  - apply (IH buf pos Hb H).
Qed.

(** X11: when the [key=value ] fragments of the options set fit in
    [char connection_string[1024]], the connection string is those
    fragments in the order host, port, dbname, user, password, or the
    default parameters when no option is set. *)
Theorem connection_string_built (o : options) :
  (String.length (frag_text (fragments o)) <= 1023)%nat ->
  build_connection_string o =
    Some (if String.eqb (frag_text (fragments o)) EmptyString then DEFAULT_DB_PARAMS
          else frag_text (fragments o)).
Proof.
  intros H; unfold build_connection_string.
  pose proof (fold_append_fits (fragments o) EmptyString H) as E.
  cbn [String.length String.append] in E; rewrite E.
  destruct (frag_text (fragments o)) as [| c t]; reflexivity.
Qed.

(** X12: a connection string [main] builds never exceeds 1023 bytes. *)
Theorem connection_string_bounded (o : options) (cs : string) :
  build_connection_string o = Some cs -> (String.length cs <= 1023)%nat.
Proof.
  unfold build_connection_string.
  destruct (fold_left append_option (fragments o) (Some (EmptyString, 0%nat)))
    as [[buf pos] |] eqn:E; [| discriminate].
  apply fold_append_length in E; [| reflexivity].
  destruct (Nat.eqb pos 0); intros H; injection H as <-; [cbn | ]; lia.
Qed.

Lemma append_option_none_r (acc : option (string * nat)) : append_option acc None = acc.
Proof. destruct acc as [[? ?] |]; reflexivity. Qed.

(** X13: a host of 1019 bytes or more pushes [pos] past the 1024-byte buffer,
    and the next option then writes past it (undefined behaviour). *)
Theorem connection_string_overflow (o : options) (h : string) :
  host o = Some h -> (1019 <= String.length h)%nat ->
  (port o <> None \/ dbname o <> None \/ user o <> None \/ password o <> None) ->
  build_connection_string o = None.
Proof.
  intros Hh Hl Hlater; unfold build_connection_string, fragments; rewrite Hh.
  unfold option_fragment at 1; cbn [fold_left]; rewrite append_option_some.
  change (Nat.leb 0 CONNECTION_STRING_SIZE) with true; cbv iota.
  set (buf := EmptyString ++ _).
  assert (Hpos : Nat.leb (0 + String.length ("host" ++ "=" ++ h ++ " ")) CONNECTION_STRING_SIZE = false)
    by (apply Nat.leb_gt; rewrite !string_app_length; cbn [String.length];
        unfold CONNECTION_STRING_SIZE; lia).
  destruct (port o) as [p |]; cbn [option_fragment fold_left];
    [rewrite ?append_option_none_r, append_option_some, Hpos; cbv iota; reflexivity |].
  destruct (dbname o) as [d |]; cbn [option_fragment fold_left];
    [rewrite ?append_option_none_r, append_option_some, Hpos; cbv iota; reflexivity |].
  destruct (user o) as [u |]; cbn [option_fragment fold_left];
    [rewrite ?append_option_none_r, append_option_some, Hpos; cbv iota; reflexivity |].
  destruct (password o) as [w |]; cbn [option_fragment fold_left];
    [rewrite ?append_option_none_r, append_option_some, Hpos; reflexivity |].
  intuition congruence.
Qed.

Lemma disconnect_db_inv st : conn_inv st -> conn_inv (disconnect_db st) /\ global_conn (disconnect_db st) = None.
Proof.
  unfold conn_inv, disconnect_db, PQfinish; intros H; destruct (global_conn st) as [c |] eqn:G; simpl.
  - rewrite H; simpl; destruct (Nat.eq_dec c c); [split; reflexivity | congruence].
  - rewrite G; split; [exact H | reflexivity].
Qed.

Lemma connect_db_inv (status_ok : nat -> string -> bool) (cs : string) (st : conn_state) :
  conn_inv st ->
  conn_inv (snd (connect_db status_ok cs st)) /\
  (fst (connect_db status_ok cs st) = true <-> global_conn (snd (connect_db status_ok cs st)) <> None).
Proof.
  intros H.
  destruct (disconnect_db_inv st H) as [Hd Hg].
  assert (Hc : forall st1, conn_inv st1 -> global_conn st1 = None ->
            conn_inv (snd (connect_db status_ok cs st1)) /\
            (fst (connect_db status_ok cs st1) = true <->
             global_conn (snd (connect_db status_ok cs st1)) <> None)).
  { intros st1 H1 G1; unfold connect_db; rewrite G1; unfold PQconnectdb, conn_inv in *; simpl.
    rewrite G1 in H1; rewrite H1.
    destruct (status_ok (next_conn st1) cs); simpl.
    - split; [reflexivity | split; [congruence | reflexivity]].
    - destruct (Nat.eq_dec (next_conn st1) (next_conn st1)); [| congruence].
      split; [reflexivity | split; [discriminate | intros []; reflexivity]]. }
  destruct (global_conn st) eqn:G; [| exact (Hc _ H G)].
  assert (E : connect_db status_ok cs st = connect_db status_ok cs (disconnect_db st))
    by (unfold connect_db at 1 2; rewrite G, Hg; reflexivity).
  rewrite E; exact (Hc _ Hd Hg).
Qed.

Lemma cleanup_inv (st : conn_state) :
  conn_inv st -> global_conn (cleanup st) = None /\ open_conns (cleanup st) = [].
Proof.
  intros H; destruct (disconnect_db_inv st H) as [Hd Hg]; unfold cleanup.
  split; [exact Hg | rewrite Hd, Hg; reflexivity].
Qed.

(** X14: [global_conn] is the only open connection, if any: [connect_db]
    keeps this, returns [true] exactly when it leaves a connection in
    [global_conn], and [disconnect_db] and [cleanup] close it and leave
    [global_conn] NULL. *)
Theorem connection_lifecycle (status_ok : nat -> string -> bool) (cs : string) (st : conn_state) :
  conn_inv st ->
  conn_inv (snd (connect_db status_ok cs st)) /\
  (fst (connect_db status_ok cs st) = true <-> global_conn (snd (connect_db status_ok cs st)) <> None) /\
  conn_inv (disconnect_db st) /\
  global_conn (cleanup st) = None /\ open_conns (cleanup st) = [].
Proof.
  intros H.
  destruct (connect_db_inv status_ok cs st H) as [H1 H2].
  destruct (cleanup_inv st H) as [H3 H4].
  split; [exact H1 | split; [exact H2 | split; [exact (proj1 (disconnect_db_inv st H)) | split; [exact H3 | exact H4]]]].
Qed.

Lemma remove_fresh (b : nat) (l : list nat) :
  Forall (fun x => (x < b)%nat) l -> remove Nat.eq_dec b l = l.
Proof.
  intros H; apply notin_remove; intros Hin.
  rewrite Forall_forall in H; specialize (H b Hin); lia.
Qed.

(** X15: [trade_create] with a NULL name or JSON text allocates nothing;
    when it fails later it frees what it allocated (the heap is as before);
    when it succeeds it returns the trade with three fresh distinct
    blocks, valid exactly when its quantity is positive, and
    [trade_destroy] frees exactly those three blocks. *)
Theorem trade_create_destroy malloc_ok id nm q js h :
  Forall (fun b => (b < mallocs h)%nat) (blocks h) ->
  ((nm = None \/ js = None) -> trade_create malloc_ok id nm q js h = (None, h)) /\
  match trade_create malloc_ok id nm q js h with
  | (None, h') => blocks h' = blocks h
  | (Some (t, (b, bn, bj)), h') =>
      (exists n j, nm = Some n /\ js = Some j /\ t = mk_trade id (Some n) q (Some j)) /\
      validate_trade (Some t) = (0 <? q) /\
      NoDup [b; bn; bj] /\ Forall (fun x => ~ In x (blocks h)) [b; bn; bj] /\
      blocks h' = bj :: bn :: b :: blocks h /\
      blocks (trade_destroy (Some (t, (b, bn, bj))) h') = blocks h
  end.
Proof.
  intros Hf; split.
  { intros [-> | ->]; [reflexivity | destruct nm; reflexivity]. }
  unfold trade_create, strdup, malloc.
  destruct nm as [n |]; [| exact eq_refl].
  destruct js as [j |]; [| exact eq_refl].
  destruct h as [bl m]; cbn [blocks mallocs] in *.
  destruct (malloc_ok m); cbv beta iota; cbn [blocks mallocs]; [| reflexivity].
  destruct (malloc_ok (S m)); cbv beta iota; cbn [blocks mallocs].
  - destruct (malloc_ok (S (S m))); cbv beta iota; cbn [blocks mallocs free trade_destroy].
    + split; [exists n, j; repeat split |].
      split; [reflexivity |].
      split; [repeat constructor; simpl; intros Hin; repeat destruct Hin as [Hin | Hin]; lia |].
      split; [rewrite Forall_forall in Hf; repeat constructor; intros Hin; specialize (Hf _ Hin); lia |].
      * split; [reflexivity |].
        cbn [remove]; destruct (Nat.eq_dec (S m) (S (S m))); [lia |].
        destruct (Nat.eq_dec (S m) (S m)); [| congruence].
        destruct (Nat.eq_dec (S m) m); [lia |].
        rewrite (remove_fresh (S m) bl) by (eapply Forall_impl; [| exact Hf]; cbn; lia).
        cbn [remove]; destruct (Nat.eq_dec (S (S m)) (S (S m))); [| congruence].
        destruct (Nat.eq_dec (S (S m)) m); [lia |].
        rewrite (remove_fresh (S (S m)) bl) by (eapply Forall_impl; [| exact Hf]; cbn; lia).
        cbn [remove]; destruct (Nat.eq_dec m m); [| congruence].
        apply remove_fresh, Hf.
    + cbn [free blocks remove].
      destruct (Nat.eq_dec (S m) (S m)); [| congruence].
      destruct (Nat.eq_dec (S m) m); [lia |].
      rewrite (remove_fresh (S m) bl) by (eapply Forall_impl; [| exact Hf]; cbn; lia).
      cbn [remove]; destruct (Nat.eq_dec m m); [| congruence].
      apply remove_fresh, Hf.
  - cbn [free blocks remove]; destruct (Nat.eq_dec m m); [| congruence].
    apply remove_fresh, Hf.
Qed.


Lemma filter_fresh (n : nat) (l : list nat) :
  Forall (fun h => (h < n)%nat) l -> filter (fun h => negb (Nat.eqb n h)) (n :: l) = l.
Proof.
  intros H; cbn [filter]; rewrite Nat.eqb_refl; cbn [negb].
  induction H as [| x l Hx _ IH]; [reflexivity |].
  cbn [filter]; destruct (Nat.eqb n x) eqn:E; [apply Nat.eqb_eq in E; lia |].
  cbn [negb]; rewrite IH; reflexivity.
Qed.

Lemma transaction_eq env s f sql :
  In (f, sql) [(begin_transaction env, "BEGIN"); (commit_transaction env, "COMMIT");
               (rollback_transaction env, "ROLLBACK")] ->
  Forall (fun h => (h < next_res s)%nat) (live s) ->
  f s = if conn_ok env (trace s) then
          (if accepts env (trace s) (Exec sql) then TDone true else TCrashed,
           mkTSt (trace s ++ [(Exec sql, accepts env (trace s) (Exec sql))]) (live s) (S (next_res s)))
        else (TDone false, s).
Proof.
  intros Hin Hf.
  destruct Hin as [E | [E | [E | []]]]; injection E as <- <-;
    unfold begin_transaction, commit_transaction, rollback_transaction; trun;
    (destruct (conn_ok env (trace s)); trun; [| reflexivity]);
    match goal with |- context [accepts env (trace s) ?rq] => destruct (accepts env (trace s) rq) end;
    trun; rewrite filter_fresh by exact Hf; reflexivity.
Qed.


Lemma int32_str_fits (z : Z) :
  -2147483648 <= z <= 2147483647 -> Nat.leb MAX_INT_STR_LEN (String.length (string_of_long z)) = false.
Proof.
  intros Hz; apply Nat.leb_gt; pose proof (string_of_long_length_int32 z Hz).
  unfold MAX_INT_STR_LEN; lia.
Qed.

Lemma insert_trade_eq env tr s :
  Forall (fun h => (h < next_res s)%nat) (live s) ->
  -2147483648 <= id tr <= 2147483647 -> -2147483648 <= quantity tr <= 2147483647 ->
  insert_trade env None s = (TDone false, s) /\
  insert_trade env (Some tr) s =
    if conn_ok env (trace s) && validate_trade (Some tr) then
      (if accepts env (trace s) (insert_request tr) then TDone true else TCrashed,
       mkTSt (trace s ++ [(insert_request tr, accepts env (trace s) (insert_request tr))])
             (live s) (S (next_res s)))
    else (TDone false, s).
Proof.
  intros Hf Hid Hq; split.
  { unfold insert_trade; trun; destruct (conn_ok env (trace s)); reflexivity. }
  unfold insert_trade; trun.
  destruct (conn_ok env (trace s)); trun; [| reflexivity].
  destruct (validate_trade (Some tr)) eqn:Hv; trun; [| reflexivity].
  cbn [andb].
  unfold validate_trade in Hv.
  destruct (name tr) as [n |] eqn:En, (json_info tr) as [j |] eqn:Ej; try discriminate Hv.
  rewrite (int32_str_fits _ Hid), (int32_str_fits _ Hq); trun.
  assert (Hrq : ExecParams insert_query insert_types
                  [string_of_long (id tr); n; string_of_long (quantity tr); j]
                = insert_request tr)
    by (unfold insert_request, trade_row; rewrite En, Ej; reflexivity).
  rewrite Hrq.
  destruct (accepts env (trace s) (insert_request tr)); trun;
    rewrite filter_fresh by exact Hf; reflexivity.
Qed.


Lemma log_rows_live (res : PGresult) (i rem : nat) (s : TSt) :
  is_live (res_handle res) s = true -> log_rows res i rem s = (TDone tt, s).
Proof.
  intros H; revert i; induction rem as [| rem IH]; intros i; [reflexivity |].
  cbn [log_rows]; unfold tbind, PQgetvalue; rewrite H; cbv beta iota; rewrite H; cbv beta iota;
    rewrite H; cbv beta iota; rewrite H; cbv beta iota; apply IH.
Qed.

(** X18: [get_trades_over_quantity] with a broken connection or a negative
    threshold sends nothing; otherwise it sends the one [SELECT] with the
    threshold in decimal.  When the server accepts it, the rows are read
    and the result is cleared (no result left live); when the server
    rejects it, [handle_db_error] clears the result and the code clears it
    again: a double [PQclear]. *)
Theorem get_trades_over_quantity_behaviour env ntuples q s :
  Forall (fun h => (h < next_res s)%nat) (live s) ->
  q <= 2147483647 ->
  get_trades_over_quantity env ntuples q s =
    if conn_ok env (trace s) && (0 <=? q) then
      (if accepts env (trace s) (ExecParams select_query [23] [string_of_long q])
       then TDone tt else TCrashed,
       mkTSt (trace s ++ [(ExecParams select_query [23] [string_of_long q],
                           accepts env (trace s) (ExecParams select_query [23] [string_of_long q]))])
             (live s) (S (next_res s)))
    else (TDone tt, s).
Proof.
  intros Hf Hq.
  unfold get_trades_over_quantity; trun.
  destruct (conn_ok env (trace s)); trun; [| reflexivity].
  destruct (q <? 0) eqn:Hneg; cbn [andb].
  - apply Z.ltb_lt in Hneg; destruct (0 <=? q) eqn:E; [apply Z.leb_le in E; lia |].
    trun; reflexivity.
  - apply Z.ltb_ge in Hneg; destruct (0 <=? q) eqn:E; [| apply Z.leb_gt in E; lia].
    rewrite int32_str_fits by lia; trun.
    destruct (accepts env (trace s) (ExecParams select_query [23] [string_of_long q])); trun.
    + unfold PQntuples; rewrite is_live_new; cbv beta iota.
      rewrite log_rows_live by apply is_live_new; cbv beta iota; trun.
      rewrite filter_fresh by exact Hf; reflexivity.
    + rewrite filter_fresh by exact Hf; reflexivity.
Qed.


Lemma skipn_cons_inv {A} (l : list A) (i : nat) (x : A) (r : list A) :
  skipn i l = x :: r -> nth_error l i = Some x /\ skipn (S i) l = r.
Proof.
  revert i; induction l as [| a l IH]; intros [| i] H; cbn [skipn nth_error] in *;
    try discriminate.
  - injection H as -> ->; split; reflexivity.
  - apply IH, H.
Qed.

Lemma batch_loop_accepted env arr i ts rest s :
  (forall tr, conn_ok env tr = true) -> (forall tr, shutdown_flag env tr = false) ->
  (forall tr rq, accepts env tr rq = true) ->
  Forall (fun h => (h < next_res s)%nat) (live s) ->
  Forall (fun t => validate_trade (Some t) = true /\ -2147483648 <= id t <= 2147483647 /\
                   -2147483648 <= quantity t <= 2147483647) ts ->
  skipn i arr = (map Some ts ++ rest)%list ->
  batch_loop env arr i (List.length ts) s =
    (TDone true, mkTSt (trace s ++ map (fun t => (insert_request t, true)) ts ++ [(Exec "COMMIT", true)])
                       (live s) (next_res s + List.length ts + 1)).
Proof.
  intros Hc Hsd Ha; revert i s; induction ts as [| t ts IH]; intros i s Hf Hv Hsk.
  - cbn [List.length batch_loop map].
    rewrite (transaction_eq env s _ "COMMIT") by (simpl; auto).
    rewrite Hc, Ha; f_equal; f_equal; lia.
  - inversion Hv as [| ? ? (Hvt & Hid & Hq) Hv']; subst.
    cbn [map List.app] in Hsk; apply skipn_cons_inv in Hsk as [Hnth Hsk].
    cbn [List.length batch_loop].
    rewrite (tbind_done _ _ s false s) by (unfold shutdown_requested; rewrite Hsd; reflexivity).
    rewrite Hnth.
    rewrite (tbind_done _ _ s true (mkTSt (trace s ++ [(insert_request t, true)]) (live s) (S (next_res s))))
      by (rewrite (proj2 (insert_trade_eq env t s Hf Hid Hq)), Hc, Hvt, Ha; reflexivity).
    cbn [negb].
    rewrite (IH (S i)); [| cbn [live next_res]; eapply Forall_impl; [| exact Hf]; cbn; lia
                       | exact Hv' | exact Hsk].
    cbn [trace live next_res map List.length]; rewrite <- app_assoc; f_equal; f_equal; lia.
Qed.

(** X19: a batch of valid trades on a healthy connection, with no shutdown
    request and a server that accepts everything, sends [BEGIN], one insert
    per trade in order, and [COMMIT], returns [true] and leaves no result
    live. *)
Theorem batch_all_accepted env ts rest s :
  (forall tr, conn_ok env tr = true) -> (forall tr, shutdown_flag env tr = false) ->
  (forall tr rq, accepts env tr rq = true) ->
  Forall (fun h => (h < next_res s)%nat) (live s) ->
  Forall (fun t => validate_trade (Some t) = true /\ -2147483648 <= id t <= 2147483647 /\
                   -2147483648 <= quantity t <= 2147483647) ts ->
  ts <> [] ->
  insert_trades_batch env (Some (map Some ts ++ rest)%list) (List.length ts) s =
    (TDone true, mkTSt (trace s ++ [(Exec "BEGIN", true)] ++ map (fun t => (insert_request t, true)) ts
                          ++ [(Exec "COMMIT", true)])
                       (live s) (next_res s + List.length ts + 2)).
Proof.
  intros Hc Hsd Ha Hf Hv Hne.
  unfold insert_trades_batch.
  rewrite (tbind_done _ _ s true s) by (unfold PQstatus_ok; rewrite Hc; reflexivity).
  cbn [negb].
  destruct ts as [| t ts']; [congruence |]; cbn [List.length Nat.eqb].
  rewrite (tbind_done _ _ s true (mkTSt (trace s ++ [(Exec "BEGIN", true)]) (live s) (S (next_res s))))
    by (rewrite (transaction_eq env s _ "BEGIN") by (simpl; auto); rewrite Hc, Ha; reflexivity).
  cbn [negb].
  change (S (List.length ts')) with (List.length (t :: ts')).
  rewrite (batch_loop_accepted env _ 0 (t :: ts') rest); [| exact Hc | exact Hsd | exact Ha
    | cbn [live next_res]; eapply Forall_impl; [| exact Hf]; cbn; lia | exact Hv | reflexivity].
  cbn [trace live next_res]; rewrite <- app_assoc; f_equal; f_equal; lia.
Qed.

(** X16: [begin_transaction], [commit_transaction] and
    [rollback_transaction] on a broken connection send nothing and return
    [false]; otherwise they send their one command.  Accepted, the result
    is cleared and they return [true]; rejected, [handle_db_error] clears
    the result and the code clears it again: a double [PQclear]. *)
Theorem transaction_helpers env s f sql :
  In (f, sql) [(begin_transaction env, "BEGIN"); (commit_transaction env, "COMMIT");
               (rollback_transaction env, "ROLLBACK")] ->
  Forall (fun h => (h < next_res s)%nat) (live s) ->
  f s = if conn_ok env (trace s) then
          (if accepts env (trace s) (Exec sql) then TDone true else TCrashed,
           mkTSt (trace s ++ [(Exec sql, accepts env (trace s) (Exec sql))]) (live s) (S (next_res s)))
        else (TDone false, s).
Proof. exact (transaction_eq env s f sql). Qed.

(** X17: [insert_trade] on a NULL trade, a broken connection or an invalid
    trade sends nothing and returns [false]; for a valid trade with 32-bit
    id and quantity the number conversions never overflow, and it sends the
    one insert of the trade's row.  Accepted, it returns [true] with the
    result cleared; rejected, the result is cleared twice. *)
Theorem insert_trade_behaviour env tr s :
  Forall (fun h => (h < next_res s)%nat) (live s) ->
  -2147483648 <= id tr <= 2147483647 -> -2147483648 <= quantity tr <= 2147483647 ->
  insert_trade env None s = (TDone false, s) /\
  insert_trade env (Some tr) s =
    if conn_ok env (trace s) && validate_trade (Some tr) then
      (if accepts env (trace s) (insert_request tr) then TDone true else TCrashed,
       mkTSt (trace s ++ [(insert_request tr, accepts env (trace s) (insert_request tr))])
             (live s) (S (next_res s)))
    else (TDone false, s).
Proof. exact (insert_trade_eq env tr s). Qed.

Lemma remove_filter (x : nat) (l : list nat) :
  remove Nat.eq_dec x l = filter (fun y => negb (Nat.eqb x y)) l.
Proof.
  induction l as [| a l IH]; [reflexivity |]; cbn [remove filter].
  destruct (Nat.eq_dec x a) as [-> | Hne]; [rewrite Nat.eqb_refl; exact IH |].
  apply Nat.eqb_neq in Hne; rewrite Hne; cbn [negb]; rewrite IH; reflexivity.
Qed.

Lemma filter_and (f g : nat -> bool) (l : list nat) :
  filter f (filter g l) = filter (fun x => g x && f x) l.
Proof.
  induction l as [| a l IH]; [reflexivity |]; cbn [filter].
  destruct (g a) eqn:G; cbn [filter andb]; [destruct (f a) eqn:F |]; rewrite ?IH; reflexivity.
Qed.

Lemma filter_pointwise (f g : nat -> bool) (l : list nat) :
  (forall x, f x = g x) -> filter f l = filter g l.
Proof.
  intros H; induction l as [| a l IH]; [reflexivity |]; cbn [filter].
  rewrite H, IH; reflexivity.
Qed.

Lemma destroy_blocks_ext (t : trade_ptr) (h h' : heap) :
  blocks h = blocks h' ->
  blocks (trade_destroy t h) = blocks (trade_destroy t h').
Proof.
  intros E; destruct t as [[tr [[b bn] bj]] |]; [| exact E].
  cbn [trade_destroy free blocks]; rewrite E; reflexivity.
Qed.

Lemma destroy_comm (t u : trade_ptr) (h : heap) :
  blocks (trade_destroy t (trade_destroy u h)) = blocks (trade_destroy u (trade_destroy t h)).
Proof.
  destruct t as [[tr [[b bn] bj]] |], u as [[ur [[c cn] cj]] |]; try reflexivity.
  cbn [trade_destroy free blocks]; rewrite !remove_filter, !filter_and.
  apply filter_pointwise; intros x.
  destruct (Nat.eqb b x), (Nat.eqb bn x), (Nat.eqb bj x), (Nat.eqb c x), (Nat.eqb cn x),
    (Nat.eqb cj x); reflexivity.
Qed.

Lemma filter_keep (p : nat -> bool) (m : nat) (l : list nat) :
  Forall (fun b => (b < m)%nat) l -> (forall x, (x < m)%nat -> p x = true) -> filter p l = l.
Proof.
  intros Hl Hp; induction Hl as [| a l Ha _ IH]; [reflexivity |]; cbn [filter].
  rewrite (Hp a Ha), IH; reflexivity.
Qed.

Ltac heap_tac Hf :=
  repeat (cbn [remove];
          match goal with |- context [Nat.eq_dec ?a ?b] => destruct (Nat.eq_dec a b); try lia end);
  rewrite ?remove_filter, ?filter_and;
  try rewrite (filter_keep _ _ _ Hf)
    by (intros x Hx; repeat rewrite (proj2 (Nat.eqb_neq _ x)) by lia; reflexivity);
  first [ reflexivity
        | repeat apply Forall_cons; try lia; eapply Forall_impl; [| exact Hf]; cbn; lia ].

Lemma trade_create_sound malloc_ok id nm q js h :
  Forall (fun b => (b < mallocs h)%nat) (blocks h) ->
  blocks (trade_destroy (fst (trade_create malloc_ok id nm q js h)) (snd (trade_create malloc_ok id nm q js h)))
    = blocks h /\
  Forall (fun b => (b < mallocs (snd (trade_create malloc_ok id nm q js h)))%nat)
         (blocks (snd (trade_create malloc_ok id nm q js h))).
Proof.
  intros Hf.
  unfold trade_create, strdup, malloc.
  destruct nm as [n |]; [| split; [reflexivity | exact Hf]].
  destruct js as [j |]; [| split; [reflexivity | exact Hf]].
  destruct h as [bl m]; cbn [blocks mallocs] in *.
  assert (Hf1 : forall k, Forall (fun b => (b < k + m)%nat) bl)
    by (intros k; eapply Forall_impl; [| exact Hf]; cbn; lia).
  destruct (malloc_ok m); cbv beta iota; cbn [blocks mallocs fst snd].
  2: { split; [reflexivity | exact (Hf1 1%nat)]. }
  destruct (malloc_ok (S m)); cbv beta iota; cbn [blocks mallocs fst snd];
    [destruct (malloc_ok (S (S m))); cbv beta iota |];
    cbn [blocks mallocs free trade_destroy fst snd]; split; heap_tac Hf.
Qed.

Lemma parse_options_code (opts : list (ascii * string)) (o : options) (code : Z) :
  parse_options opts o = inl code -> code = EXIT_SUCCESS \/ code = EXIT_INVALID_ARGS.
Proof.
  revert o; induction opts as [| [c arg] opts IH]; intros o H; [discriminate H |].
  cbn [parse_options] in H.
  repeat match type of H with
         | context [if ?b then _ else _] => destruct b; [try exact (IH _ H) |]
         end; injection H as <-; auto.
Qed.


Lemma destroy_all_blocks (t0 t1 t2 : trade_ptr) (h1 h2 h3 h0 : heap) :
  blocks (trade_destroy t0 h1) = blocks h0 ->
  blocks (trade_destroy t1 h2) = blocks h1 ->
  blocks (trade_destroy t2 h3) = blocks h2 ->
  blocks (trade_destroy t2 (trade_destroy t1 (trade_destroy t0 h3))) = blocks h0.
Proof.
  intros H0 H1 H2.
  rewrite (destroy_blocks_ext t2 _ (trade_destroy t0 (trade_destroy t1 h3))) by apply destroy_comm.
  rewrite destroy_comm.
  rewrite (destroy_blocks_ext t0 _ (trade_destroy t1 (trade_destroy t2 h3))) by apply destroy_comm.
  rewrite (destroy_blocks_ext t0 _ (trade_destroy t1 h2)) by (apply destroy_blocks_ext; exact H2).
  rewrite (destroy_blocks_ext t0 _ h1) by exact H1.
  exact H0.
Qed.

Ltac main_exit Hcl :=
  split; [cbn; tauto |];
  split; [first [reflexivity | assumption] |];
  split; [exact (proj1 Hcl) |];
  split; [exact (proj2 Hcl) |];
  first [intros _; reflexivity | intros [E | E]; cbv in E; discriminate E].

(** X20: whenever [main] returns, its exit status is one of its five codes,
    every block the trades took is freed, and the [atexit] handler has
    closed the connection; on a failed allocation or connection no request
    has been sent. *)
Theorem trades_main_exit status_ok malloc_ok env ntuples opts st e st' :
  conn_inv (mconn st) ->
  Forall (fun b => (b < mallocs (mheap st))%nat) (blocks (mheap st)) ->
  trades_main status_ok malloc_ok env ntuples opts st = (MExit e, st') ->
  In e [EXIT_SUCCESS; EXIT_DB_CONNECTION_ERROR; EXIT_QUERY_ERROR; EXIT_MEMORY_ERROR; EXIT_INVALID_ARGS] /\
  blocks (mheap st') = blocks (mheap st) /\
  global_conn (mconn st') = None /\ open_conns (mconn st') = [] /\
  (e = EXIT_MEMORY_ERROR \/ e = EXIT_DB_CONNECTION_ERROR -> mdb st' = mdb st).
Proof.
  intros Hc Hf; unfold trades_main.
  destruct (parse_options opts initial_options) as [code | o] eqn:P.
  { intros H; injection H as <- <-; cbn [mconn mheap mdb].
    pose proof (cleanup_inv _ Hc) as Hcl.
    destruct (parse_options_code _ _ _ P) as [-> | ->]; main_exit Hcl. }
  destruct (build_connection_string o) as [cs |]; [| discriminate].
  pose proof (connect_db_inv status_ok cs _ Hc) as [Hc1 _].
  destruct (connect_db status_ok cs (mconn st)) as [connected c1] eqn:C; cbn [snd] in Hc1.
  pose proof (cleanup_inv _ Hc1) as Hcl.
  destruct connected; cbn [negb].
  2: { intros H; injection H as <- <-; cbn [mconn mheap mdb]; main_exit Hcl. }
  pose proof (trade_create_sound malloc_ok 1 (Some "Trade1") 1001 (Some trade1_json) _ Hf) as [D0 F1].
  destruct (trade_create malloc_ok 1 (Some "Trade1") 1001 (Some trade1_json) (mheap st)) as [t0 h1];
    cbn [fst snd] in D0, F1.
  pose proof (trade_create_sound malloc_ok 2 (Some "Trade2") 15 (Some trade2_json) _ F1) as [D1 F2].
  destruct (trade_create malloc_ok 2 (Some "Trade2") 15 (Some trade2_json) h1) as [t1 h2];
    cbn [fst snd] in D1, F2.
  pose proof (trade_create_sound malloc_ok 3 (Some "Trade3") 200 (Some trade3_json) _ F2) as [D2 _].
  destruct (trade_create malloc_ok 3 (Some "Trade3") 200 (Some trade3_json) h2) as [t2 h3];
    cbn [fst snd] in D2.
  pose proof (destroy_all_blocks t0 t1 t2 h1 h2 h3 _ D0 D1 D2) as Dall.
  destruct (is_some t0 && is_some t1 && is_some t2).
  2: { intros H; injection H as <- <-; cbn [mconn mheap mdb]; main_exit Hcl. }
  destruct (insert_trades_batch env (Some (map (option_map fst) [t0; t1; t2])) 3 (mdb st))
    as [[[|] |] d1]; [| intros H; injection H as <- <-; cbn [mconn mheap mdb]; main_exit Hcl
                      | discriminate].
  destruct (get_trades_over_quantity env ntuples 100 d1) as [[] d2]; [| discriminate].
  intros H; injection H as <- <-; cbn [mconn mheap mdb]; main_exit Hcl.
Qed.

Lemma log_message_written_witness :
  let current := LOG_INFO in
  let level := LOG_ERROR in
  let ct := "Fri Oct 16 09:30:00 2026" in
  let text := "Cannot query trades: Invalid connection" in
  (level_value level <= level_value current)%nat /\
  let header := "[" ++ substring 0 24 ct ++ "] [" ++ level_str level ++ "] " in
  exists shown rest,
    text = shown ++ rest /\
    (String.length (header ++ shown) <= LOG_BUF_SIZE - 1)%nat /\
    ((String.length header + String.length text < LOG_BUF_SIZE)%nat -> rest = EmptyString) /\
    log_message current level ct text =
      List.app (if Nat.leb LOG_BUF_SIZE (String.length header + String.length text)
                then [(stderr, truncated_notice)] else [])
        [(match level with LOG_ERROR | LOG_WARN => stderr | _ => stdout end, header ++ shown)].
Proof.
  intros current level ct text.
  split; [cbn; lia |].
  apply log_message_written; cbn; lia.
Defined.

Lemma parse_options_exit_witness :
  let opts := [("v"%char, EmptyString); ("h"%char, "db.example"); ("?"%char, EmptyString)] in
  Forall (fun p => In (fst p) optstring_chars) opts /\
  (forall code, parse_options opts initial_options = inl code -> code = EXIT_SUCCESS) /\
  ((exists code, parse_options opts initial_options = inl code) <-> In "?"%char (map fst opts)).
Proof.
  intros opts.
  assert (H : Forall (fun p => In (fst p) optstring_chars) opts)
    by (repeat constructor; cbn; auto 10).
  split; [exact H | exact (parse_options_exit opts initial_options H)].
Defined.

Lemma connection_string_built_witness :
  let o := mk_options (Some "db.example") (Some "5433") None (Some "alice") None LOG_INFO in
  (String.length (frag_text (fragments o)) <= 1023)%nat /\
  build_connection_string o =
    Some (if String.eqb (frag_text (fragments o)) EmptyString then DEFAULT_DB_PARAMS
          else frag_text (fragments o)).
Proof.
  intros o.
  assert (H : (String.length (frag_text (fragments o)) <= 1023)%nat)
    by (apply Nat.leb_le; vm_compute; reflexivity).
  split; [exact H | exact (connection_string_built o H)].
Defined.

Lemma connection_string_bounded_witness :
  build_connection_string initial_options = Some DEFAULT_DB_PARAMS /\
  (String.length DEFAULT_DB_PARAMS <= 1023)%nat.
Proof.
  assert (H : build_connection_string initial_options = Some DEFAULT_DB_PARAMS)
    by (vm_compute; reflexivity).
  split; [exact H | exact (connection_string_bounded initial_options DEFAULT_DB_PARAMS H)].
Defined.

Lemma connection_string_overflow_witness :
  let h := string_of_list_ascii (List.repeat "a"%char 1019) in
  let o := mk_options (Some h) None None (Some "alice") None LOG_INFO in
  host o = Some h /\ (1019 <= String.length h)%nat /\ build_connection_string o = None.
Proof.
  intros h o.
  assert (Hl : (1019 <= String.length h)%nat) by (apply Nat.leb_le; vm_compute; reflexivity).
  split; [reflexivity | split; [exact Hl |]].
  apply (connection_string_overflow o h eq_refl Hl).
  right; right; left; discriminate.
Defined.

Lemma connection_lifecycle_witness :
  let st := mk_conn_state (Some 3%nat) [3%nat] 4 in
  let status_ok := fun (c : nat) (_ : string) => Nat.even c in
  conn_inv st /\
  conn_inv (snd (connect_db status_ok DEFAULT_DB_PARAMS st)) /\
  (fst (connect_db status_ok DEFAULT_DB_PARAMS st) = true <->
   global_conn (snd (connect_db status_ok DEFAULT_DB_PARAMS st)) <> None) /\
  conn_inv (disconnect_db st) /\
  global_conn (cleanup st) = None /\ open_conns (cleanup st) = [].
Proof.
  intros st status_ok.
  assert (H : conn_inv st) by reflexivity.
  split; [exact H | exact (connection_lifecycle status_ok DEFAULT_DB_PARAMS st H)].
Defined.

Lemma trade_create_destroy_witness :
  let h := mk_heap [0%nat; 1%nat] 2 in
  let malloc_ok := fun k : nat => Nat.ltb k 10 in
  Forall (fun b => (b < mallocs h)%nat) (blocks h) /\
  match trade_create malloc_ok 2 (Some "Trade2") 15 (Some trade2_json) h with
  | (None, h') => blocks h' = blocks h
  | (Some (t, (b, bn, bj)), h') =>
      (exists n j, Some "Trade2" = Some n /\ Some trade2_json = Some j /\
                   t = mk_trade 2 (Some n) 15 (Some j)) /\
      validate_trade (Some t) = (0 <? 15) /\
      NoDup [b; bn; bj] /\ Forall (fun x => ~ In x (blocks h)) [b; bn; bj] /\
      blocks h' = bj :: bn :: b :: blocks h /\
      blocks (trade_destroy (Some (t, (b, bn, bj))) h') = blocks h
  end.
Proof.
  intros h malloc_ok.
  assert (H : Forall (fun b => (b < mallocs h)%nat) (blocks h))
    by (repeat apply Forall_cons; try apply Forall_nil; cbn; lia).
  split; [exact H |].
  exact (proj2 (trade_create_destroy malloc_ok 2 (Some "Trade2") 15 (Some trade2_json) h H)).
Defined.

Lemma transaction_helpers_witness :
  let env := reject_env "7" in
  In (begin_transaction env, "BEGIN")
     [(begin_transaction env, "BEGIN"); (commit_transaction env, "COMMIT");
      (rollback_transaction env, "ROLLBACK")] /\
  Forall (fun h => (h < next_res tst0)%nat) (live tst0) /\
  begin_transaction env tst0 =
    (TDone true, mkTSt (trace tst0 ++ [(Exec "BEGIN", true)]) (live tst0) (S (next_res tst0))).
Proof.
  intros env.
  assert (H1 : In (begin_transaction env, "BEGIN")
                 [(begin_transaction env, "BEGIN"); (commit_transaction env, "COMMIT");
                  (rollback_transaction env, "ROLLBACK")]) by (left; reflexivity).
  assert (H2 : Forall (fun h => (h < next_res tst0)%nat) (live tst0)) by constructor.
  split; [exact H1 | split; [exact H2 |]].
  exact (transaction_helpers env tst0 _ "BEGIN" H1 H2).
Defined.

Lemma insert_trade_behaviour_witness :
  let env := reject_env "2" in
  let tr := mk_trade 2 (Some "Trade2") 15 (Some trade2_json) in
  Forall (fun h => (h < next_res tst0)%nat) (live tst0) /\
  insert_trade env None tst0 = (TDone false, tst0) /\
  insert_trade env (Some tr) tst0 =
    (TCrashed, mkTSt (trace tst0 ++ [(insert_request tr, false)]) (live tst0) (S (next_res tst0))).
Proof.
  intros env tr.
  assert (H : Forall (fun h => (h < next_res tst0)%nat) (live tst0)) by constructor.
  split; [exact H |].
  exact (insert_trade_behaviour env tr tst0 H ltac:(cbn; lia) ltac:(cbn; lia)).
Defined.

Lemma get_trades_over_quantity_behaviour_witness :
  let env := reject_env "x" in
  let rq := ExecParams select_query [23] [string_of_long 100] in
  Forall (fun h => (h < next_res tst0)%nat) (live tst0) /\
  get_trades_over_quantity env (fun _ => 3%nat) 100 tst0 =
    (TDone tt, mkTSt (trace tst0 ++ [(rq, true)]) (live tst0) (S (next_res tst0))).
Proof.
  intros env rq.
  assert (H : Forall (fun h => (h < next_res tst0)%nat) (live tst0)) by constructor.
  split; [exact H |].
  exact (get_trades_over_quantity_behaviour env (fun _ => 3%nat) 100 tst0 H ltac:(lia)).
Defined.

Lemma batch_all_accepted_witness :
  let env := mkEnv (fun _ _ => true) (fun _ => true) (fun _ => false) in
  let ts := [mk_trade 1 (Some "Trade1") 1001 (Some trade1_json);
             mk_trade 2 (Some "Trade2") 15 (Some trade2_json)] in
  Forall (fun t => validate_trade (Some t) = true /\ -2147483648 <= id t <= 2147483647 /\
                   -2147483648 <= quantity t <= 2147483647) ts /\
  insert_trades_batch env (Some (map Some ts ++ [None])%list) (List.length ts) tst0 =
    (TDone true, mkTSt (trace tst0 ++ [(Exec "BEGIN", true)] ++ map (fun t => (insert_request t, true)) ts
                          ++ [(Exec "COMMIT", true)])
                       (live tst0) (next_res tst0 + List.length ts + 2)).
Proof.
  intros env ts.
  assert (Hv : Forall (fun t => validate_trade (Some t) = true /\ -2147483648 <= id t <= 2147483647 /\
                   -2147483648 <= quantity t <= 2147483647) ts)
    by (repeat apply Forall_cons; try apply Forall_nil; cbn; repeat split; try reflexivity; lia).
  split; [exact Hv |].
  exact (batch_all_accepted env ts [None] tst0 (fun _ => eq_refl) (fun _ => eq_refl)
           (fun _ _ => eq_refl) (Forall_nil _) Hv ltac:(discriminate)).
Defined.

Lemma trades_main_exit_witness :
  let st := mk_main_state (mk_conn_state None [] 0) (mk_heap [] 0) tst0 in
  let malloc_ok := fun k : nat => negb (Nat.eqb k 4) in
  let run := trades_main (fun _ _ => true) malloc_ok (reject_env "x") (fun _ => 3%nat) [] st in
  run = (MExit EXIT_MEMORY_ERROR, snd run) /\
  In EXIT_MEMORY_ERROR [EXIT_SUCCESS; EXIT_DB_CONNECTION_ERROR; EXIT_QUERY_ERROR; EXIT_MEMORY_ERROR;
                        EXIT_INVALID_ARGS] /\
  blocks (mheap (snd run)) = blocks (mheap st) /\
  global_conn (mconn (snd run)) = None /\ open_conns (mconn (snd run)) = [] /\
  (EXIT_MEMORY_ERROR = EXIT_MEMORY_ERROR \/ EXIT_MEMORY_ERROR = EXIT_DB_CONNECTION_ERROR ->
   mdb (snd run) = mdb st).
Proof.
  intros st malloc_ok run.
  assert (H : run = (MExit EXIT_MEMORY_ERROR, snd run)) by (vm_compute; reflexivity).
  split; [exact H |].
  exact (trades_main_exit (fun _ _ => true) malloc_ok (reject_env "x") (fun _ => 3%nat) [] st
           EXIT_MEMORY_ERROR (snd run) eq_refl (Forall_nil _) H).
Defined.

End TradesCliProofs.
